(** * ClusterBlast report parser ([parse_antismash.py]): model and properties

    A shallow embedding of [src/parse_antismash.py].  Python [str] values are
    modelled as lists of characters; a character is a code point below 256
    (Rocq's [ascii]), the range on which the character tables used by the
    script ([str.isspace], the [re] classes [\s], [\d], [\D]) are written out
    in full below.  Pandas data frames are modelled as lists of records, in
    row order; a missing value ([None]/[NaN]) is [None]. *)

From Stdlib Require Import Ascii String Bool Arith Lia List.
Import ListNotations.

Set Implicit Arguments.

(* ================================================================== *)
(** ** Python strings *)

Module PyStr.

Definition str := list ascii.

(** A string literal of the source. *)
Definition lit (s : string) : str := list_ascii_of_string s.

Definition TAB : ascii := "009"%char.
Definition LF : ascii := "010"%char.
Definition VT : ascii := "011"%char.
Definition FF : ascii := "012"%char.
Definition CR : ascii := "013"%char.
Definition FS : ascii := "028"%char.
Definition GS : ascii := "029"%char.
Definition RS : ascii := "030"%char.
Definition US : ascii := "031"%char.
Definition SPACE : ascii := " "%char.
Definition DQUOTE : ascii := "034"%char.
Definition SQUOTE : ascii := "039"%char.
Definition NEL : ascii := "133"%char.
Definition NBSP : ascii := "160"%char.

Definition chr_eqb (a b : ascii) : bool := Ascii.eqb a b.

Definition in_range (lo hi : nat) (c : ascii) : bool :=
  (lo <=? nat_of_ascii c) && (nat_of_ascii c <=? hi).

(** [str.isspace] on one character: U+0009..U+000D, U+001C..U+0020,
    U+0085 and U+00A0 are the whitespace code points below 256. *)
Definition isspace (c : ascii) : bool :=
  in_range 9 13 c || in_range 28 32 c || chr_eqb c NEL || chr_eqb c NBSP.

(** Membership of a character in the argument of [strip(chars)]. *)
Definition mem (chars : str) (c : ascii) : bool := existsb (chr_eqb c) chars.

Fixpoint dropWhile (p : ascii -> bool) (s : str) : str :=
  match s with
  | [] => []
  | c :: t => if p c then dropWhile p t else s
  end.

Fixpoint takeWhile (p : ascii -> bool) (s : str) : str :=
  match s with
  | [] => []
  | c :: t => if p c then c :: takeWhile p t else []
  end.

Definition dropWhileEnd (p : ascii -> bool) (s : str) : str :=
  rev (dropWhile p (rev s)).

(** [s.lstrip()], [s.rstrip()], [s.strip()]. *)
Definition lstrip (s : str) : str := dropWhile isspace s.
Definition rstrip (s : str) : str := dropWhileEnd isspace s.
Definition strip (s : str) : str := rstrip (lstrip s).

(** [s.lstrip(chars)], [s.rstrip(chars)]. *)
Definition lstrip_chars (chars s : str) : str := dropWhile (mem chars) s.
Definition rstrip_chars (chars s : str) : str := dropWhileEnd (mem chars) s.

(** [s.startswith(prefix)]. *)
Fixpoint startswith (s prefix : str) {struct prefix} : bool :=
  match prefix, s with
  | [], _ => true
  | _ :: _, [] => false
  | a :: p, c :: t => chr_eqb c a && startswith t p
  end.

(** [s.replace(c, '')] for a one-character [c]. *)
Definition remove_char (c : ascii) (s : str) : str :=
  filter (fun x => negb (chr_eqb x c)) s.

(** The characters of [s] outside the class [p], in order. *)
Definition keep_not (p : ascii -> bool) (s : str) : str :=
  filter (fun c => negb (p c)) s.

(** [s.split(c)] for a one-character separator: never empty. *)
Fixpoint split_on (c : ascii) (s : str) : list str :=
  match s with
  | [] => [[]]
  | x :: t =>
      if chr_eqb x c then [] :: split_on c t
      else match split_on c t with
           | [] => [[x]]
           | w :: ws => (x :: w) :: ws
           end
  end.

(** [s.split()]: the maximal runs of non-whitespace characters.  [cur] is
    the token being read, reversed. *)
Fixpoint split_ws_from (cur : str) (s : str) : list str :=
  match s with
  | [] => match cur with [] => [] | _ => [rev cur] end
  | c :: t =>
      if isspace c
      then match cur with
           | [] => split_ws_from [] t
           | _ => rev cur :: split_ws_from [] t
           end
      else split_ws_from (c :: cur) t
  end.

Definition split_ws (s : str) : list str := split_ws_from [] s.

(** [sep.join(parts)]. *)
Fixpoint join (sep : str) (parts : list str) : str :=
  match parts with
  | [] => []
  | [p] => p
  | p :: rest => p ++ sep ++ join sep rest
  end.

(** [s.split(sep, 1)[1]]: what follows the first occurrence of [sep];
    [None] where Python raises [IndexError] ([sep] does not occur). *)
Fixpoint after_first (sep s : str) : option str :=
  if startswith s sep then Some (skipn (length sep) s)
  else match s with
       | [] => None
       | _ :: t => after_first sep t
       end.

(** Line boundaries of [str.splitlines]. *)
Definition is_linebreak (c : ascii) : bool :=
  in_range 10 13 c || in_range 28 30 c || chr_eqb c NEL.

(** [text.splitlines()]; [cur] is the line being read, reversed.  A CR LF
    pair is one boundary, and a final boundary opens no empty line. *)
Fixpoint splitlines_from (cur : str) (s : str) : list str :=
  match s with
  | [] => match cur with [] => [] | _ => [rev cur] end
  | c :: t =>
      if is_linebreak c
      then rev cur ::
           match t with
           | c' :: t' =>
               if chr_eqb c CR && chr_eqb c' LF
               then splitlines_from [] t'
               else splitlines_from [] t
           | [] => []
           end
      else splitlines_from (c :: cur) t
  end.

Definition splitlines (s : str) : list str := splitlines_from [] s.

(** Truth value of an optional string ([None] and [''] are false). *)
Definition truthy (o : option str) : bool :=
  match o with
  | None => false
  | Some [] => false
  | Some _ => true
  end.

Definition str_eqb (a b : str) : bool :=
  if list_eq_dec ascii_dec a b then true else false.

End PyStr.

(* ================================================================== *)
(** ** The fragment of Python's [re] used by the script *)

Module Re.
Import PyStr.

(** Patterns.  Repetition is only ever applied to a character class in the
    script, so [Star] and [LazyStar] take the class directly; there is at
    most one capturing group per pattern. *)
Inductive regex : Type :=
| Eps
| Chr (p : ascii -> bool)              (* one character of a class *)
| Cat (r1 r2 : regex)                  (* r1 r2 *)
| Alt (r1 r2 : regex)                  (* r1|r2, left alternative first *)
| Star (p : ascii -> bool)             (* p*, greedy *)
| LazyStar (p : ascii -> bool)         (* p*?, lazy *)
| Group (r : regex)                    (* (r), group 1 *)
| Bol                                  (* ^ *)
| Eol.                                 (* $ *)

Definition Plus (p : ascii -> bool) : regex := Cat (Chr p) (Star p).

Fixpoint Str (s : str) : regex :=
  match s with
  | [] => Eps
  | c :: t => Cat (Chr (fun x => chr_eqb x c)) (Str t)
  end.

(** Character classes. *)
Definition cls_digit (c : ascii) : bool := in_range 48 57 c.        (* \d *)
Definition cls_nondigit (c : ascii) : bool := negb (cls_digit c).   (* \D *)
Definition cls_space (c : ascii) : bool := isspace c.               (* \s *)
Definition cls_any (c : ascii) : bool := negb (chr_eqb c LF).       (* . *)
Definition cls_upper (c : ascii) : bool := in_range 65 90 c.        (* [A-Z] *)
Definition cls_lower (c : ascii) : bool := in_range 97 122 c.       (* [a-z] *)
Definition cls_is (a : ascii) (c : ascii) : bool := chr_eqb c a.

Section Matcher.
Variable R : Type.
(** Length of the whole subject string: [^] holds where nothing of it has
    been consumed. *)
Variable n : nat.

(** Backtracking: [k] is what remains of the pattern; the first
    alternative that lets [k] succeed is taken. *)
Fixpoint star_greedy (p : ascii -> bool) (s : str) (k : str -> option R)
  : option R :=
  match s with
  | c :: t =>
      if p c
      then match star_greedy p t k with
           | Some x => Some x
           | None => k s
           end
      else k s
  | [] => k []
  end.

Fixpoint star_lazy (p : ascii -> bool) (s : str) (k : str -> option R)
  : option R :=
  match k s with
  | Some x => Some x
  | None =>
      match s with
      | c :: t => if p c then star_lazy p t k else None
      | [] => None
      end
  end.

Fixpoint run (r : regex) (s : str) (g : option str)
         (k : str -> option str -> option R) : option R :=
  match r with
  | Eps => k s g
  | Chr p =>
      match s with
      | c :: t => if p c then k t g else None
      | [] => None
      end
  | Cat r1 r2 => run r1 s g (fun s' g' => run r2 s' g' k)
  | Alt r1 r2 =>
      match run r1 s g k with
      | Some x => Some x
      | None => run r2 s g k
      end
  | Star p => star_greedy p s (fun s' => k s' g)
  | LazyStar p => star_lazy p s (fun s' => k s' g)
  | Group r1 =>
      run r1 s g
          (fun s' _ => k s' (Some (firstn (length s - length s') s)))
  | Bol => if length s =? n then k s g else None
  | Eol =>
      match s with
      | [] => k s g
      | [c] => if chr_eqb c LF then k s g else None
      | _ => None
      end
  end.
End Matcher.

(** A match of [r] at the head of [s], where [s] is what is left of a
    subject of length [n]: the unconsumed rest and group 1. *)
Definition match_at (n : nat) (r : regex) (s : str)
  : option (str * option str) :=
  run n r s None (fun s' g => Some (s', g)).

(** [re.match(r, s)]. *)
Definition re_match (r : regex) (s : str) : option (str * option str) :=
  match_at (length s) r s.

Definition matched (r : regex) (s : str) : bool :=
  match re_match r s with Some _ => true | None => false end.

(** [m.group(1)] of a match object. *)
Definition group1 (m : str * option str) : str :=
  match snd m with Some g => g | None => [] end.

(** A match at the head of [s] that consumes at least one character. *)
Definition match_nonempty_at (n : nat) (r : regex) (s : str)
  : option (str * option str) :=
  run n r s None
      (fun s' g => if length s' =? length s then None else Some (s', g)).

(** What remains to be substituted after the first character of a match
    of [len] characters has been read: [cont k] passes over [k] more. *)
Definition after_match (len : nat) (cont : nat -> str) : str :=
  cont (len - 1).

(** [re.sub]: leftmost non-overlapping matches, each replaced by [repl]
    applied to its group 1.  [skip] counts the characters of the current
    match still to be passed over.  After an empty match the next match
    may start at the same place but has to consume a character; failing
    that, the character is copied and the search resumes behind it. *)
Fixpoint sub_from (n : nat) (r : regex) (repl : option str -> str)
         (s : str) (skip : nat) {struct s} : str :=
  match skip with
  | S k => match s with [] => [] | _ :: t => sub_from n r repl t k end
  | 0 =>
      match match_at n r s with
      | Some (s', g) =>
          repl g ++
          match length s - length s' with
          | S k => match s with [] => [] | _ :: t => sub_from n r repl t k end
          | 0 =>
              match match_nonempty_at n r s with
              | Some (s'', g2) =>
                  repl g2 ++
                  match s with
                  | [] => []
                  | _ :: t =>
                      after_match (length s - length s'') (sub_from n r repl t)
                  end
              | None =>
                  match s with
                  | [] => []
                  | c :: t => c :: sub_from n r repl t 0
                  end
              end
          end
      | None =>
          match s with
          | [] => []
          | c :: t => c :: sub_from n r repl t 0
          end
      end
  end.

Definition re_sub (r : regex) (repl : option str -> str) (s : str) : str :=
  sub_from (length s) r repl s 0.

(** Replacement templates [''] and [r'\1']. *)
Definition repl_empty (_ : option str) : str := [].
Definition repl_group1 (g : option str) : str :=
  match g with Some w => w | None => [] end.

(** What the patterns denote, without the search order: [matches n r s g s'
    g'] holds when [r] can consume a prefix of [s] leaving [s'], turning
    the value [g] of group 1 into [g']. *)
Inductive matches (n : nat)
  : regex -> str -> option str -> str -> option str -> Prop :=
| M_Eps s g : matches n Eps s g s g
| M_Chr p c t g : p c = true -> matches n (Chr p) (c :: t) g t g
| M_Cat r1 r2 s g s1 g1 s2 g2 :
    matches n r1 s g s1 g1 -> matches n r2 s1 g1 s2 g2 ->
    matches n (Cat r1 r2) s g s2 g2
| M_AltL r1 r2 s g s' g' :
    matches n r1 s g s' g' -> matches n (Alt r1 r2) s g s' g'
| M_AltR r1 r2 s g s' g' :
    matches n r2 s g s' g' -> matches n (Alt r1 r2) s g s' g'
| M_Star p w s' g :
    forallb p w = true -> matches n (Star p) (w ++ s') g s' g
| M_LazyStar p w s' g :
    forallb p w = true -> matches n (LazyStar p) (w ++ s') g s' g
| M_Group r s g s' g' :
    matches n r s g s' g' ->
    matches n (Group r) s g s' (Some (firstn (length s - length s') s))
| M_Bol s g : length s = n -> matches n Bol s g s g
| M_Eol s g : s = [] \/ s = [LF] -> matches n Eol s g s g.

End Re.

(* ================================================================== *)
(** ** Rows of the data frames *)

(** A row of [query_df]: one gene of the query cluster. *)
Module Q.
Import PyStr.
Record row : Type := mk {
  query_gene : str;
  start : str;
  stop : str;
  strand : str;
  annotation : option str
}.
End Q.

(** A row of [hits_df]: one blast hit with the metadata of its block. *)
Module H.
Import PyStr.
Record row : Type := mk {
  BCG_identifier : option str;
  BCG_name : option str;
  BCG_type : option str;
  proteins_with_blast_hits : option str;
  cum_BLAST_Score : option str;
  query_gene : str;
  subject_gene : str;
  pct_identity : str;
  blast_score : str;
  pct_coverage : str;
  evalue : str
}.
End H.

(** A row of [merged]: the hit, its region, the query-side columns (missing
    when the hit found no query row) and the [_merge] indicator. *)
Module M.
Import PyStr.
Inductive indicator : Type := left_only | both.
Record row : Type := mk {
  hit : H.row;
  region : str;
  start : option str;
  stop : option str;
  strand : option str;
  annotation : option str;
  _merge : indicator
}.
End M.

(* ================================================================== *)
(** ** The parser *)

Module ClusterBlast.
Import PyStr Re.

Definition is_empty (s : str) : bool :=
  match s with [] => true | _ :: _ => false end.

(** *** Patterns of the source *)

(** [[\r\n\t]+] *)
Definition cls_crlftab (c : ascii) : bool :=
  chr_eqb c CR || chr_eqb c LF || chr_eqb c TAB.
Definition re_crlftab : regex := Plus cls_crlftab.

(** [^\d+\.\s+BGC] *)
Definition re_ord_bgc : regex :=
  Cat Bol (Cat (Plus cls_digit) (Cat (Chr (cls_is "."))
    (Cat (Plus cls_space) (Str (lit "BGC"))))).

(** [[\d\.\-A-Za-z]] *)
Definition cls_id_tail (c : ascii) : bool :=
  cls_digit c || cls_is "." c || cls_is "-" c || cls_upper c || cls_lower c.

(** [^\d+\.\s+(ID)] with [ID] the group [[A-Z]{3}\d+[\d\.\-A-Za-z]*] *)
Definition re_m_bgc : regex :=
  Cat Bol (Cat (Plus cls_digit) (Cat (Chr (cls_is "."))
    (Cat (Plus cls_space)
      (Group (Cat (Chr cls_upper) (Cat (Chr cls_upper) (Cat (Chr cls_upper)
         (Cat (Plus cls_digit) (Star cls_id_tail))))))))).

(** [[0-9\.\-]] *)
Definition cls_m2_tail (c : ascii) : bool :=
  in_range 48 57 c || cls_is "." c || cls_is "-" c.

(** [^\d+\.\s+(BGC[0-9\.\-]+)] *)
Definition re_m2 : regex :=
  Cat Bol (Cat (Plus cls_digit) (Cat (Chr (cls_is "."))
    (Cat (Plus cls_space)
      (Group (Cat (Str (lit "BGC")) (Plus cls_m2_tail)))))).

(** [\..*$] *)
Definition re_dot_suffix : regex :=
  Cat (Chr (cls_is ".")) (Cat (Star cls_any) Eol).

(** [_c\d+|_C\d+|_c\D*\d+] *)
Definition re_region_tag : regex :=
  Alt (Cat (Str (lit "_c")) (Plus cls_digit))
   (Alt (Cat (Str (lit "_C")) (Plus cls_digit))
        (Cat (Str (lit "_c")) (Cat (Star cls_nondigit) (Plus cls_digit)))).

(** [.*?(_c\d+|_C\d+|_c\D*\d+).*] *)
Definition re_region : regex :=
  Cat (LazyStar cls_any) (Cat (Group re_region_tag) (Star cls_any)).

(** *** [normalize_gene_id]

    The argument is always a [str] here (every call site passes a string or
    a column converted with [astype(str)]), so the [pd.isna] exit is not
    taken. *)
Definition normalize_gene_id (s : str) : str :=
  let s := strip s in
  let s := re_sub re_crlftab repl_empty s in
  let s := remove_char SQUOTE (remove_char DQUOTE s) in
  rstrip_chars (lit " ,;:") s.

(** *** [parse_query_cluster_block] *)

(** The body of the loop for a line that does not end the table:
    [len(parts) >= 5] is the first pattern, [len(parts_ws) >= 5] the
    second. *)
Definition query_row_of_line (ln : str) : option Q.row :=
  match split_on TAB ln with
  | p0 :: p1 :: p2 :: p3 :: p4 :: _ =>
      Some (Q.mk (normalize_gene_id p0) (strip p1) (strip p2) (strip p3)
                 (if is_empty p4 then None else Some (strip p4)))
  | _ =>
      match split_ws ln with
      | w0 :: w1 :: w2 :: w3 :: w4 :: rest =>
          Some (Q.mk (normalize_gene_id w0) w1 w2 w3
                     (Some (join (lit " ") (w4 :: rest))))
      | _ => None
      end
  end.

Definition ends_query_table (ln : str) : bool :=
  is_empty (strip ln)
  || startswith (strip ln) (lit "Significant hits:")
  || startswith (strip ln) (lit "Details:").

Fixpoint query_rows (lines : list str) : list Q.row :=
  match lines with
  | [] => []
  | ln0 :: rest =>
      let ln := rstrip_chars [LF] ln0 in
      if ends_query_table ln then []
      else match query_row_of_line ln with
           | Some r => r :: query_rows rest
           | None => query_rows rest
           end
  end.

(** [df["query_gene"].astype(str).apply(normalize_gene_id)] *)
Definition normalize_query_col (df : list Q.row) : list Q.row :=
  map (fun r => Q.mk (normalize_gene_id (Q.query_gene r)) (Q.start r)
                     (Q.stop r) (Q.strand r) (Q.annotation r)) df.

Definition normalize_hits_col (df : list H.row) : list H.row :=
  map (fun r => H.mk (H.BCG_identifier r) (H.BCG_name r) (H.BCG_type r)
                     (H.proteins_with_blast_hits r) (H.cum_BLAST_Score r)
                     (normalize_gene_id (H.query_gene r)) (H.subject_gene r)
                     (H.pct_identity r) (H.blast_score r) (H.pct_coverage r)
                     (H.evalue r)) df.

Definition parse_query_cluster_block (lines : list str) : list Q.row :=
  normalize_query_col (query_rows lines).

(** *** [parse_file], step 1: the query cluster table *)

Definition query_header : str :=
  lit "Table of genes, locations, strands and annotations of query cluster:".

Fixpoint find_query_block (lines : list str) : list Q.row :=
  match lines with
  | [] => []
  | ln :: tail =>
      if startswith (strip ln) query_header
      then parse_query_cluster_block tail
      else find_query_block tail
  end.

(** *** [parse_file], step 2: segmentation into cluster blocks *)

(** [[i for i, ln in enumerate(lines) if p(ln)]], counting from [i]. *)
Fixpoint indices_from (p : str -> bool) (i : nat) (lines : list str)
  : list nat :=
  match lines with
  | [] => []
  | ln :: rest =>
      if p ln then i :: indices_from p (S i) rest
      else indices_from p (S i) rest
  end.

Definition is_primary (ln : str) : bool := startswith (strip ln) (lit ">>").
Definition is_fallback (ln : str) : bool := matched re_ord_bgc (strip ln).

Definition block_starts (lines : list str) : list nat :=
  match indices_from is_primary 0 lines with
  | [] => indices_from is_fallback 0 lines
  | idxs => idxs
  end.

(** The pairs [(start_idx, end_idx)] of the loop over [idxs]; [n] is
    [len(lines)]. *)
Fixpoint spans (idxs : list nat) (n : nat) : list (nat * nat) :=
  match idxs with
  | [] => []
  | start_idx :: rest =>
      (start_idx, match rest with [] => n | next :: _ => next end)
      :: spans rest n
  end.

(** [lines[a:b]] *)
Definition slice (A : Type) (l : list A) (a b : nat) : list A :=
  firstn (b - a) (skipn a l).

Definition segment (lines : list str) : list (nat * nat) :=
  spans (block_starts lines) (length lines).

Definition blocks (lines : list str) : list (list str) :=
  map (fun se => slice lines (fst se) (snd se)) (segment lines).

(** *** [parse_file], step 2: block metadata *)

Record Meta : Type := mkMeta {
  bgc_id : option str;
  source_name : option str;
  bgc_type : option str;
  proteins_with_hits : option str;
  cum_score : option str
}.

Definition no_meta : Meta := mkMeta None None None None None.

(** [ln_stripped.split(sep, 1)[1].strip()]; the guard [startswith] that
    precedes each use makes [sep] occur, so [after_first] is [Some]. *)
Definition value_after (sep : str) (ln_stripped : str) : option str :=
  option_map strip (after_first sep ln_stripped).

Definition lbl_source : str := lit "Source:".
Definition lbl_type : str := lit "Type:".
Definition lbl_proteins : str :=
  lit "Number of proteins with BLAST hits to this cluster:".
Definition lbl_cum : str := lit "Cumulative BLAST score:".

(** One iteration of the loop over [block[:15]]: the six [if]s in order. *)
Definition header_step (m : Meta) (ln : str) : Meta :=
  let ln_stripped := strip ln in
  let m :=
    match re_match re_m_bgc ln_stripped with
    | Some m_bgc =>
        mkMeta (Some (group1 m_bgc)) (source_name m) (bgc_type m)
               (proteins_with_hits m) (cum_score m)
    | None => m
    end in
  let m :=
    if startswith ln_stripped lbl_source
    then mkMeta (bgc_id m) (value_after lbl_source ln_stripped) (bgc_type m)
                (proteins_with_hits m) (cum_score m)
    else m in
  let m :=
    if startswith ln_stripped lbl_type
    then mkMeta (bgc_id m) (source_name m) (value_after lbl_type ln_stripped)
                (proteins_with_hits m) (cum_score m)
    else m in
  let m :=
    if startswith ln_stripped lbl_proteins
    then mkMeta (bgc_id m) (source_name m) (bgc_type m)
                (value_after (lit ":") ln_stripped) (cum_score m)
    else m in
  let m :=
    if startswith ln_stripped lbl_cum
    then mkMeta (bgc_id m) (source_name m) (bgc_type m)
                (proteins_with_hits m) (value_after (lit ":") ln_stripped)
    else m in
  match re_match re_m2 ln_stripped with
  | Some m2 =>
      if negb (truthy (bgc_id m))
      then mkMeta (Some (group1 m2)) (source_name m) (bgc_type m)
                  (proteins_with_hits m) (cum_score m)
      else m
  | None => m
  end.

Definition scan_header (m : Meta) (window : list str) : Meta :=
  fold_left header_step window m.

Definition block_metadata (block : list str) : Meta :=
  scan_header no_meta (firstn 15 block).

(** [re.sub(r'\..*$', '', bgc_id)] *)
Definition clean_bgc_id (id : str) : str := re_sub re_dot_suffix repl_empty id.

Definition bgc_id_clean (m : Meta) : option str :=
  if truthy (bgc_id m)
  then option_map clean_bgc_id (bgc_id m)
  else None.

(** *** [parse_file], step 2: the table of blast hits of a block *)

(** [block[hits_start:]], where [hits_start] follows the first line that
    starts with the header; [None] when the block has no such line. *)
Fixpoint after_hits_header (block : list str) : option (list str) :=
  match block with
  | [] => None
  | ln :: rest =>
      if startswith (strip ln) (lit "Table of Blast hits")
      then Some rest
      else after_hits_header rest
  end.

Definition ends_hits_table (ln : str) : bool :=
  is_empty (strip ln)
  || startswith (strip ln) (lit ">>")
  || matched re_ord_bgc (strip ln).

(** The body of the loop for a line that does not end the table:
    [len(parts) >= 6] is the first pattern, [len(parts_ws) >= 6] the
    second. *)
Definition hit_row_of_line (id : option str) (m : Meta) (ln : str)
  : option H.row :=
  match split_on TAB ln with
  | p0 :: p1 :: p2 :: p3 :: p4 :: p5 :: _ =>
      Some (H.mk id (source_name m) (bgc_type m) (proteins_with_hits m)
                 (cum_score m) (normalize_gene_id p0) (strip p1) (strip p2)
                 (strip p3) (strip p4) (strip p5))
  | _ =>
      match split_ws ln with
      | w0 :: w1 :: w2 :: w3 :: w4 :: w5 :: _ =>
          Some (H.mk id (source_name m) (bgc_type m) (proteins_with_hits m)
                     (cum_score m) (normalize_gene_id w0) w1 w2 w3 w4 w5)
      | _ => None
      end
  end.

Fixpoint hit_rows (id : option str) (m : Meta) (lines : list str)
  : list H.row :=
  match lines with
  | [] => []
  | ln :: rest =>
      if ends_hits_table ln then []
      else match hit_row_of_line id m ln with
           | Some r => r :: hit_rows id m rest
           | None => hit_rows id m rest
           end
  end.

(** The rows one block appends to [hits_rows]. *)
Definition parse_block (block : list str) : list H.row :=
  let m := block_metadata block in
  match after_hits_header block with
  | None => []
  | Some table => hit_rows (bgc_id_clean m) m table
  end.

(** *** [parse_file] on the lines of the report *)

Definition parse_file (lines : list str) : list Q.row * list H.row :=
  let query_df := find_query_block lines in
  let hits_rows := flat_map parse_block (blocks lines) in
  (normalize_query_col query_df, normalize_hits_col hits_rows).

(** [parse_file] on the text of the report. *)
Definition parse_text (text : str) : list Q.row * list H.row :=
  parse_file (splitlines text).

(** *** [process_sample]: the body of the loop over the report files *)

(** [re.sub(r'.*?(_c\d+|_C\d+|_c\D*\d+).*', r'\1', fname)] *)
Definition region_of (fname : str) : str :=
  re_sub re_region repl_group1 fname.

Definition region_clean (fname : str) : str :=
  let region := region_of fname in
  if is_empty region then [] else lstrip_chars (lit "_") region.

(** [df.drop_duplicates(subset=["query_gene"])]: the first row of each key
    is kept; [seen] holds the keys met so far. *)
Fixpoint drop_duplicates_from (seen : list str) (df : list Q.row)
  : list Q.row :=
  match df with
  | [] => []
  | r :: rest =>
      if existsb (str_eqb (Q.query_gene r)) seen
      then drop_duplicates_from seen rest
      else r :: drop_duplicates_from (Q.query_gene r :: seen) rest
  end.

Definition drop_duplicates (df : list Q.row) : list Q.row :=
  drop_duplicates_from [] df.

Definition query_sub (query_df : list Q.row) : list Q.row :=
  match query_df with
  | [] => []
  | _ => drop_duplicates query_df
  end.

(** [pd.merge(hits_df, query_sub, on="query_gene", how="left",
    indicator=True)]: the hit rows in order, each once per query row of its
    key, or once with missing query columns when there is none. *)
Definition merge_row (region : str) (h : H.row) (q : Q.row) : M.row :=
  M.mk h region (Some (Q.start q)) (Some (Q.stop q)) (Some (Q.strand q))
       (Q.annotation q) M.both.

Definition unmatched_row (region : str) (h : H.row) : M.row :=
  M.mk h region None None None None M.left_only.

Definition merge_left (region : str) (hits_df : list H.row)
           (right : list Q.row) : list M.row :=
  flat_map
    (fun h =>
       match filter (fun q => str_eqb (Q.query_gene q) (H.query_gene h))
                    right with
       | [] => [unmatched_row region h]
       | qs => map (merge_row region h) qs
       end)
    hits_df.

(** The query rows that have the key of a hit row. *)
Definition matches_of (right : list Q.row) (h : H.row) : list Q.row :=
  filter (fun q => str_eqb (Q.query_gene q) (H.query_gene h)) right.

Definition is_left_only (r : M.row) : bool :=
  match M._merge r with M.left_only => true | M.both => false end.

(** The table [merged] that [process_sample] builds for one report. *)
Definition merged_of (fname : str) (query_df : list Q.row)
           (hits_df : list H.row) : list M.row :=
  merge_left (region_clean fname)
             (normalize_hits_col hits_df)
             (normalize_query_col (query_sub query_df)).

(** *** What [to_csv] writes *)

Definition cell := option str.

Record table : Type := mkTable {
  columns : list str;
  rows : list (list cell)
}.

Definition merged_columns : list str :=
  map lit
    ["BCG_identifier"; "BCG_name"; "BCG_type"; "proteins_with_blast_hits";
     "cum_BLAST_Score"; "query_gene"; "subject_gene"; "pct_identity";
     "blast_score"; "pct_coverage"; "evalue"; "region";
     "start"; "stop"; "strand"; "annotation"; "_merge"]%string.

Definition indicator_cell (i : M.indicator) : cell :=
  match i with
  | M.left_only => Some (lit "left_only")
  | M.both => Some (lit "both")
  end.

Definition cells_of (r : M.row) : list cell :=
  let h := M.hit r in
  [H.BCG_identifier h; H.BCG_name h; H.BCG_type h;
   H.proteins_with_blast_hits h; H.cum_BLAST_Score h;
   Some (H.query_gene h); Some (H.subject_gene h); Some (H.pct_identity h);
   Some (H.blast_score h); Some (H.pct_coverage h); Some (H.evalue h);
   Some (M.region r);
   M.start r; M.stop r; M.strand r; M.annotation r;
   indicator_cell (M._merge r)].

(** The data frame [merged] (and any selection of its rows) as a table. *)
Definition frame (df : list M.row) : table :=
  mkTable merged_columns (map cells_of df).

(** Position of a column name. *)
Fixpoint column_index (name : str) (cols : list str) : option nat :=
  match cols with
  | [] => None
  | c :: rest =>
      if str_eqb c name then Some 0
      else option_map S (column_index name rest)
  end.

Fixpoint remove_nth (A : Type) (i : nat) (l : list A) : list A :=
  match l, i with
  | [], _ => []
  | _ :: t, 0 => t
  | x :: t, S j => x :: remove_nth j t
  end.

(** [df.drop(columns=[name])] for a column that is present. *)
Definition drop_column (name : str) (t : table) : table :=
  match column_index name (columns t) with
  | Some i => mkTable (remove_nth i (columns t)) (map (remove_nth i) (rows t))
  | None => t
  end.

(** The files one report adds to the sample's output directory, as
    (file name, table written), in the order they are written. *)
Definition write_report (fname : str) (query_df : list Q.row)
           (hits_df : list H.row) : list (str * table) :=
  match hits_df with
  | [] => []
  | _ =>
      let merged := merged_of fname query_df hits_df in
      let unmatched := filter is_left_only merged in
      (match unmatched with
       | [] => []
       | _ => [(fname ++ lit ".unmatched_rows.csv", frame unmatched)]
       end)
      ++ [(fname ++ lit ".results.tsv",
           drop_column (lit "_merge") (frame merged))]
  end.

Definition process_report (fname : str) (lines : list str)
  : list (str * table) :=
  let (query_df, hits_df) := parse_file lines in
  write_report fname query_df hits_df.

(** *** Region tags in a file name

    The three alternatives of the region pattern, as sets of strings, and
    the file names that contain one of them. *)
Definition nonempty_all (p : ascii -> bool) (w : str) : Prop :=
  w <> [] /\ forallb p w = true.

(** [_c\d+] *)
Definition tag_c_digits (w : str) : Prop :=
  exists ds, nonempty_all cls_digit ds /\ w = lit "_c" ++ ds.
(** [_C\d+] *)
Definition tag_C_digits (w : str) : Prop :=
  exists ds, nonempty_all cls_digit ds /\ w = lit "_C" ++ ds.
(** [_c\D*\d+] *)
Definition tag_c_nondigits_digits (w : str) : Prop :=
  exists nd ds, forallb cls_nondigit nd = true /\ nonempty_all cls_digit ds
                /\ w = lit "_c" ++ nd ++ ds.

Definition contains_region_tag (fname : str) : Prop :=
  exists pre w post,
    fname = pre ++ w ++ post
    /\ (tag_c_digits w \/ tag_C_digits w \/ tag_c_nondigits_digits w).

(** A decision procedure for [contains_region_tag], by direct scanning. *)
Definition tag_starts_here (s : str) : bool :=
  match s with
  | "_"%char :: "c"%char :: t =>
      match dropWhile cls_nondigit t with
      | [] => false
      | _ :: _ => true
      end
  | "_"%char :: "C"%char :: d :: _ => cls_digit d
  | _ => false
  end.

Fixpoint scan_region_tag (s : str) : bool :=
  tag_starts_here s
  || match s with
     | [] => false
     | _ :: t => scan_region_tag t
     end.

(** *** Shapes of gene ids *)

Definition is_quote (c : ascii) : bool := chr_eqb c DQUOTE || chr_eqb c SQUOTE.

(** No character of [s] is in the class [p]. *)
Definition free_of (p : ascii -> bool) (s : str) : Prop :=
  forall c, In c s -> p c = false.

(** [s] neither starts nor ends with a character of [p]. *)
Definition no_leading (p : ascii -> bool) (s : str) : Prop :=
  forall c t, s = c :: t -> p c = false.
Definition no_trailing (p : ascii -> bool) (s : str) : Prop :=
  forall w c, s = w ++ [c] -> p c = false.

Definition not_dot (c : ascii) : bool := negb (cls_is "." c).

(** The characters [rstrip(' ,;:')] removes. *)
Definition is_trailing_punct (c : ascii) : bool := mem (lit " ,;:") c.

(** The only whitespace in [s] is space, CR, LF and TAB. *)
Definition plain_whitespace (s : str) : Prop :=
  forall c, In c s -> isspace c = true -> c = SPACE \/ cls_crlftab c = true.

(** *** Sample inputs *)

(** [  geneA_1<TAB>,<LF>] *)
Definition sample_gene_raw : str :=
  lit "  geneA_1" ++ [TAB; ","%char; LF].

(** A gene id written between double quotes with a space after the opening
    quote. *)
Definition sample_gene_quoted : str :=
  [DQUOTE] ++ lit " geneA" ++ [DQUOTE].

(** The shape every extracted identifier has. *)
Definition id_shape (o : option str) : Prop :=
  forall id, o = Some id -> id <> [] /\ forallb cls_id_tail id = true.

(** A block whose header lines all occur twice. *)
Definition sample_block_twice : list str :=
  map lit
    [">>";
     "1. BGC0000001.1";
     "Source: first";
     "Type: NRPS";
     "Number of proteins with BLAST hits to this cluster: 3";
     "Cumulative BLAST score: 100";
     "2. BGC0000002.1";
     "Source: second";
     "Type: PKS";
     "Number of proteins with BLAST hits to this cluster: 4";
     "Cumulative BLAST score: 200"]%string.

(** *** Shapes of a segmentation *)

(** Each index is smaller than the next. *)
Fixpoint increasing (idxs : list nat) : Prop :=
  match idxs with
  | [] => True
  | i :: rest =>
      match rest with [] => True | j :: _ => i < j end /\ increasing rest
  end.

(** Spans that follow one another without gap or overlap up to line [n]:
    each is non-empty and ends where the next starts, the last at [n]. *)
Fixpoint chained (sp : list (nat * nat)) (n : nat) : Prop :=
  match sp with
  | [] => True
  | (s, e) :: rest =>
      s < e
      /\ e = match rest with [] => n | (s', _) :: _ => s' end
      /\ chained rest n
  end.

(** *** Sample reports *)

(** A line of tab-separated fields. *)
Definition tsv (fields : list string) : str := join [TAB] (map lit fields).

Definition hits_header : str :=
  lit "Table of Blast hits (query gene, subject gene, %identity, blast score, %coverage, e-value):".

(** One query gene, one block opened by [>>], two hits of which the second
    names a gene absent from the query table. *)
Definition sample_report : list str :=
  [ query_header;
    tsv ["geneA"; "100"; "200"; "+"; "kinase"]%string;
    [];
    lit "Significant hits:";
    lit "1. BGC0001089.5";
    [];
    lit "Details:";
    [];
    lit ">>";
    lit "1. BGC0001089.5";
    lit "Source: bacillaene";
    lit "Type: NRPS";
    lit "Number of proteins with BLAST hits to this cluster: 2";
    lit "Cumulative BLAST score: 600";
    [];
    hits_header;
    tsv ["geneA"; "subjB"; "95.0"; "300"; "88.0"; "1e-20"]%string;
    tsv ["geneX"; "subjC"; "90.0"; "300"; "80.0"; "1e-10"]%string;
    [] ].

(** The same hits without any [>>] line: the blocks start at the numbered
    identifier lines. *)
Definition sample_report_numbered : list str :=
  [ lit "1. BGC0001089.5";
    lit "Source: bacillaene";
    hits_header;
    tsv ["geneA"; "subjB"; "95.0"; "300"; "88.0"; "1e-20"]%string;
    [];
    lit "2. BGC0000002.1";
    lit "Source: other";
    hits_header;
    tsv ["geneX"; "subjC"; "90.0"; "300"; "80.0"; "1e-10"]%string ].

(** A report without any block marker. *)
Definition sample_report_unmarked : list str :=
  [ lit "ClusterBlast scores for contig_1";
    [];
    hits_header;
    tsv ["geneA"; "subjB"; "95.0"; "300"; "88.0"; "1e-20"]%string ].

(** *** Sample lines *)

(** Seven tab-separated fields, the first two with blanks inside. *)
Definition sample_hit_line_tabs : str :=
  tsv ["gene A"; " subj B "; "95.0"; "300"; "88.0"; "1e-20"; "extra"]%string.

(** Eight blank-separated tokens and no tab. *)
Definition sample_hit_line_blanks : str :=
  lit "geneA  subjB 95.0 300 88.0 1e-20 two more".

(** Seven blank-separated tokens and no tab. *)
Definition sample_query_line_blanks : str :=
  lit "geneA 100 200 + serine protein  kinase".

(** *** A report with a layered gene id

    The second gene of the query table is [a] followed four times by the
    unit separator U+001F and a comma, without the last comma.  U+001F is
    whitespace for [strip] and no line boundary for [splitlines]. *)
Definition sample_gene_layered : str :=
  lit "a" ++ [US; ","%char; US; ","%char; US; ","%char; US].

Definition sample_report_layered : list str :=
  [ query_header;
    tsv ["a"; "1"; "2"; "+"; "kinase"]%string;
    join [TAB] [sample_gene_layered; lit "3"; lit "4"; lit "-"; lit "lyase"];
    [];
    lit ">>";
    lit "1. BGC0001089.5";
    lit "Source: bacillaene";
    lit "Type: NRPS";
    hits_header;
    tsv ["a"; "subjB"; "95.0"; "300"; "88.0"; "1e-20"]%string ].

(** The two data frames [parse_file] returns for [sample_report]. *)
Definition sample_query_df : list Q.row :=
  [Q.mk (lit "geneA") (lit "100") (lit "200") (lit "+") (Some (lit "kinase"))].

Definition sample_hits_df : list H.row :=
  [H.mk (Some (lit "BGC0001089")) (Some (lit "bacillaene"))
        (Some (lit "NRPS")) (Some (lit "2")) (Some (lit "600"))
        (lit "geneA") (lit "subjB") (lit "95.0") (lit "300") (lit "88.0")
        (lit "1e-20");
   H.mk (Some (lit "BGC0001089")) (Some (lit "bacillaene"))
        (Some (lit "NRPS")) (Some (lit "2")) (Some (lit "600"))
        (lit "geneX") (lit "subjC") (lit "90.0") (lit "300") (lit "80.0")
        (lit "1e-10")].

(** The text of the report with the layered gene id: its lines, each ended
    by a line feed. *)
Definition sample_text_layered : str :=
  flat_map (fun ln => ln ++ [LF]) sample_report_layered.

(** *** [process_sample]: the loop over the report files

    The directory listing is taken as given: [txt_files] are the reports of
    the sample directory in the sorted order of [glob], each with its base
    name and its lines; [sample_name] is the base name of the sample
    directory.  A written file is recorded with the directory it goes to. *)
Inductive out_path : Type :=
| InSampleDir (name : str)    (* out_dir/sample_name/name *)
| InOutDir (name : str).      (* out_dir/name *)

(** [pd.concat(merged_rows, sort=False).reset_index(drop=True)] for frames
    that all have the same columns, as the frames appended to
    [merged_rows] do: the rows of the frames one after the other. *)
Definition concat_frames (frames : list table) : table :=
  mkTable (match frames with [] => [] | t :: _ => columns t end)
          (flat_map rows frames).

(** The loop: what it writes into the sample directory, and the frames it
    appends to [merged_rows]. *)
Fixpoint sample_loop (txt_files : list (str * list str))
  : list (str * table) * list table :=
  match txt_files with
  | [] => ([], [])
  | (fname, lines) :: rest =>
      let (query_df, hits_df) := parse_file lines in
      let (written, merged_rows) := sample_loop rest in
      match hits_df with
      | [] => (written, merged_rows)
      | _ =>
          (write_report fname query_df hits_df ++ written,
           drop_column (lit "_merge")
                       (frame (merged_of fname query_df hits_df))
           :: merged_rows)
      end
  end.

(** [process_sample] for a sample directory whose report subdirectory
    exists. *)
Definition process_sample (sample_name : str)
           (txt_files : list (str * list str)) : list (out_path * table) :=
  match txt_files with
  | [] => []
  | _ =>
      let (written, merged_rows) := sample_loop txt_files in
      map (fun f => (InSampleDir (fst f), snd f)) written
      ++ match merged_rows with
         | [] => []
         | _ => [(InOutDir (sample_name ++ lit ".merged_results.tsv"),
                  concat_frames merged_rows)]
         end
  end.

(** The rows of the results table of one report. *)
Definition result_rows (f : str * list str) : list (list cell) :=
  map (fun r => firstn 16 (cells_of r))
      (merged_of (fst f) (fst (parse_file (snd f))) (snd (parse_file (snd f)))).

(** *** More shapes and sample inputs *)

(** [s] begins with a region tag. *)
Definition starts_with_tag (s : str) : Prop :=
  exists w post,
    s = w ++ post
    /\ (tag_c_digits w \/ tag_C_digits w \/ tag_c_nondigits_digits w).

(** The non-empty suffixes of a string, longest first. *)
Fixpoint suffixes (s : str) : list str :=
  match s with
  | [] => []
  | _ :: t => s :: suffixes t
  end.

(** All the characters of a field are whitespace. *)
Definition blank (s : str) : bool := forallb isspace s.

(** A query line whose fifth field is two spaces, and one whose fifth field
    is empty. *)
Definition sample_query_line_blank_annotation : str :=
  tsv ["geneA"; "100"; "200"; "+"; "  "; "extra"]%string.
Definition sample_query_line_no_annotation : str :=
  tsv ["geneA"; "100"; "200"; "+"; ""; "extra"]%string.

(** A line that neither parse accepts. *)
Definition sample_noise_line : str := lit "-- no data --".

(** A query table followed by the lines that end it. *)
Definition sample_query_table : list str :=
  [ tsv ["geneA"; "100"; "200"; "+"; "kinase"]%string;
    sample_noise_line;
    lit "geneB 300 400 - ABC transporter" ].

(** A block with two tables of hits, the first ended by an empty line. *)
Definition sample_block_two_tables : list str :=
  [ lit ">>";
    lit "1. BGC0001089.5";
    lit "Source: bacillaene";
    hits_header;
    tsv ["geneA"; "subjB"; "95.0"; "300"; "88.0"; "1e-20"]%string;
    [];
    hits_header;
    tsv ["geneX"; "subjC"; "90.0"; "300"; "80.0"; "1e-10"]%string ].

(** A block whose only identifier line has a dash right after [BGC], which
    the first identifier pattern rejects. *)
Definition sample_block_dashed : list str :=
  map lit [">>"; "Type: NRPS"; "1. BGC-77.2"; "2. BGC-88.1"]%string.

(** Two reports of one sample, the first without any hit. *)
Definition sample_txt_files : list (str * list str) :=
  [ (lit "contig_1_c1.txt", sample_report_unmarked);
    (lit "contig_1_c2.txt", sample_report);
    (lit "contig_1_c3.txt", sample_report_numbered) ].

(** A query table in which the gene of the first row comes back in the
    third. *)
Definition sample_query_dups : list Q.row :=
  [Q.mk (lit "geneA") (lit "100") (lit "200") (lit "+") (Some (lit "kinase"));
   Q.mk (lit "geneB") (lit "300") (lit "400") (lit "-") None;
   Q.mk (lit "geneA") (lit "500") (lit "600") (lit "+") (Some (lit "lyase"))].

(** The merged row of the second hit of [sample_hits_df], whose gene is
    not in the query table. *)
Definition sample_unmatched_row : M.row :=
  unmatched_row (lit "c1")
    (H.mk (Some (lit "BGC0001089")) (Some (lit "bacillaene"))
          (Some (lit "NRPS")) (Some (lit "2")) (Some (lit "600"))
          (lit "geneX") (lit "subjC") (lit "90.0") (lit "300") (lit "80.0")
          (lit "1e-10")).

(** The first hit row of [sample_report]. *)
Definition sample_hit_row : H.row :=
  H.mk (Some (lit "BGC0001089")) (Some (lit "bacillaene"))
       (Some (lit "NRPS")) (Some (lit "2")) (Some (lit "600"))
       (lit "geneA") (lit "subjB") (lit "95.0") (lit "300") (lit "88.0")
       (lit "1e-20").

(** The hit row of the second block of [sample_report_numbered]. *)
Definition sample_hit_row_second : H.row :=
  H.mk (Some (lit "BGC0000002")) (Some (lit "other")) None None None
       (lit "geneX") (lit "subjC") (lit "90.0") (lit "300") (lit "80.0")
       (lit "1e-10").

(** A gene id without CR, LF, TAB and quotes that does not end in a
    space, comma, semicolon or colon. *)
Definition key_shape (k : str) : Prop :=
  free_of cls_crlftab k /\ free_of is_quote k
  /\ no_trailing is_trailing_punct k.

(** The report yields at least one hit row. *)
Definition has_hits (f : str * list str) : bool :=
  match snd (parse_file (snd f)) with [] => false | _ :: _ => true end.

(** The results table of one report, as appended to [merged_rows]. *)
Definition results_frame (f : str * list str) : table :=
  drop_column (lit "_merge")
    (frame (merged_of (fst f) (fst (parse_file (snd f)))
                      (snd (parse_file (snd f))))).

(** [post] does not begin with a character of the class [p]. *)
Definition stops (p : ascii -> bool) (post : str) : Prop :=
  match post with [] => True | c :: _ => p c = false end.

(** The text of a report whose lines are each ended by LF, and by CR LF. *)
Definition unix_text (lines : list str) : str :=
  flat_map (fun ln => ln ++ [LF]) lines.
Definition dos_text (lines : list str) : str :=
  flat_map (fun ln => ln ++ [CR; LF]) lines.

(** A cell without whitespace at either end and without a tab. *)
Definition clean_cell (s : str) : Prop :=
  no_leading isspace s /\ no_trailing isspace s /\ free_of (cls_is TAB) s.

(** The hit row [r] has the cleaned identifier [id] and the four other
    metadata values of [m] in its first five columns. *)
Definition carries (id : option str) (m : Meta) (r : H.row) : Prop :=
  H.BCG_identifier r = id
  /\ H.BCG_name r = source_name m
  /\ H.BCG_type r = bgc_type m
  /\ H.proteins_with_blast_hits r = proteins_with_hits m
  /\ H.cum_BLAST_Score r = cum_score m.

End ClusterBlast.

(* ================================================================== *)
(** ** Facts about the string operations *)

Module PyStrFacts.
Import PyStr.

Lemma chr_eqb_eq (a b : ascii) : chr_eqb a b = true <-> a = b.
Proof. apply Ascii.eqb_eq. Qed.

Lemma chr_eqb_refl (a : ascii) : chr_eqb a a = true.
Proof. apply Ascii.eqb_refl. Qed.

Lemma str_eqb_eq (a b : str) : str_eqb a b = true <-> a = b.
Proof.
  unfold str_eqb. destruct (list_eq_dec ascii_dec a b); split; congruence.
Qed.

Lemma str_eqb_refl (a : str) : str_eqb a a = true.
Proof. now apply str_eqb_eq. Qed.

Section While.
Variable p : ascii -> bool.

Lemma takeWhile_dropWhile (s : str) : takeWhile p s ++ dropWhile p s = s.
Proof.
  induction s as [|c t IH]; simpl; [reflexivity|].
  destruct (p c); simpl; [now rewrite IH | reflexivity].
Qed.

Lemma takeWhile_all (s : str) : forallb p (takeWhile p s) = true.
Proof.
  induction s as [|c t IH]; simpl; [reflexivity|].
  destruct (p c) eqn:E; simpl; [now rewrite E | reflexivity].
Qed.

Lemma dropWhile_head (s t : str) (c : ascii) :
  dropWhile p s = c :: t -> p c = false.
Proof.
  induction s as [|a s IH]; simpl; [discriminate|].
  destruct (p a) eqn:E; [exact IH | intros H; injection H as -> _; exact E].
Qed.

Lemma dropWhile_all (w s : str) :
  forallb p w = true -> dropWhile p (w ++ s) = dropWhile p s.
Proof.
  induction w as [|c w IH]; simpl; [reflexivity|].
  intros H. apply andb_true_iff in H as [-> H]. auto.
Qed.

Lemma dropWhile_stop (c : ascii) (s : str) :
  p c = false -> dropWhile p (c :: s) = c :: s.
Proof. intros H. simpl. now rewrite H. Qed.

Lemma dropWhile_length (s : str) : length (dropWhile p s) <= length s.
Proof.
  induction s as [|c t IH]; simpl; [lia|]. destruct (p c); simpl; lia.
Qed.

Lemma skipn_dropWhile (s : str) :
  skipn (length s - length (dropWhile p s)) s = dropWhile p s.
Proof.
  induction s as [|c t IH]; [reflexivity|].
  simpl dropWhile. destruct (p c).
  - pose proof (dropWhile_length t).
    replace (length (c :: t) - length (dropWhile p t))
      with (S (length t - length (dropWhile p t))) by (cbn [length]; lia).
    exact IH.
  - now rewrite Nat.sub_diag.
Qed.

Lemma dropWhileEnd_snoc (s : str) (c : ascii) :
  dropWhileEnd p (s ++ [c])
  = if p c then dropWhileEnd p s else s ++ [c].
Proof.
  unfold dropWhileEnd. rewrite rev_app_distr. simpl.
  destruct (p c); [reflexivity|].
  simpl. now rewrite rev_involutive.
Qed.

Lemma dropWhileEnd_nil : dropWhileEnd p [] = [].
Proof. reflexivity. Qed.

(** [dropWhileEnd] cuts a suffix made of [p] characters. *)
Lemma dropWhileEnd_split (s : str) :
  exists w, s = dropWhileEnd p s ++ w /\ forallb p w = true.
Proof.
  unfold dropWhileEnd.
  exists (rev (takeWhile p (rev s))). split.
  - rewrite <- rev_app_distr, takeWhile_dropWhile. now rewrite rev_involutive.
  - rewrite forallb_forall. intros x Hx. apply in_rev in Hx.
    pose proof (takeWhile_all (rev s)) as H.
    rewrite forallb_forall in H. auto.
Qed.

Lemma dropWhileEnd_last (s w : str) (c : ascii) :
  dropWhileEnd p s = w ++ [c] -> p c = false.
Proof.
  unfold dropWhileEnd. intros H.
  apply (f_equal (@rev ascii)) in H.
  rewrite rev_involutive, rev_app_distr in H. simpl in H.
  eapply dropWhile_head; eauto.
Qed.

Lemma dropWhileEnd_In (s : str) (c : ascii) :
  In c (dropWhileEnd p s) -> In c s.
Proof.
  destruct (dropWhileEnd_split s) as [w [E _]].
  intros H. rewrite E. apply in_or_app. now left.
Qed.

(** A string that does not end with a [p] character is left alone. *)
Lemma dropWhileEnd_id (s : str) :
  (forall w c, s = w ++ [c] -> p c = false) -> dropWhileEnd p s = s.
Proof.
  induction s as [|c w _] using rev_ind; [reflexivity|].
  intros H. rewrite dropWhileEnd_snoc, (H w c eq_refl). reflexivity.
Qed.

Lemma dropWhileEnd_head (s : str) (c : ascii) :
  dropWhileEnd p (c :: s) = [] \/ exists t, dropWhileEnd p (c :: s) = c :: t.
Proof.
  destruct (dropWhileEnd_split (c :: s)) as [w [E _]].
  destruct (dropWhileEnd p (c :: s)) as [|a t']; [now left|].
  right. simpl in E. injection E as <- _. now exists t'.
Qed.
End While.

Lemma filter_dropWhile (p : ascii -> bool) (s : str) :
  filter (fun c => negb (p c)) (dropWhile p s)
  = filter (fun c => negb (p c)) s.
Proof.
  induction s as [|c t IH]; simpl; [reflexivity|].
  destruct (p c) eqn:E; simpl; rewrite ?E; simpl; auto.
Qed.

Lemma filter_id (A : Type) (f : A -> bool) (l : list A) :
  (forall x, In x l -> f x = true) -> filter f l = l.
Proof.
  induction l as [|a l IH]; simpl; intros H; [reflexivity|].
  rewrite (H a (or_introl eq_refl)). f_equal. auto.
Qed.

(** A property of every line, checked by computation. *)
Lemma all_lines_check (p : str -> bool) (lines : list str) :
  forallb p lines = true -> forall ln, In ln lines -> p ln = true.
Proof. intros H. now apply forallb_forall. Qed.

Lemma none_lines_check (p : str -> bool) (lines : list str) :
  forallb (fun l => negb (p l)) lines = true ->
  forall ln, In ln lines -> p ln = false.
Proof.
  intros H ln Hin. rewrite forallb_forall in H.
  now apply negb_true_iff, H.
Qed.

End PyStrFacts.

(* ================================================================== *)
(** ** Facts about the pattern matcher *)

Module ReFacts.
Import PyStr Re PyStrFacts.

Section Sound.
Variable R : Type.
Variable n : nat.

Lemma star_greedy_sound (p : ascii -> bool) (s : str)
      (k : str -> option R) (x : R) :
  star_greedy p s k = Some x ->
  exists w s', s = w ++ s' /\ forallb p w = true /\ k s' = Some x.
Proof.
  induction s as [|c t IH]; simpl; intros H.
  - now exists [], [].
  - destruct (p c) eqn:Hc.
    + destruct (star_greedy p t k) as [y|] eqn:Ht.
      * injection H as ->.
        destruct (IH eq_refl) as (w & s' & -> & Hw & Hk).
        exists (c :: w), s'. simpl. now rewrite Hc.
      * now exists [], (c :: t).
    + now exists [], (c :: t).
Qed.

Lemma star_lazy_sound (p : ascii -> bool) (s : str)
      (k : str -> option R) (x : R) :
  star_lazy p s k = Some x ->
  exists w s', s = w ++ s' /\ forallb p w = true /\ k s' = Some x.
Proof.
  induction s as [|c t IH]; simpl; intros H.
  - destruct (k []) eqn:Hk; [|discriminate].
    injection H as ->. now exists [], [].
  - destruct (k (c :: t)) eqn:Hk.
    + injection H as ->. now exists [], (c :: t).
    + destruct (p c) eqn:Hc; [|discriminate].
      destruct (IH H) as (w & s' & -> & Hw & Hk').
      exists (c :: w), s'. simpl. now rewrite Hc.
Qed.

(** Whatever the matcher finds is a match of the pattern. *)
Lemma run_sound (r : regex) :
  forall (s : str) (g : option str) (k : str -> option str -> option R)
         (x : R),
    run n r s g k = Some x ->
    exists s' g', matches n r s g s' g' /\ k s' g' = Some x.
Proof.
  induction r as [|p|r1 IH1 r2 IH2|r1 IH1 r2 IH2|p|p|r IH| |];
    intros s g k x H; simpl in H.
  - exists s, g. split; [constructor | exact H].
  - destruct s as [|c t]; [discriminate|].
    destruct (p c) eqn:Hc; [|discriminate].
    exists t, g. split; [now constructor | exact H].
  - apply IH1 in H as (s1 & g1 & M1 & H).
    apply IH2 in H as (s2 & g2 & M2 & H).
    exists s2, g2. split; [econstructor; eauto | exact H].
  - destruct (run n r1 s g k) as [y|] eqn:H1.
    + injection H as ->. apply IH1 in H1 as (s' & g' & M & Hk).
      exists s', g'. split; [now apply M_AltL | exact Hk].
    + apply IH2 in H as (s' & g' & M & Hk).
      exists s', g'. split; [now apply M_AltR | exact Hk].
  - apply star_greedy_sound in H as (w & s' & -> & Hw & Hk).
    exists s', g. split; [now constructor | exact Hk].
  - apply star_lazy_sound in H as (w & s' & -> & Hw & Hk).
    exists s', g. split; [now constructor | exact Hk].
  - apply IH in H as (s' & g' & M & Hk).
    eexists s', _. split; [econstructor; eauto | exact Hk].
  - destruct (length s =? n) eqn:E; [|discriminate].
    apply Nat.eqb_eq in E.
    exists s, g. split; [now constructor | exact H].
  - exists s, g. split.
    + constructor. destruct s as [|c [|? ?]]; [now left| |discriminate].
      destruct (chr_eqb c LF) eqn:E; [|discriminate].
      apply chr_eqb_eq in E. subst. now right.
    + destruct s as [|c [|? ?]]; [exact H| |discriminate].
      destruct (chr_eqb c LF); [exact H | discriminate].
Qed.
End Sound.

Lemma match_at_sound (n : nat) (r : regex) (s s' : str) (g' : option str) :
  match_at n r s = Some (s', g') -> matches n r s None s' g'.
Proof.
  unfold match_at. intros H.
  apply run_sound in H as (s1 & g1 & M & E). now injection E as <- <-.
Qed.

(** A match consumes a prefix of its input. *)
Lemma matches_suffix (n : nat) (r : regex) (s s' : str) (g g' : option str) :
  matches n r s g s' g' -> exists w, s = w ++ s'.
Proof.
  induction 1;
    try (now exists []); try (now exists w); try assumption.
  - now exists [c].
  - destruct IHmatches1 as [w1 ->], IHmatches2 as [w2 ->].
    exists (w1 ++ w2). now rewrite app_assoc.
Qed.

Lemma matches_Str (n : nat) (lits : str) :
  forall s g s' g',
    matches n (Str lits) s g s' g' -> s = lits ++ s' /\ g' = g.
Proof.
  induction lits as [|c t IH]; simpl; intros s g s' g' H.
  - inversion H; subst. now split.
  - inversion H as [| |? ? ? ? s1 g1 ? ? H1 H2| | | | | | |]; subst.
    inversion H1; subst.
    match goal with E : chr_eqb _ _ = true |- _ => apply chr_eqb_eq in E; subst end.
    apply IH in H2 as [-> ->]. now split.
Qed.

Lemma matches_Plus (n : nat) (p : ascii -> bool) (s s' : str)
      (g g' : option str) :
  matches n (Plus p) s g s' g' ->
  exists c w, s = c :: w ++ s' /\ p c = true /\ forallb p w = true /\ g' = g.
Proof.
  unfold Plus. intros H.
  inversion H as [| |? ? ? ? s1 g1 ? ? H1 H2| | | | | | |]; subst.
  inversion H1; subst. inversion H2; subst.
  now exists c, w.
Qed.

Section Compute.
Variable R : Type.

(** Greedy repetition in front of a continuation that cannot fail takes
    the whole run. *)
Lemma star_greedy_total (p : ascii -> bool) (k : str -> option R)
      (f : str -> R) (s : str) :
  (forall t, k t = Some (f t)) ->
  star_greedy p s k = Some (f (dropWhile p s)).
Proof.
  intros Hk. induction s as [|c t IH]; simpl; [apply Hk|].
  destruct (p c); [now rewrite IH | apply Hk].
Qed.

(** Greedy repetition over a string made of [p] characters reaches the
    end whenever the continuation accepts there. *)
Lemma star_greedy_to_end (p : ascii -> bool) (k : str -> option R)
      (x : R) (s : str) :
  forallb p s = true -> k [] = Some x -> star_greedy p s k = Some x.
Proof.
  intros Hs Hk. induction s as [|c t IH]; simpl; [exact Hk|].
  simpl in Hs. apply andb_true_iff in Hs as [-> Ht].
  now rewrite (IH Ht).
Qed.
End Compute.

Section Sub.
Variable n : nat.
Variable r : regex.
Variable repl : option str -> str.

Lemma sub_from_unfold (s : str) :
  sub_from n r repl s 0
  = match match_at n r s with
    | Some (s', g) =>
        repl g ++
        match length s - length s' with
        | S k => match s with [] => [] | _ :: t => sub_from n r repl t k end
        | 0 =>
            match match_nonempty_at n r s with
            | Some (s'', g2) =>
                repl g2 ++
                match s with
                | [] => []
                | _ :: t =>
                    after_match (length s - length s'') (sub_from n r repl t)
                end
            | None =>
                match s with
                | [] => []
                | c :: t => c :: sub_from n r repl t 0
                end
            end
        end
    | None =>
        match s with
        | [] => []
        | c :: t => c :: sub_from n r repl t 0
        end
    end.
Proof. destruct s; reflexivity. Qed.

(** Passing over [k] characters is resuming after them. *)
Lemma sub_from_skip (s : str) :
  forall k, k <= length s ->
            sub_from n r repl s k = sub_from n r repl (skipn k s) 0.
Proof.
  induction s as [|c t IH]; intros [|k] Hk; try reflexivity.
  - simpl in Hk. lia.
  - simpl in Hk. simpl skipn. rewrite <- IH by lia. reflexivity.
Qed.

(** Where the pattern matches nowhere, the string is returned as is. *)
Lemma sub_from_nomatch (s : str) :
  (forall pre t, s = pre ++ t -> match_at n r t = None) ->
  sub_from n r repl s 0 = s.
Proof.
  induction s as [|c t IH]; intros H; rewrite sub_from_unfold.
  - now rewrite (H [] [] eq_refl).
  - rewrite (H [] (c :: t) eq_refl). f_equal. apply IH.
    intros pre u ->. apply (H (c :: pre) u). reflexivity.
Qed.
End Sub.

(** [re.sub] of [p+] by the empty string deletes the [p] characters. *)
Lemma sub_Plus_empty (n : nat) (p : ascii -> bool) (s : str) :
  sub_from n (Plus p) repl_empty s 0 = filter (fun c => negb (p c)) s.
Proof.
  remember (length s) as m eqn:Hm.
  revert s Hm. induction m as [m IH] using lt_wf_ind. intros s Hm.
  rewrite sub_from_unfold.
  destruct s as [|c t]; [reflexivity|].
  unfold match_at, Plus. simpl run.
  destruct (p c) eqn:Hc.
  - rewrite (star_greedy_total p _ (fun t => (t, @None str)))
      by reflexivity.
    pose proof (dropWhile_length p t) as Hl.
    replace (length (c :: t) - length (dropWhile p t))
      with (S (length t - length (dropWhile p t))) by (cbn [length]; lia).
    rewrite sub_from_skip by lia.
    rewrite skipn_dropWhile.
    rewrite (IH (length (dropWhile p t))); [|simpl in Hm; lia|reflexivity].
    simpl. rewrite Hc. simpl. apply filter_dropWhile.
  - simpl. rewrite Hc. simpl. f_equal.
    apply (IH (length t)); [simpl in Hm; lia | reflexivity].
Qed.

(** Inversion of [matches], one lemma per pattern constructor. *)
Section Inversion.
Variable n : nat.

Lemma matches_Cat_inv r1 r2 s g s2 g2 :
  matches n (Cat r1 r2) s g s2 g2 ->
  exists s1 g1, matches n r1 s g s1 g1 /\ matches n r2 s1 g1 s2 g2.
Proof. inversion 1; subst; eauto. Qed.

Lemma matches_Chr_inv p s g s' g' :
  matches n (Chr p) s g s' g' ->
  exists c, s = c :: s' /\ p c = true /\ g' = g.
Proof. inversion 1; subst; eauto. Qed.

Lemma matches_Alt_inv r1 r2 s g s' g' :
  matches n (Alt r1 r2) s g s' g' ->
  matches n r1 s g s' g' \/ matches n r2 s g s' g'.
Proof. inversion 1; subst; eauto. Qed.

Lemma matches_Star_inv p s g s' g' :
  matches n (Star p) s g s' g' ->
  exists w, s = w ++ s' /\ forallb p w = true /\ g' = g.
Proof. inversion 1; subst; eauto. Qed.

Lemma matches_LazyStar_inv p s g s' g' :
  matches n (LazyStar p) s g s' g' ->
  exists w, s = w ++ s' /\ forallb p w = true /\ g' = g.
Proof. inversion 1; subst; eauto. Qed.

Lemma matches_Bol_inv s g s' g' :
  matches n Bol s g s' g' -> s' = s /\ g' = g /\ length s = n.
Proof. inversion 1; subst; eauto. Qed.

(** Group 1 is the text its pattern consumed. *)
Lemma matches_Group_inv r s g s' g' :
  matches n (Group r) s g s' g' ->
  exists w g1, s = w ++ s' /\ matches n r s g s' g1 /\ g' = Some w.
Proof.
  inversion 1 as [| | | | | | |? ? ? ? g1 M| |]; subst.
  destruct (matches_suffix M) as [w ->].
  exists w, g1. repeat split; [exact M|].
  rewrite length_app, Nat.add_sub, firstn_app, Nat.sub_diag, firstn_all.
  simpl. now rewrite app_nil_r.
Qed.
End Inversion.

End ReFacts.

(* ================================================================== *)
(** ** Gene-id normalization *)

Module NormalizeFacts.
Import PyStr Re PyStrFacts ReFacts ClusterBlast.

(** [normalize_gene_id] as four list operations. *)
Lemma normalize_gene_id_eq (s : str) :
  normalize_gene_id s
  = rstrip_chars (lit " ,;:")
      (remove_char SQUOTE (remove_char DQUOTE (keep_not cls_crlftab (strip s)))).
Proof.
  unfold normalize_gene_id, re_sub, re_crlftab.
  now rewrite sub_Plus_empty.
Qed.

Lemma dropWhile_In (p : ascii -> bool) (s : str) (c : ascii) :
  In c (dropWhile p s) -> In c s.
Proof.
  rewrite <- (takeWhile_dropWhile p s) at 2. intros H.
  apply in_or_app. now right.
Qed.

Lemma strip_In (s : str) (c : ascii) : In c (strip s) -> In c s.
Proof.
  unfold strip, rstrip, lstrip. intros H.
  eapply dropWhile_In, dropWhileEnd_In, H.
Qed.

Lemma strip_no_leading (s : str) : no_leading isspace (strip s).
Proof.
  unfold strip, rstrip, lstrip. intros c t E.
  destruct (dropWhile isspace s) as [|a u] eqn:D.
  - discriminate.
  - destruct (dropWhileEnd_head isspace u a) as [E' | [t' E']];
      rewrite E' in E; [discriminate|].
    injection E as <- _. eapply dropWhile_head, D.
Qed.

Lemma strip_no_trailing (s : str) : no_trailing isspace (strip s).
Proof.
  unfold strip, rstrip. intros w c E. eapply dropWhileEnd_last, E.
Qed.

(** A string with clean ends is a fixed point of [strip]. *)
Lemma strip_id (s : str) :
  no_leading isspace s -> no_trailing isspace s -> strip s = s.
Proof.
  intros Hl Ht. unfold strip, rstrip, lstrip.
  assert (dropWhile isspace s = s) as ->.
  { destruct s as [|c t]; [reflexivity|].
    apply dropWhile_stop. now apply (Hl c t). }
  now apply dropWhileEnd_id.
Qed.

Lemma strip_idem (s : str) : strip (strip s) = strip s.
Proof. apply strip_id; [apply strip_no_leading | apply strip_no_trailing]. Qed.

Lemma keep_not_id (p : ascii -> bool) (s : str) :
  free_of p s -> keep_not p s = s.
Proof.
  intros H. apply filter_id. intros x Hx. now rewrite (H x Hx).
Qed.

Lemma remove_char_id (a : ascii) (s : str) :
  (forall c, In c s -> chr_eqb c a = false) -> remove_char a s = s.
Proof.
  intros H. apply filter_id. intros x Hx. now rewrite (H x Hx).
Qed.

Lemma is_quote_false (c : ascii) :
  is_quote c = false -> chr_eqb c DQUOTE = false /\ chr_eqb c SQUOTE = false.
Proof. unfold is_quote. apply orb_false_iff. Qed.

(** An id in normal form is returned unchanged. *)
Lemma normalize_fixed (s : str) :
  no_leading isspace s -> no_trailing isspace s ->
  free_of cls_crlftab s -> free_of is_quote s ->
  no_trailing is_trailing_punct s ->
  normalize_gene_id s = s.
Proof.
  intros Hl Ht Hc Hq Hp.
  rewrite normalize_gene_id_eq, strip_id, keep_not_id by assumption.
  rewrite (remove_char_id DQUOTE)
    by (intros c Hin; now apply (is_quote_false c (Hq c Hin))).
  rewrite (remove_char_id SQUOTE)
    by (intros c Hin; now apply (is_quote_false c (Hq c Hin))).
  unfold rstrip_chars. now apply dropWhileEnd_id.
Qed.

(** The characters of the result come from the input, none of them CR, LF,
    TAB or a quote. *)
Lemma normalize_In (s : str) (c : ascii) :
  In c (normalize_gene_id s) ->
  In c s /\ cls_crlftab c = false /\ is_quote c = false.
Proof.
  rewrite normalize_gene_id_eq. unfold rstrip_chars, remove_char, keep_not.
  intros H. apply dropWhileEnd_In in H.
  apply filter_In in H as [H Hs]. apply filter_In in H as [H Hd].
  apply filter_In in H as [H Hc]. apply strip_In in H.
  apply negb_true_iff in Hs, Hd, Hc.
  repeat split; try assumption. unfold is_quote. now rewrite Hs, Hd.
Qed.

Lemma normalize_no_trailing_punct (s : str) :
  no_trailing is_trailing_punct (normalize_gene_id s).
Proof.
  rewrite normalize_gene_id_eq. unfold rstrip_chars. intros w c E.
  eapply dropWhileEnd_last, E.
Qed.

Lemma filter_head (f : ascii -> bool) (c : ascii) (t : str) :
  f c = true -> filter f (c :: t) = c :: filter f t.
Proof. intros H. simpl. now rewrite H. Qed.

(** Without quotes in the input, the result keeps the first character of
    the stripped input, which is no whitespace. *)
Lemma normalize_no_leading (s : str) :
  free_of is_quote s -> no_leading isspace (normalize_gene_id s).
Proof.
  intros Hq. rewrite normalize_gene_id_eq.
  pose proof (strip_no_leading s) as Hl.
  assert (Hin : forall c, In c (strip s) -> In c s) by (intros; now apply strip_In).
  destruct (strip s) as [|a u]; [intros c t E; discriminate|].
  assert (Ha : isspace a = false) by now apply (Hl a u).
  assert (Hcr : cls_crlftab a = false).
  { destruct (cls_crlftab a) eqn:E; [|reflexivity].
    unfold cls_crlftab in E.
    repeat (apply orb_true_iff in E as [E|E]);
      apply chr_eqb_eq in E; subst a; discriminate. }
  destruct (is_quote_false a (Hq a (Hin a (or_introl eq_refl)))) as [Hd Hs].
  unfold keep_not, remove_char.
  rewrite filter_head by now rewrite Hcr.
  rewrite filter_head by now rewrite Hd.
  rewrite filter_head by now rewrite Hs.
  unfold rstrip_chars. intros c t E.
  match type of E with dropWhileEnd ?p (a :: ?v) = _ =>
    destruct (dropWhileEnd_head p v a) as [E' | [t' E']] end;
    rewrite E' in E; [discriminate|].
  now injection E as <- _.
Qed.

Lemma normalize_no_trailing (s : str) :
  plain_whitespace s -> no_trailing isspace (normalize_gene_id s).
Proof.
  intros Hw w c E.
  pose proof (normalize_no_trailing_punct s w c E) as Hp.
  assert (Hin : In c (normalize_gene_id s)).
  { rewrite E. apply in_or_app. right. now left. }
  apply normalize_In in Hin as (Hs & Hc & _).
  destruct (isspace c) eqn:Sp; [|reflexivity].
  destruct (Hw c Hs Sp) as [-> | Hc']; [discriminate | congruence].
Qed.

(** On inputs without quotes and without exotic whitespace, one pass
    reaches the normal form. *)
Lemma normalize_idem_plain (s : str) :
  free_of is_quote s -> plain_whitespace s ->
  normalize_gene_id (normalize_gene_id s) = normalize_gene_id s.
Proof.
  intros Hq Hw. apply normalize_fixed.
  - now apply normalize_no_leading.
  - now apply normalize_no_trailing.
  - intros c Hc. now apply normalize_In in Hc.
  - intros c Hc. now apply normalize_In in Hc.
  - apply normalize_no_trailing_punct.
Qed.

Lemma normalize_strip (s : str) :
  normalize_gene_id (strip s) = normalize_gene_id s.
Proof. now rewrite !normalize_gene_id_eq, strip_idem. Qed.

(** Checks of the shape predicates by computation. *)
Lemma free_of_check (p : ascii -> bool) (s : str) :
  forallb (fun c => negb (p c)) s = true -> free_of p s.
Proof.
  intros H c Hc. rewrite forallb_forall in H.
  now apply negb_true_iff, H.
Qed.

Lemma no_leading_check (p : ascii -> bool) (s : str) :
  match s with [] => true | c :: _ => negb (p c) end = true ->
  no_leading p s.
Proof. intros H c t ->. now apply negb_true_iff. Qed.

Lemma no_trailing_check (p : ascii -> bool) (s : str) :
  match rev s with [] => true | c :: _ => negb (p c) end = true ->
  no_trailing p s.
Proof.
  intros H w c ->. rewrite rev_app_distr in H. now apply negb_true_iff.
Qed.

Lemma plain_whitespace_check (s : str) :
  forallb (fun c => negb (isspace c) || chr_eqb c SPACE || cls_crlftab c) s
  = true ->
  plain_whitespace s.
Proof.
  intros H c Hc Sp. rewrite forallb_forall in H. specialize (H c Hc).
  rewrite Sp in H. simpl in H. apply orb_true_iff in H as [H|H].
  - left. now apply chr_eqb_eq.
  - now right.
Qed.

End NormalizeFacts.

(* ================================================================== *)
(** ** Properties of the parser *)

Import PyStr Re ClusterBlast.

(** C3, the claim as stated fails: [normalize_gene_id] is not idempotent.
    On a gene id written as quote, space, geneA, quote the first pass
    returns the id with its leading space (the quotes hid it from [strip]),
    and a second pass removes that space. *)
Lemma C3_counterexample_not_idempotent :
  normalize_gene_id sample_gene_quoted = lit " geneA"
  /\ normalize_gene_id (normalize_gene_id sample_gene_quoted) = lit "geneA"
  /\ normalize_gene_id (normalize_gene_id sample_gene_quoted)
     <> normalize_gene_id sample_gene_quoted.
Proof. repeat split; try reflexivity. vm_compute. discriminate. Qed.

(** C3, amended: [normalize_gene_id] returns an id unchanged when the id is
    in normal form (no leading or trailing whitespace, no CR/LF/TAB, no
    quote, no trailing space, comma, semicolon or colon), and it is
    idempotent on inputs that contain no quote and no whitespace other
    than space, CR, LF and TAB.  For every input it disregards the input's
    leading and trailing whitespace, and its result contains no CR/LF/TAB
    and no double or single quote and does not end in a space, comma,
    semicolon or colon.  Two spaces, geneA_1, a tab, a comma and a newline
    normalize to geneA_1. *)
Theorem C3_normalize_gene_id :
  (forall s,
      no_leading isspace s -> no_trailing isspace s ->
      free_of cls_crlftab s -> free_of is_quote s ->
      no_trailing is_trailing_punct s ->
      normalize_gene_id s = s)
  /\ (forall s,
         free_of is_quote s -> plain_whitespace s ->
         normalize_gene_id (normalize_gene_id s) = normalize_gene_id s)
  /\ (forall s, normalize_gene_id (strip s) = normalize_gene_id s)
  /\ (forall s,
         free_of cls_crlftab (normalize_gene_id s)
         /\ free_of is_quote (normalize_gene_id s)
         /\ no_trailing is_trailing_punct (normalize_gene_id s))
  /\ normalize_gene_id sample_gene_raw = lit "geneA_1".
Proof.
  split; [exact NormalizeFacts.normalize_fixed|].
  split; [exact NormalizeFacts.normalize_idem_plain|].
  split; [exact NormalizeFacts.normalize_strip|].
  split; [|reflexivity].
  intros s. repeat split.
  - intros c Hc. now apply NormalizeFacts.normalize_In in Hc.
  - intros c Hc. now apply NormalizeFacts.normalize_In in Hc.
  - apply NormalizeFacts.normalize_no_trailing_punct.
Qed.

Lemma C3_normalize_gene_id_witness :
  normalize_gene_id (lit "geneA_1") = lit "geneA_1"
  /\ normalize_gene_id (normalize_gene_id sample_gene_raw)
     = normalize_gene_id sample_gene_raw.
Proof.
  split.
  - apply (proj1 C3_normalize_gene_id).
    + now apply NormalizeFacts.no_leading_check.
    + now apply NormalizeFacts.no_trailing_check.
    + now apply NormalizeFacts.free_of_check.
    + now apply NormalizeFacts.free_of_check.
    + now apply NormalizeFacts.no_trailing_check.
  - apply (proj1 (proj2 C3_normalize_gene_id)).
    + now apply NormalizeFacts.free_of_check.
    + now apply NormalizeFacts.plain_whitespace_check.
Defined.

(* ------------------------------------------------------------------ *)
(** *** Cleaning of the cluster identifier *)

Module CleanFacts.
Import PyStrFacts ReFacts.

Lemma dot_suffix_at_end (n : nat) : match_at n re_dot_suffix [] = None.
Proof. reflexivity. Qed.

Lemma dot_suffix_no_dot (n : nat) (c : ascii) (t : str) :
  cls_is "." c = false -> match_at n re_dot_suffix (c :: t) = None.
Proof. intros H. unfold match_at, re_dot_suffix. simpl. now rewrite H. Qed.

Lemma dot_suffix_dot (n : nat) (c : ascii) (t : str) :
  cls_is "." c = true -> forallb cls_any t = true ->
  match_at n re_dot_suffix (c :: t) = Some ([], None).
Proof.
  intros H Ht. unfold match_at, re_dot_suffix. simpl. rewrite H.
  now apply star_greedy_to_end.
Qed.

(** On a one-line string the substitution keeps what precedes the first
    dot. *)
Lemma sub_dot_suffix (n : nat) (s : str) :
  forallb cls_any s = true ->
  sub_from n re_dot_suffix repl_empty s 0 = takeWhile not_dot s.
Proof.
  induction s as [|c t IH]; intros Hs; rewrite sub_from_unfold.
  - now rewrite dot_suffix_at_end.
  - simpl in Hs. apply andb_true_iff in Hs as [Hc Ht].
    unfold not_dot. simpl takeWhile.
    destruct (cls_is "." c) eqn:D.
    + rewrite (dot_suffix_dot n c t D Ht). simpl negb. cbv iota.
      replace (length (c :: t) - length (@nil ascii)) with (S (length t))
        by (cbn [length]; lia).
      rewrite sub_from_skip, skipn_all by lia.
      rewrite sub_from_unfold, dot_suffix_at_end. reflexivity.
    + rewrite (dot_suffix_no_dot n c t D). simpl. f_equal. now apply IH.
Qed.

Lemma takeWhile_split (p : ascii -> bool) (pre post : str) (c : ascii) :
  forallb p pre = true -> p c = false ->
  takeWhile p (pre ++ c :: post) = pre.
Proof.
  intros Hp Hc. induction pre as [|a pre IH]; simpl.
  - now rewrite Hc.
  - simpl in Hp. apply andb_true_iff in Hp as [-> Hp]. f_equal. auto.
Qed.

Lemma takeWhile_id (p : ascii -> bool) (s : str) :
  forallb p s = true -> takeWhile p s = s.
Proof.
  induction s as [|a s IH]; simpl; [reflexivity|].
  intros H. apply andb_true_iff in H as [-> H]. f_equal. auto.
Qed.

Lemma free_of_forallb (p : ascii -> bool) (s : str) :
  free_of p s -> forallb (fun c => negb (p c)) s = true.
Proof.
  intros H. apply forallb_forall. intros c Hc. now rewrite (H c Hc).
Qed.

(** Without a dot there is no match at all, on any string. *)
Lemma clean_no_dot (id : str) : free_of (cls_is ".") id -> clean_bgc_id id = id.
Proof.
  intros H. unfold clean_bgc_id, re_sub. apply sub_from_nomatch.
  intros pre t ->. destruct t as [|c t]; [reflexivity|].
  apply dot_suffix_no_dot, H, in_or_app. right. now left.
Qed.

Lemma clean_at_first_dot (id pre post : str) :
  free_of (cls_is LF) id -> id = pre ++ "."%char :: post ->
  free_of (cls_is ".") pre -> clean_bgc_id id = pre.
Proof.
  intros Hlf -> Hpre. unfold clean_bgc_id, re_sub.
  rewrite sub_dot_suffix.
  - apply takeWhile_split; [now apply free_of_forallb | reflexivity].
  - now apply free_of_forallb in Hlf.
Qed.

End CleanFacts.

(* ------------------------------------------------------------------ *)
(** *** Block metadata *)

Module MetaFacts.
Import PyStrFacts ReFacts.

Ltac header_step_cases m ln :=
  unfold header_step;
  destruct (re_match re_m_bgc (strip ln)), (startswith (strip ln) lbl_source),
    (startswith (strip ln) lbl_type), (startswith (strip ln) lbl_proteins),
    (startswith (strip ln) lbl_cum), (re_match re_m2 (strip ln));
  cbn [bgc_id source_name bgc_type proteins_with_hits cum_score];
  try reflexivity;
  try (destruct (truthy (bgc_id m)); reflexivity);
  match goal with
  | |- context [truthy (Some ?g)] => destruct (truthy (Some g)); reflexivity
  end.

(** What one line does to each field. *)
Lemma header_step_source (m : Meta) (ln : str) :
  source_name (header_step m ln)
  = if startswith (strip ln) lbl_source
    then value_after lbl_source (strip ln) else source_name m.
Proof.
  header_step_cases m ln.
Qed.

Lemma header_step_type (m : Meta) (ln : str) :
  bgc_type (header_step m ln)
  = if startswith (strip ln) lbl_type
    then value_after lbl_type (strip ln) else bgc_type m.
Proof.
  header_step_cases m ln.
Qed.

Lemma header_step_proteins (m : Meta) (ln : str) :
  proteins_with_hits (header_step m ln)
  = if startswith (strip ln) lbl_proteins
    then value_after (lit ":") (strip ln) else proteins_with_hits m.
Proof.
  header_step_cases m ln.
Qed.

Lemma header_step_cum (m : Meta) (ln : str) :
  cum_score (header_step m ln)
  = if startswith (strip ln) lbl_cum
    then value_after (lit ":") (strip ln) else cum_score m.
Proof.
  header_step_cases m ln.
Qed.

Lemma header_step_bgc_id (m : Meta) (ln : str) :
  bgc_id (header_step m ln)
  = let id := match re_match re_m_bgc (strip ln) with
              | Some m_bgc => Some (group1 m_bgc)
              | None => bgc_id m
              end in
    match re_match re_m2 (strip ln) with
    | Some m2 => if negb (truthy id) then Some (group1 m2) else id
    | None => id
    end.
Proof.
  header_step_cases m ln.
Qed.

Section Fold.
Variable A : Type.
Variable field : Meta -> A.
Variable test : str -> bool.
Variable value : str -> A.
Hypothesis step :
  forall m ln,
    field (header_step m ln) = if test ln then value ln else field m.

(** Lines that do not match leave the field alone. *)
Lemma scan_no_match (window : list str) :
  forall m, (forall l, In l window -> test l = false) ->
            field (scan_header m window) = field m.
Proof.
  induction window as [|l w IH]; intros m H; [reflexivity|].
  unfold scan_header in *. simpl. rewrite IH by (intros; apply H; now right).
  now rewrite step, (H l (or_introl eq_refl)).
Qed.

(** The last matching line of the window gives the field its value. *)
Lemma scan_last_match (pre post : list str) (ln : str) (m : Meta) :
  test ln = true -> (forall l, In l post -> test l = false) ->
  field (scan_header m (pre ++ ln :: post)) = value ln.
Proof.
  intros Hln Hpost. unfold scan_header. rewrite fold_left_app. simpl.
  fold (scan_header (header_step (fold_left header_step pre m) ln) post).
  rewrite scan_no_match by assumption.
  now rewrite step, Hln.
Qed.
End Fold.

(** **** The identifier patterns *)

(** A successful match of the first identifier pattern captures at least
    four characters, all letters, digits, dots or dashes. *)
Lemma m_bgc_group (ls : str) (mo : str * option str) :
  re_match re_m_bgc ls = Some mo ->
  group1 mo <> [] /\ forallb cls_id_tail (group1 mo) = true.
Proof.
  destruct mo as [s' g']. unfold re_match, re_m_bgc. intros M.
  apply match_at_sound in M.
  apply matches_Cat_inv in M as (s1 & g1 & M1 & M).
  apply matches_Bol_inv in M1 as (-> & -> & _).
  apply matches_Cat_inv in M as (s2 & g2 & M2 & M).
  apply matches_Plus in M2 as (c0 & w0 & -> & _ & _ & ->).
  apply matches_Cat_inv in M as (s3 & g3 & M3 & M).
  apply matches_Chr_inv in M3 as (c1 & -> & _ & ->).
  apply matches_Cat_inv in M as (s4 & g4 & M4 & M).
  apply matches_Plus in M4 as (c2 & w2 & -> & _ & _ & ->).
  apply matches_Group_inv in M as (w & gi & E & M & ->).
  apply matches_Cat_inv in M as (t1 & h1 & N1 & M).
  apply matches_Chr_inv in N1 as (u1 & E1 & U1 & ->).
  apply matches_Cat_inv in M as (t2 & h2 & N2 & M).
  apply matches_Chr_inv in N2 as (u2 & -> & U2 & ->).
  apply matches_Cat_inv in M as (t3 & h3 & N3 & M).
  apply matches_Chr_inv in N3 as (u3 & -> & U3 & ->).
  apply matches_Cat_inv in M as (t4 & h4 & N4 & M).
  apply matches_Plus in N4 as (d & wd & -> & D & Wd & ->).
  apply matches_Star_inv in M as (wt & -> & Wt & _).
  rewrite E in E1.
  replace (u1 :: u2 :: u3 :: d :: wd ++ wt ++ s')
    with ((u1 :: u2 :: u3 :: d :: wd ++ wt) ++ s') in E1
    by (simpl; now rewrite <- app_assoc).
  apply app_inv_tail in E1. subst w. simpl group1.
  split; [discriminate|].
  unfold cls_id_tail. simpl. rewrite U1, U2, U3, D, !orb_true_r. simpl.
  rewrite forallb_app. apply andb_true_iff. split; [|exact Wt].
  apply forallb_forall. intros x Hx. rewrite forallb_forall in Wd.
  now rewrite (Wd x Hx).
Qed.

Lemma m2_group (ls : str) (mo : str * option str) :
  re_match re_m2 ls = Some mo ->
  group1 mo <> [] /\ forallb cls_id_tail (group1 mo) = true.
Proof.
  destruct mo as [s' g']. unfold re_match, re_m2. intros M.
  apply match_at_sound in M.
  apply matches_Cat_inv in M as (s1 & g1 & M1 & M).
  apply matches_Bol_inv in M1 as (-> & -> & _).
  apply matches_Cat_inv in M as (s2 & g2 & M2 & M).
  apply matches_Plus in M2 as (c0 & w0 & -> & _ & _ & ->).
  apply matches_Cat_inv in M as (s3 & g3 & M3 & M).
  apply matches_Chr_inv in M3 as (c1 & -> & _ & ->).
  apply matches_Cat_inv in M as (s4 & g4 & M4 & M).
  apply matches_Plus in M4 as (c2 & w2 & -> & _ & _ & ->).
  apply matches_Group_inv in M as (w & gi & E & M & ->).
  apply matches_Cat_inv in M as (t1 & h1 & N1 & M).
  apply matches_Str in N1 as [E1 ->].
  apply matches_Plus in M as (d & wd & -> & D & Wd & _).
  rewrite E in E1.
  replace (lit "BGC" ++ d :: wd ++ s')
    with ((lit "BGC" ++ d :: wd) ++ s') in E1
    by (simpl; reflexivity).
  apply app_inv_tail in E1. subst w. simpl group1.
  split; [discriminate|].
  assert (T : forall x, cls_m2_tail x = true -> cls_id_tail x = true).
  { intros x. unfold cls_m2_tail, cls_id_tail, cls_digit.
    intros H. repeat (apply orb_true_iff in H as [H|H]);
      rewrite H, ?orb_true_r; reflexivity. }
  simpl. rewrite (T d D). simpl.
  apply forallb_forall. intros x Hx. rewrite forallb_forall in Wd. auto.
Qed.

Lemma id_tail_not_LF (c : ascii) : cls_id_tail c = true -> cls_any c = true.
Proof.
  unfold cls_any. destruct (chr_eqb c LF) eqn:E; [|reflexivity].
  apply chr_eqb_eq in E. subst c. discriminate.
Qed.

Lemma id_shape_truthy (o : option str) (id : str) :
  id_shape o -> o = Some id -> truthy o = true.
Proof.
  intros H E. destruct (H id E) as [N _]. subst o.
  destruct id; [congruence | reflexivity].
Qed.

Lemma header_step_id_shape (m : Meta) (ln : str) :
  id_shape (bgc_id m) -> id_shape (bgc_id (header_step m ln)).
Proof.
  intros H. rewrite header_step_bgc_id. cbv zeta.
  destruct (re_match re_m_bgc (strip ln)) as [mo|] eqn:E1;
    destruct (re_match re_m2 (strip ln)) as [mo2|] eqn:E2;
    repeat match goal with
           | |- context [if ?b then _ else _] => destruct b
           end;
    try exact H; intros id [= <-];
    (now apply m_bgc_group in E1) || (now apply m2_group in E2).
Qed.

Lemma scan_header_id_shape (window : list str) :
  forall m, id_shape (bgc_id m) -> id_shape (bgc_id (scan_header m window)).
Proof.
  induction window as [|l w IH]; intros m H; [exact H|].
  apply IH, header_step_id_shape, H.
Qed.

Lemma block_metadata_id_shape (block : list str) :
  id_shape (bgc_id (block_metadata block)).
Proof. apply scan_header_id_shape. intros id [=]. Qed.

(** Once an identifier is set, only the first identifier pattern can
    replace it. *)
Lemma header_step_bgc_id_kept (m : Meta) (ln : str) :
  truthy (bgc_id m) = true -> re_match re_m_bgc (strip ln) = None ->
  bgc_id (header_step m ln) = bgc_id m.
Proof.
  intros T E. rewrite header_step_bgc_id, E. cbv zeta. rewrite T.
  now destruct (re_match re_m2 (strip ln)).
Qed.

Lemma header_step_bgc_id_set (m : Meta) (ln : str) (mo : str * option str) :
  re_match re_m_bgc (strip ln) = Some mo ->
  bgc_id (header_step m ln) = Some (group1 mo).
Proof.
  intros E. rewrite header_step_bgc_id, E. cbv zeta.
  destruct (m_bgc_group _ E) as [N _].
  destruct (group1 mo) as [|c g]; [congruence|]. simpl.
  now destruct (re_match re_m2 (strip ln)).
Qed.

Lemma scan_bgc_id_kept (window : list str) :
  forall m, truthy (bgc_id m) = true ->
            (forall l, In l window -> re_match re_m_bgc (strip l) = None) ->
            bgc_id (scan_header m window) = bgc_id m.
Proof.
  induction window as [|l w IH]; intros m T H; [reflexivity|].
  unfold scan_header in *. simpl.
  assert (E : bgc_id (header_step m l) = bgc_id m)
    by (apply header_step_bgc_id_kept; [exact T | apply H; now left]).
  rewrite IH; [exact E | now rewrite E | intros; apply H; now right].
Qed.

Lemma scan_bgc_id_last_match (pre post : list str) (ln : str) (m : Meta)
      (mo : str * option str) :
  re_match re_m_bgc (strip ln) = Some mo ->
  (forall l, In l post -> re_match re_m_bgc (strip l) = None) ->
  bgc_id (scan_header m (pre ++ ln :: post)) = Some (group1 mo).
Proof.
  intros E H. unfold scan_header. rewrite fold_left_app. simpl.
  fold (scan_header (header_step (fold_left header_step pre m) ln) post).
  pose proof (header_step_bgc_id_set (fold_left header_step pre m) ln E) as S.
  rewrite scan_bgc_id_kept; [exact S | | exact H].
  rewrite S. destruct (m_bgc_group _ E) as [N _].
  destruct (group1 mo); [congruence | reflexivity].
Qed.

(** **** The labelled fields *)

Lemma startswith_after_first (sep s : str) :
  startswith s sep = true -> after_first sep s = Some (skipn (length sep) s).
Proof. intros H. destruct s; cbn [after_first]; now rewrite H. Qed.

Lemma startswith_split (prefix : str) :
  forall s, startswith s prefix = true -> s = prefix ++ skipn (length prefix) s.
Proof.
  induction prefix as [|a p IH]; intros s H; [reflexivity|].
  destruct s as [|c t]; [discriminate|].
  simpl in H. apply andb_true_iff in H as [E H].
  apply chr_eqb_eq in E. subst c. simpl. f_equal. now apply IH.
Qed.

Lemma value_after_source (ls : str) :
  startswith ls lbl_source = true ->
  value_after lbl_source ls = Some (strip (skipn (length lbl_source) ls)).
Proof. intros H. unfold value_after. now rewrite startswith_after_first. Qed.

Lemma value_after_type (ls : str) :
  startswith ls lbl_type = true ->
  value_after lbl_type ls = Some (strip (skipn (length lbl_type) ls)).
Proof. intros H. unfold value_after. now rewrite startswith_after_first. Qed.

(** The first colon of a line that starts with one of the two long labels
    is the colon that ends the label. *)
Lemma after_colon_proteins (rest : str) :
  after_first (lit ":") (lbl_proteins ++ rest) = Some rest.
Proof. vm_compute. reflexivity. Qed.

Lemma after_colon_cum (rest : str) :
  after_first (lit ":") (lbl_cum ++ rest) = Some rest.
Proof. vm_compute. reflexivity. Qed.

Lemma value_after_proteins (ls : str) :
  startswith ls lbl_proteins = true ->
  value_after (lit ":") ls = Some (strip (skipn (length lbl_proteins) ls)).
Proof.
  intros H. apply startswith_split in H.
  unfold value_after. rewrite H at 1.
  now rewrite (after_colon_proteins (skipn (length lbl_proteins) ls)).
Qed.

Lemma value_after_cum (ls : str) :
  startswith ls lbl_cum = true ->
  value_after (lit ":") ls = Some (strip (skipn (length lbl_cum) ls)).
Proof.
  intros H. apply startswith_split in H.
  unfold value_after. rewrite H at 1.
  now rewrite (after_colon_cum (skipn (length lbl_cum) ls)).
Qed.

End MetaFacts.

(** C2, the claim as stated fails: a later matching line inside the window
    replaces the value of every field.  The first six lines of the sample
    block give one set of values; with five more header lines the block
    yields the values of those later lines. *)
Lemma C2_counterexample_later_line_replaces :
  block_metadata (firstn 6 sample_block_twice)
  = mkMeta (Some (lit "BGC0000001.1")) (Some (lit "first"))
           (Some (lit "NRPS")) (Some (lit "3")) (Some (lit "100"))
  /\ block_metadata sample_block_twice
     = mkMeta (Some (lit "BGC0000002.1")) (Some (lit "second"))
              (Some (lit "PKS")) (Some (lit "4")) (Some (lit "200"))
  /\ block_metadata sample_block_twice
     <> block_metadata (firstn 6 sample_block_twice).
Proof. repeat split; try reflexivity. vm_compute. discriminate. Qed.

(** C2, amended: within the window of the first 15 lines of a block, every
    metadata field takes its value from the last line that matches the
    field's pattern: for the identifier, group 1 of the last line matching
    the ordinal-and-identifier pattern; for the name, type, protein-hit
    count and cumulative score, the stripped text after the label of the
    last line starting with that label. *)
Theorem C2_last_matching_line_wins :
  forall (block pre post : list str) (ln : str),
    firstn 15 block = pre ++ ln :: post ->
    let m := block_metadata block in
    let ls := strip ln in
    (forall mo,
        re_match re_m_bgc ls = Some mo ->
        (forall l, In l post -> re_match re_m_bgc (strip l) = None) ->
        bgc_id m = Some (group1 mo))
    /\ (startswith ls lbl_source = true ->
        (forall l, In l post -> startswith (strip l) lbl_source = false) ->
        source_name m = Some (strip (skipn (length lbl_source) ls)))
    /\ (startswith ls lbl_type = true ->
        (forall l, In l post -> startswith (strip l) lbl_type = false) ->
        bgc_type m = Some (strip (skipn (length lbl_type) ls)))
    /\ (startswith ls lbl_proteins = true ->
        (forall l, In l post -> startswith (strip l) lbl_proteins = false) ->
        proteins_with_hits m = Some (strip (skipn (length lbl_proteins) ls)))
    /\ (startswith ls lbl_cum = true ->
        (forall l, In l post -> startswith (strip l) lbl_cum = false) ->
        cum_score m = Some (strip (skipn (length lbl_cum) ls))).
Proof.
  intros block pre post ln W m ls. subst m ls.
  unfold block_metadata. rewrite W.
  split; [|split; [|split; [|split]]].
  - intros mo E H. now apply MetaFacts.scan_bgc_id_last_match.
  - intros E H.
    rewrite (MetaFacts.scan_last_match source_name
               (fun l => startswith (strip l) lbl_source)
               (fun l => value_after lbl_source (strip l))
               MetaFacts.header_step_source) by assumption.
    now apply MetaFacts.value_after_source.
  - intros E H.
    rewrite (MetaFacts.scan_last_match bgc_type
               (fun l => startswith (strip l) lbl_type)
               (fun l => value_after lbl_type (strip l))
               MetaFacts.header_step_type) by assumption.
    now apply MetaFacts.value_after_type.
  - intros E H.
    rewrite (MetaFacts.scan_last_match proteins_with_hits
               (fun l => startswith (strip l) lbl_proteins)
               (fun l => value_after (lit ":") (strip l))
               MetaFacts.header_step_proteins) by assumption.
    now apply MetaFacts.value_after_proteins.
  - intros E H.
    rewrite (MetaFacts.scan_last_match cum_score
               (fun l => startswith (strip l) lbl_cum)
               (fun l => value_after (lit ":") (strip l))
               MetaFacts.header_step_cum) by assumption.
    now apply MetaFacts.value_after_cum.
Qed.

Lemma C2_last_matching_line_wins_witness :
  source_name (block_metadata sample_block_twice) = Some (lit "second")
  /\ bgc_id (block_metadata sample_block_twice) = Some (lit "BGC0000002.1").
Proof.
  split.
  - apply (proj1 (proj2 (C2_last_matching_line_wins
             sample_block_twice
             (firstn 7 sample_block_twice) (skipn 8 sample_block_twice)
             (lit "Source: second") eq_refl)));
      [vm_compute; reflexivity|].
    apply (PyStrFacts.none_lines_check
             (fun l => startswith (strip l) lbl_source)).
    vm_compute. reflexivity.
  - apply (proj1 (C2_last_matching_line_wins
             sample_block_twice
             (firstn 6 sample_block_twice) (skipn 7 sample_block_twice)
             (lit "2. BGC0000002.1") eq_refl)
             ([], Some (lit "BGC0000002.1")));
      [vm_compute; reflexivity|].
    intros l H.
    apply (PyStrFacts.all_lines_check
             (fun l => match re_match re_m_bgc (strip l) with
                       | None => true | Some _ => false end)
             (skipn 7 sample_block_twice)) in H.
    + now destruct (re_match re_m_bgc (strip l)).
    + vm_compute. reflexivity.
Defined.

(** C5: the cleaned identifier of a block is the extracted identifier cut
    at its first dot, the dot and everything after it discarded; an
    identifier without a dot is returned unchanged; [BGC0001089.5] becomes
    [BGC0001089]. *)
Theorem C5_bgc_id_truncated_at_first_dot :
  (forall (block : list str) (id : str),
      bgc_id (block_metadata block) = Some id ->
      bgc_id_clean (block_metadata block) = Some (clean_bgc_id id)
      /\ (forall pre post,
             id = pre ++ "."%char :: post -> free_of (cls_is ".") pre ->
             clean_bgc_id id = pre))
  /\ (forall id, free_of (cls_is ".") id -> clean_bgc_id id = id)
  /\ clean_bgc_id (lit "BGC0001089.5") = lit "BGC0001089".
Proof.
  split; [|split; [exact CleanFacts.clean_no_dot | reflexivity]].
  intros block id E.
  pose proof (MetaFacts.block_metadata_id_shape block) as Sh.
  split.
  - unfold bgc_id_clean.
    rewrite (MetaFacts.id_shape_truthy Sh E), E. reflexivity.
  - intros pre post Eid Hpre.
    apply CleanFacts.clean_at_first_dot with (post := post); try assumption.
    destruct (Sh id E) as [_ Hall]. rewrite forallb_forall in Hall.
    intros c Hc. specialize (Hall c Hc).
    apply MetaFacts.id_tail_not_LF in Hall.
    unfold cls_any in Hall. now apply negb_true_iff in Hall.
Qed.

Lemma C5_bgc_id_truncated_at_first_dot_witness :
  bgc_id_clean (block_metadata sample_block_twice)
  = Some (clean_bgc_id (lit "BGC0000002.1"))
  /\ clean_bgc_id (lit "BGC0000002.1") = lit "BGC0000002"
  /\ clean_bgc_id (lit "BGC0001089") = lit "BGC0001089".
Proof.
  split; [|split].
  - apply (proj1 C5_bgc_id_truncated_at_first_dot sample_block_twice
             (lit "BGC0000002.1") eq_refl).
  - apply (proj2 (proj1 C5_bgc_id_truncated_at_first_dot sample_block_twice
                    (lit "BGC0000002.1") eq_refl)) with (post := lit "1").
    + reflexivity.
    + now apply NormalizeFacts.free_of_check.
  - apply (proj1 (proj2 C5_bgc_id_truncated_at_first_dot)).
    now apply NormalizeFacts.free_of_check.
Defined.

(* ------------------------------------------------------------------ *)
(** *** The region tag of a file name *)

Module RegionFacts.
Import PyStrFacts ReFacts.

(** What a match of the three alternatives has consumed. *)
Lemma region_tag_shape (n : nat) (w s' : str) (g g' : option str) :
  matches n re_region_tag (w ++ s') g s' g' ->
  tag_c_digits w \/ tag_C_digits w \/ tag_c_nondigits_digits w.
Proof.
  unfold re_region_tag. intros M.
  apply matches_Alt_inv in M as [M | M]; [|apply matches_Alt_inv in M as [M | M]].
  - left.
    apply matches_Cat_inv in M as (s1 & g1 & M1 & M).
    apply matches_Str in M1 as [E ->].
    apply matches_Plus in M as (d & wd & -> & D & Wd & _).
    replace (lit "_c" ++ d :: wd ++ s') with ((lit "_c" ++ d :: wd) ++ s') in E
      by reflexivity.
    apply app_inv_tail in E. subst w.
    exists (d :: wd). repeat split; [discriminate|]. simpl. now rewrite D.
  - right. left.
    apply matches_Cat_inv in M as (s1 & g1 & M1 & M).
    apply matches_Str in M1 as [E ->].
    apply matches_Plus in M as (d & wd & -> & D & Wd & _).
    replace (lit "_C" ++ d :: wd ++ s') with ((lit "_C" ++ d :: wd) ++ s') in E
      by reflexivity.
    apply app_inv_tail in E. subst w.
    exists (d :: wd). repeat split; [discriminate|]. simpl. now rewrite D.
  - right. right.
    apply matches_Cat_inv in M as (s1 & g1 & M1 & M).
    apply matches_Str in M1 as [E ->].
    apply matches_Cat_inv in M as (s2 & g2 & M2 & M).
    apply matches_Star_inv in M2 as (nd & -> & Nd & ->).
    apply matches_Plus in M as (d & wd & -> & D & Wd & _).
    replace (lit "_c" ++ nd ++ d :: wd ++ s')
      with ((lit "_c" ++ nd ++ d :: wd) ++ s') in E
      by (simpl; now rewrite <- app_assoc).
    apply app_inv_tail in E. subst w.
    exists nd, (d :: wd). repeat split; try assumption; [discriminate|].
    simpl. now rewrite D.
Qed.

(** A match of the whole region pattern somewhere in [fname] exhibits a
    tag inside [fname]. *)
Lemma region_match_contains_tag (n : nat) (pre t : str)
      (x : str * option str) :
  match_at n re_region t = Some x -> contains_region_tag (pre ++ t).
Proof.
  destruct x as [s' g']. unfold re_region. intros M.
  apply match_at_sound in M.
  apply matches_Cat_inv in M as (s1 & g1 & M1 & M).
  apply matches_LazyStar_inv in M1 as (w0 & -> & _ & ->).
  apply matches_Cat_inv in M as (s2 & g2 & M2 & M).
  apply matches_Group_inv in M2 as (w & gi & -> & M2 & ->).
  apply region_tag_shape in M2.
  exists (pre ++ w0), w, s2. split; [now rewrite <- app_assoc | exact M2].
Qed.

Lemma region_of_no_tag (fname : str) :
  ~ contains_region_tag fname -> region_of fname = fname.
Proof.
  intros H. unfold region_of, re_sub. apply sub_from_nomatch.
  intros pre t ->.
  destruct (match_at (length (pre ++ t)) re_region t) as [x|] eqn:E;
    [|reflexivity].
  exfalso. apply H. eapply region_match_contains_tag, E.
Qed.

(** The scan finds every tag. *)
Lemma tag_starts_here_complete (w post : str) :
  tag_c_digits w \/ tag_C_digits w \/ tag_c_nondigits_digits w ->
  tag_starts_here (w ++ post) = true.
Proof.
  intros [(ds & [N D] & ->) | [(ds & [N D] & ->) | (nd & ds & Nd & [N D] & ->)]];
    destruct ds as [|d ds]; try congruence;
    simpl in D; apply andb_true_iff in D as [D _].
  - simpl. unfold cls_nondigit at 1. now rewrite D.
  - simpl. exact D.
  - change (tag_starts_here ((lit "_c" ++ nd ++ d :: ds) ++ post))
      with (match dropWhile cls_nondigit ((nd ++ d :: ds) ++ post) with
            | [] => false | _ :: _ => true end).
    rewrite <- app_assoc, dropWhile_all by assumption.
    simpl. unfold cls_nondigit at 1. now rewrite D.
Qed.

Lemma scan_region_tag_unfold (s : str) :
  scan_region_tag s
  = tag_starts_here s
    || match s with [] => false | _ :: t => scan_region_tag t end.
Proof. destruct s; reflexivity. Qed.

Lemma scan_region_tag_complete (fname : str) :
  contains_region_tag fname -> scan_region_tag fname = true.
Proof.
  intros (pre & w & post & -> & T).
  induction pre as [|c pre IH].
  - simpl app. rewrite scan_region_tag_unfold.
    now rewrite (tag_starts_here_complete post T).
  - change ((c :: pre) ++ w ++ post) with (c :: (pre ++ w ++ post)).
    rewrite scan_region_tag_unfold, IH. apply orb_true_r.
Qed.

Lemma no_tag_check (fname : str) :
  scan_region_tag fname = false -> ~ contains_region_tag fname.
Proof.
  intros H C. apply scan_region_tag_complete in C. congruence.
Qed.

End RegionFacts.

(** C10: when the file name contains no substring matching [_c\d+],
    [_C\d+] or [_c\D*\d+], the substitution returns the file name itself,
    and the region tag given to the hit rows is the whole file name without
    its leading underscores; for a name ending in [.txt], as the names the
    loop receives do, this tag is not empty. *)
Theorem C10_region_is_filename_without_tag :
  forall fname : str,
    ~ contains_region_tag fname ->
    region_of fname = fname
    /\ region_clean fname = lstrip_chars (lit "_") fname
    /\ (forall query_df hits_df r,
           In r (merged_of fname query_df hits_df) ->
           M.region r = lstrip_chars (lit "_") fname)
    /\ (forall stem, fname = stem ++ lit ".txt" -> region_clean fname <> []).
Proof.
  intros fname H.
  pose proof (RegionFacts.region_of_no_tag H) as E.
  assert (Ec : region_clean fname = lstrip_chars (lit "_") fname).
  { unfold region_clean. rewrite E. now destruct fname. }
  split; [exact E|]. split; [exact Ec|]. split.
  - intros query_df hits_df r Hr. unfold merged_of, merge_left in Hr.
    rewrite Ec in Hr. apply in_flat_map in Hr as (h & _ & Hr).
    destruct (filter _ _) as [|q qs].
    + destruct Hr as [<- | []]. reflexivity.
    + apply in_map_iff in Hr as (q' & <- & _). reflexivity.
  - intros stem ->. rewrite Ec. unfold lstrip_chars. clear.
    induction stem as [|c stem IH]; [discriminate|].
    change ((c :: stem) ++ lit ".txt") with (c :: (stem ++ lit ".txt")).
    cbn [dropWhile]. destruct (mem (lit "_") c); [exact IH | discriminate].
Qed.

Lemma C10_region_is_filename_without_tag_witness :
  ~ contains_region_tag (lit "__cluster.txt")
  /\ region_clean (lit "__cluster.txt") = lit "cluster.txt".
Proof.
  assert (H : ~ contains_region_tag (lit "__cluster.txt"))
    by now apply RegionFacts.no_tag_check.
  split; [exact H|].
  exact (proj1 (proj2 (C10_region_is_filename_without_tag H))).
Defined.

(* ------------------------------------------------------------------ *)
(** *** Segmentation of the report *)

Module SegmentFacts.

Section Indices.
Variable p : str -> bool.

Lemma indices_from_In (lines : list str) :
  forall k i,
    In i (indices_from p k lines)
    <-> k <= i /\ exists ln, nth_error lines (i - k) = Some ln /\ p ln = true.
Proof.
  induction lines as [|ln rest IH]; intros k i; simpl.
  - split; [intros [] | intros (_ & l & H & _)].
    now destruct (i - k).
  - assert (Hrest :
        In i (indices_from p (S k) rest)
        <-> k <= i /\ i <> k
            /\ exists l, nth_error rest (i - S k) = Some l /\ p l = true).
    { rewrite IH. split.
      - intros (Hle & l & Hn & Hp). repeat split; try lia. eauto.
      - intros (Hle & Hne & l & Hn & Hp). split; [lia | eauto]. }
    destruct (p ln) eqn:Hp; simpl; rewrite Hrest; split.
    + intros [<- | (Hle & Hne & l & Hn & Hl)].
      * split; [lia|]. exists ln. now rewrite Nat.sub_diag.
      * split; [lia|]. exists l. split; [|exact Hl].
        replace (i - k) with (S (i - S k)) by lia. exact Hn.
    + intros (Hle & l & Hn & Hl).
      destruct (Nat.eq_dec k i) as [E|E]; [now left|right].
      repeat split; try lia. exists l. split; [|exact Hl].
      replace (i - k) with (S (i - S k)) in Hn by lia. exact Hn.
    + intros (Hle & Hne & l & Hn & Hl).
      split; [lia|]. exists l. split; [|exact Hl].
      replace (i - k) with (S (i - S k)) by lia. exact Hn.
    + intros (Hle & l & Hn & Hl).
      destruct (Nat.eq_dec k i) as [E|E].
      * subst i. rewrite Nat.sub_diag in Hn. simpl in Hn. congruence.
      * repeat split; try lia. exists l. split; [|exact Hl].
        replace (i - k) with (S (i - S k)) in Hn by lia. exact Hn.
Qed.

Lemma indices_from_bounds (lines : list str) (k i : nat) :
  In i (indices_from p k lines) -> k <= i < k + length lines.
Proof.
  intros H. apply indices_from_In in H as (Hle & l & Hn & _).
  split; [exact Hle|].
  assert (i - k < length lines) by (apply nth_error_Some; congruence).
  lia.
Qed.

Lemma indices_from_increasing (lines : list str) :
  forall k, increasing (indices_from p k lines).
Proof.
  induction lines as [|ln rest IH]; intros k; simpl; [exact I|].
  destruct (p ln); [|apply IH].
  simpl. split; [|apply IH].
  destruct (indices_from p (S k) rest) as [|j js] eqn:E; [exact I|].
  assert (In j (indices_from p (S k) rest)) by (rewrite E; now left).
  apply indices_from_bounds in H. lia.
Qed.

Lemma indices_from_nil (lines : list str) (k : nat) :
  indices_from p k lines = [] <-> forall ln, In ln lines -> p ln = false.
Proof.
  revert k. induction lines as [|ln rest IH]; intros k; simpl.
  - split; [intros _ l [] | reflexivity].
  - destruct (p ln) eqn:Hp.
    + split; [discriminate|]. intros H.
      specialize (H ln (or_introl eq_refl)). congruence.
    + rewrite IH. split.
      * intros H l [<- | Hl]; auto.
      * intros H l Hl. apply H. now right.
Qed.
End Indices.

Lemma increasing_tail (i : nat) (rest : list nat) :
  increasing (i :: rest) -> increasing rest.
Proof. now intros [_ H]. Qed.

Lemma spans_fst (idxs : list nat) (n : nat) : map fst (spans idxs n) = idxs.
Proof. induction idxs as [|i rest IH]; simpl; [reflexivity | now rewrite IH]. Qed.

Lemma spans_chained (n : nat) (idxs : list nat) :
  increasing idxs -> (forall i, In i idxs -> i < n) ->
  chained (spans idxs n) n.
Proof.
  induction idxs as [|i rest IH]; intros Hinc Hb; simpl; [exact I|].
  destruct Hinc as [Hlt Hinc].
  split; [|split].
  - destruct rest as [|j js]; [apply Hb; now left | exact Hlt].
  - now destruct rest.
  - apply IH; [exact Hinc | intros j Hj; apply Hb; now right].
Qed.

(** The blocks, put end to end, are the lines from the first marker on. *)
Lemma spans_tile (A : Type) (lines : list A) (idxs : list nat) :
  increasing idxs -> (forall i, In i idxs -> i < length lines) ->
  concat (map (fun se => slice lines (fst se) (snd se))
              (spans idxs (length lines)))
  = skipn (hd (length lines) idxs) lines.
Proof.
  induction idxs as [|i rest IH]; intros Hinc Hb; simpl.
  - now rewrite skipn_all.
  - destruct Hinc as [Hlt Hinc].
    rewrite IH; [|exact Hinc | intros j Hj; apply Hb; now right].
    unfold slice.
    assert (Hle : i <= hd (length lines) rest).
    { destruct rest as [|j js]; simpl.
      - apply Nat.lt_le_incl, Hb. now left.
      - lia. }
    set (e := hd (length lines) rest) in *.
    replace (match rest with [] => length lines | next :: _ => next end)
      with e by now destruct rest.
    replace (skipn e lines) with (skipn (e - i) (skipn i lines)).
    + apply firstn_skipn.
    + rewrite skipn_skipn. f_equal. lia.
Qed.

Lemma block_starts_spec (lines : list str) :
  block_starts lines
  = if existsb is_primary lines
    then indices_from is_primary 0 lines
    else indices_from is_fallback 0 lines.
Proof.
  unfold block_starts.
  destruct (existsb is_primary lines) eqn:E.
  - apply existsb_exists in E as (ln & Hin & Hp).
    destruct (indices_from is_primary 0 lines) eqn:Ei; [|reflexivity].
    pose proof (proj1 (indices_from_nil is_primary lines 0) Ei ln Hin).
    congruence.
  - assert (Ei : indices_from is_primary 0 lines = []).
    { apply indices_from_nil. intros ln Hin.
      destruct (is_primary ln) eqn:Hp; [|reflexivity].
      assert (existsb is_primary lines = true)
        by (apply existsb_exists; eauto).
      congruence. }
    now rewrite Ei.
Qed.

Lemma block_starts_increasing (lines : list str) :
  increasing (block_starts lines).
Proof.
  rewrite block_starts_spec.
  destruct (existsb is_primary lines); apply indices_from_increasing.
Qed.

Lemma block_starts_bound (lines : list str) (i : nat) :
  In i (block_starts lines) -> i < length lines.
Proof.
  rewrite block_starts_spec.
  destruct (existsb is_primary lines); intros H;
    apply indices_from_bounds in H; lia.
Qed.

(** The [j]-th span starts at the [j]-th marker and ends at the next
    marker, or at [n] for the last one. *)
Lemma spans_nth (n : nat) (idxs : list nat) :
  forall j s,
    nth_error idxs j = Some s ->
    nth_error (spans idxs n) j = Some (s, nth (S j) idxs n).
Proof.
  induction idxs as [|i rest IH]; intros j s H; [now destruct j|].
  destruct j as [|j].
  - injection H as ->. cbn [spans nth_error]. now destruct rest.
  - cbn [spans nth_error]. cbn [nth_error] in H.
    rewrite (IH j s H). reflexivity.
Qed.

Lemma spans_length (n : nat) (idxs : list nat) :
  length (spans idxs n) = length idxs.
Proof. now rewrite <- (spans_fst idxs n) at 2; rewrite length_map. Qed.

Lemma increasing_next (n : nat) (idxs : list nat) :
  increasing idxs -> (forall i, In i idxs -> i < n) ->
  forall j s,
    nth_error idxs j = Some s ->
    s < nth (S j) idxs n /\ nth (S j) idxs n <= n.
Proof.
  induction idxs as [|i rest IH]; intros Hinc Hb j s H; [now destruct j|].
  destruct Hinc as [Hlt Hinc].
  destruct j as [|j].
  - injection H as ->. cbn [nth].
    destruct rest as [|k ks]; cbn [nth].
    + split; [apply Hb; now left | lia].
    + split; [exact Hlt|].
      apply Nat.lt_le_incl, Hb. right. now left.
  - cbn [nth_error] in H.
    change (nth (S (S j)) (i :: rest) n) with (nth (S j) rest n).
    apply IH; [exact Hinc | intros k Hk; apply Hb; now right | exact H].
Qed.

Lemma increasing_head_lt (i : nat) (rest : list nat) :
  increasing (i :: rest) -> forall x, In x rest -> i < x.
Proof.
  revert i. induction rest as [|k ks IH]; intros i [Hlt Hinc] x Hx;
    [destruct Hx|].
  destruct Hx as [<- | Hx]; [exact Hlt|].
  pose proof (IH k Hinc x Hx). lia.
Qed.

(** No marker lies strictly between a marker and the next one. *)
Lemma increasing_between (n : nat) (idxs : list nat) :
  increasing idxs ->
  forall j s x,
    nth_error idxs j = Some s -> In x idxs ->
    s < x < nth (S j) idxs n -> False.
Proof.
  induction idxs as [|i rest IH]; intros Hinc j s x Hj Hx Hb;
    [destruct Hx|].
  destruct j as [|j].
  - injection Hj as ->. cbn [nth] in Hb.
    destruct Hx as [<- | Hx]; [lia|].
    destruct rest as [|k ks]; [destruct Hx|]. cbn [nth] in Hb.
    destruct Hx as [<- | Hx]; [lia|].
    pose proof (increasing_head_lt (proj2 Hinc) x Hx). lia.
  - cbn [nth_error] in Hj.
    change (nth (S (S j)) (i :: rest) n) with (nth (S j) rest n) in Hb.
    destruct Hx as [<- | Hx].
    + pose proof (increasing_head_lt Hinc s (nth_error_In _ _ Hj)). lia.
    + exact (IH (proj2 Hinc) j s x Hj Hx Hb).
Qed.

(** The [j]-th block is [lines[s:e]] for the [j]-th span [(s, e)]. *)
Lemma blocks_nth (lines : list str) (j s : nat) :
  nth_error (block_starts lines) j = Some s ->
  nth_error (blocks lines) j
  = Some (firstn (nth (S j) (block_starts lines) (length lines) - s)
                 (skipn s lines)).
Proof.
  intros H. unfold blocks, segment.
  rewrite (map_nth_error _ _ _ (spans_nth (length lines) _ _ H)).
  reflexivity.
Qed.

End SegmentFacts.

(** C4: the block starts are the lines whose stripped text begins with
    [>>] whenever the file has such a line, and the lines matching the
    ordinal-dot-BGC pattern only when it has none; the spans start at these
    markers in file order, each non-empty span ends where the next one
    starts and the last one ends at the end of the file, so that the blocks
    put end to end are exactly the lines from the first marker on; a file
    without markers has no block.  There is one block per marker, and the
    block of the [j]-th marker, at line [s], is made of the lines [s] to
    [e - 1], where [e] is the line of the next marker, or the length of
    the file for the last one: it begins with its marker line and holds
    no other marker line of the scan that was used. *)
Theorem C4_segmenter :
  forall lines : list str,
    let idxs := block_starts lines in
    ((exists ln, In ln lines /\ is_primary ln = true) ->
     forall i, In i idxs
               <-> exists ln, nth_error lines i = Some ln /\ is_primary ln = true)
    /\ ((forall ln, In ln lines -> is_primary ln = false) ->
        forall i, In i idxs
                  <-> exists ln, nth_error lines i = Some ln
                                 /\ is_fallback ln = true)
    /\ increasing idxs
    /\ map fst (segment lines) = idxs
    /\ chained (segment lines) (length lines)
    /\ concat (blocks lines) = skipn (hd (length lines) idxs) lines
    /\ (idxs = [] -> blocks lines = [])
    /\ length (blocks lines) = length idxs
    /\ (forall j s,
           nth_error idxs j = Some s ->
           let e := nth (S j) idxs (length lines) in
           s < e <= length lines
           /\ nth_error (blocks lines) j
              = Some (firstn (e - s) (skipn s lines))
           /\ (forall block,
                  nth_error (blocks lines) j = Some block ->
                  length block = e - s
                  /\ (forall k, k < e - s ->
                                nth_error block k = nth_error lines (s + k))
                  /\ (forall k, 0 < k < e - s -> ~ In (s + k) idxs))).
Proof.
  intros lines idxs. subst idxs.
  assert (Hidx : forall p i,
             In i (indices_from p 0 lines)
             <-> exists ln, nth_error lines i = Some ln /\ p ln = true).
  { intros p i. rewrite SegmentFacts.indices_from_In, Nat.sub_0_r.
    split; [now intros [_ H] | intros H; split; [lia | exact H]]. }
  split; [|split; [|split; [|split; [|split; [|split; [|split; [|split]]]]]]].
  - intros (ln & Hin & Hp) i.
    rewrite SegmentFacts.block_starts_spec.
    assert (E : existsb is_primary lines = true)
      by (apply existsb_exists; eauto).
    rewrite E. apply Hidx.
  - intros H i.
    rewrite SegmentFacts.block_starts_spec.
    assert (E : existsb is_primary lines = false).
    { destruct (existsb is_primary lines) eqn:E; [|reflexivity].
      apply existsb_exists in E as (ln & Hin & Hp).
      rewrite (H ln Hin) in Hp. discriminate. }
    rewrite E. apply Hidx.
  - apply SegmentFacts.block_starts_increasing.
  - apply SegmentFacts.spans_fst.
  - apply SegmentFacts.spans_chained.
    + apply SegmentFacts.block_starts_increasing.
    + apply SegmentFacts.block_starts_bound.
  - apply SegmentFacts.spans_tile.
    + apply SegmentFacts.block_starts_increasing.
    + apply SegmentFacts.block_starts_bound.
  - intros E. unfold blocks, segment. now rewrite E.
  - unfold blocks, segment.
    now rewrite length_map, SegmentFacts.spans_length.
  - intros j s Hj e.
    pose proof (SegmentFacts.block_starts_increasing lines) as Hinc.
    pose proof (@SegmentFacts.increasing_next
                  (length lines) (block_starts lines) Hinc
                  (SegmentFacts.block_starts_bound lines) j s Hj) as Hb.
    fold e in Hb.
    pose proof (SegmentFacts.blocks_nth lines j Hj) as Hblk. fold e in Hblk.
    split; [exact Hb|]. split; [exact Hblk|].
    intros block Eb. rewrite Hblk in Eb. injection Eb as <-.
    assert (Hlen : length (skipn s lines) = length lines - s)
      by apply length_skipn.
    split; [|split].
    + rewrite length_firstn, Hlen. lia.
    + intros k Hk. rewrite nth_error_firstn.
      destruct (Nat.ltb_spec k (e - s)) as [_ | Hge]; [|lia].
      apply nth_error_skipn.
    + intros k Hk Hin.
      apply (@SegmentFacts.increasing_between
               (length lines) (block_starts lines) Hinc j s (s + k) Hj Hin).
      fold e. lia.
Qed.

Lemma C4_segmenter_witness :
  (In 8 (block_starts sample_report)
   <-> exists ln, nth_error sample_report 8 = Some ln /\ is_primary ln = true)
  /\ (In 5 (block_starts sample_report_numbered)
      <-> exists ln, nth_error sample_report_numbered 5 = Some ln
                     /\ is_fallback ln = true)
  /\ segment sample_report = [(8, 19)]
  /\ segment sample_report_numbered = [(0, 5); (5, 9)]
  /\ blocks sample_report_numbered
     = [firstn 5 sample_report_numbered; skipn 5 sample_report_numbered]
  /\ nth_error (blocks sample_report_numbered) 1
     = Some (firstn (nth 2 (block_starts sample_report_numbered)
                         (length sample_report_numbered) - 5)
                    (skipn 5 sample_report_numbered)).
Proof.
  split; [|split; [|split; [|split; [|split]]]].
  3, 4, 5: vm_compute; reflexivity.
  - apply (proj1 (C4_segmenter sample_report)).
    exists (lit ">>"). split; [|vm_compute; reflexivity].
    apply (nth_error_In sample_report 8). vm_compute. reflexivity.
  - apply (proj1 (proj2 (C4_segmenter sample_report_numbered))).
    apply (PyStrFacts.none_lines_check is_primary).
    vm_compute. reflexivity.
  - assert (H : nth_error (block_starts sample_report_numbered) 1 = Some 5)
      by (vm_compute; reflexivity).
    pose proof (proj2 (proj2 (proj2 (proj2 (proj2 (proj2 (proj2 (proj2
                  (C4_segmenter sample_report_numbered))))))))
                1 5 H) as W.
    cbv zeta in W. exact (proj1 (proj2 W)).
Defined.

(** C8: a report in which no line starts a block, neither by the [>>]
    marker nor by the ordinal-dot-BGC pattern, parses to an empty hit list,
    and nothing is written for it: no results table and no unmatched-rows
    table. *)
Theorem C8_no_marker_no_output :
  forall (fname : str) (lines : list str),
    (forall ln, In ln lines -> is_primary ln = false /\ is_fallback ln = false) ->
    snd (parse_file lines) = [] /\ process_report fname lines = [].
Proof.
  intros fname lines H.
  assert (E : block_starts lines = []).
  { rewrite SegmentFacts.block_starts_spec.
    destruct (existsb is_primary lines);
      apply SegmentFacts.indices_from_nil; intros ln Hin; now apply H. }
  assert (Hh : snd (parse_file lines) = []).
  { unfold parse_file, blocks, segment. rewrite E. reflexivity. }
  split; [exact Hh|].
  unfold process_report. destruct (parse_file lines) as [query_df hits_df].
  simpl in Hh. subst hits_df. reflexivity.
Qed.

Lemma C8_no_marker_no_output_witness :
  snd (parse_file sample_report_unmarked) = []
  /\ process_report (lit "contig_1_c1.txt") sample_report_unmarked = [].
Proof.
  apply C8_no_marker_no_output.
  intros ln H.
  apply (PyStrFacts.all_lines_check
           (fun l => negb (is_primary l) && negb (is_fallback l))) in H.
  - apply andb_true_iff in H as [H1 H2].
    now apply negb_true_iff in H1, H2.
  - vm_compute. reflexivity.
Defined.

(* ------------------------------------------------------------------ *)
(** *** The two line parsers *)

(** C7: a hit line with at least six tab-separated fields is parsed from
    those fields alone: the gene id is the normalized first field and the
    five other columns are the stripped fields 1 to 5, whatever whitespace
    the fields contain and whatever a split on whitespace would give; in
    the table of a block, such a line that does not end the table adds
    exactly this row. *)
Theorem C7_tab_fields_take_precedence :
  forall (id : option str) (m : Meta) (ln : str),
    6 <= length (split_on TAB ln) ->
    let parts := split_on TAB ln in
    let row :=
      H.mk id (source_name m) (bgc_type m) (proteins_with_hits m)
           (cum_score m)
           (normalize_gene_id (nth 0 parts []))
           (strip (nth 1 parts [])) (strip (nth 2 parts []))
           (strip (nth 3 parts [])) (strip (nth 4 parts []))
           (strip (nth 5 parts [])) in
    hit_row_of_line id m ln = Some row
    /\ forall rest,
        ends_hits_table ln = false ->
        hit_rows id m (ln :: rest) = row :: hit_rows id m rest.
Proof.
  intros id m ln H parts row.
  assert (E : hit_row_of_line id m ln = Some row).
  { subst row parts. unfold hit_row_of_line.
    destruct (split_on TAB ln) as [|p0 [|p1 [|p2 [|p3 [|p4 [|p5 rest]]]]]];
      simpl in H; try lia.
    reflexivity. }
  split; [exact E|].
  intros rest Hend. cbn [hit_rows]. now rewrite Hend, E.
Qed.

(** C6: on a line with fewer than six tab-separated fields and at least
    six whitespace-separated tokens, the hit row is made of tokens 0 to 5
    (the gene id normalized) and of nothing else; on a line with fewer than
    five tab-separated fields and at least five tokens, the query row takes
    tokens 0 to 3 and, as annotation, all tokens from position 4 on joined
    by single spaces. *)
Theorem C6_whitespace_fallbacks :
  (forall (id : option str) (m : Meta) (ln : str),
      length (split_on TAB ln) < 6 ->
      6 <= length (split_ws ln) ->
      let toks := split_ws ln in
      hit_row_of_line id m ln
      = Some (H.mk id (source_name m) (bgc_type m) (proteins_with_hits m)
                   (cum_score m)
                   (normalize_gene_id (nth 0 toks []))
                   (nth 1 toks []) (nth 2 toks []) (nth 3 toks [])
                   (nth 4 toks []) (nth 5 toks [])))
  /\ (forall ln : str,
         length (split_on TAB ln) < 5 ->
         5 <= length (split_ws ln) ->
         let toks := split_ws ln in
         query_row_of_line ln
         = Some (Q.mk (normalize_gene_id (nth 0 toks []))
                      (nth 1 toks []) (nth 2 toks []) (nth 3 toks [])
                      (Some (join (lit " ") (skipn 4 toks))))).
Proof.
  split.
  - intros id m ln Ht Hw toks. subst toks. unfold hit_row_of_line.
    destruct (split_on TAB ln) as [|p0 [|p1 [|p2 [|p3 [|p4 [|p5 rest]]]]]];
      simpl in Ht; try lia;
      destruct (split_ws ln) as [|w0 [|w1 [|w2 [|w3 [|w4 [|w5 more]]]]]];
      simpl in Hw; try lia; reflexivity.
  - intros ln Ht Hw toks. subst toks. unfold query_row_of_line.
    destruct (split_on TAB ln) as [|p0 [|p1 [|p2 [|p3 [|p4 rest]]]]];
      simpl in Ht; try lia;
      destruct (split_ws ln) as [|w0 [|w1 [|w2 [|w3 [|w4 more]]]]];
      simpl in Hw; try lia; reflexivity.
Qed.

Lemma C7_tab_fields_take_precedence_witness :
  hit_row_of_line None no_meta sample_hit_line_tabs
  = Some (H.mk None None None None None (lit "gene A") (lit "subj B")
               (lit "95.0") (lit "300") (lit "88.0") (lit "1e-20"))
  /\ 6 <= length (split_ws sample_hit_line_tabs).
Proof.
  split.
  - apply (proj1 (C7_tab_fields_take_precedence None no_meta
                    sample_hit_line_tabs ltac:(vm_compute; lia))).
  - vm_compute. lia.
Defined.

Lemma C6_whitespace_fallbacks_witness :
  hit_row_of_line None no_meta sample_hit_line_blanks
  = Some (H.mk None None None None None (lit "geneA") (lit "subjB")
               (lit "95.0") (lit "300") (lit "88.0") (lit "1e-20"))
  /\ query_row_of_line sample_query_line_blanks
     = Some (Q.mk (lit "geneA") (lit "100") (lit "200") (lit "+")
                  (Some (lit "serine protein kinase"))).
Proof.
  split.
  - apply (proj1 C6_whitespace_fallbacks None no_meta sample_hit_line_blanks);
      vm_compute; lia.
  - apply (proj2 C6_whitespace_fallbacks sample_query_line_blanks);
      vm_compute; lia.
Defined.

(* ------------------------------------------------------------------ *)
(** *** Merge and output files *)

Module MergeFacts.
Import PyStrFacts.

Lemma unmatched_name_differs (fname : str) :
  fname ++ lit ".unmatched_rows.csv" <> fname ++ lit ".results.tsv".
Proof. intros E. apply app_inv_head in E. discriminate. Qed.

Lemma write_report_eq (fname : str) (query_df : list Q.row)
      (hits_df : list H.row) :
  hits_df <> [] ->
  write_report fname query_df hits_df
  = (match filter is_left_only (merged_of fname query_df hits_df) with
     | [] => []
     | u => [(fname ++ lit ".unmatched_rows.csv", frame u)]
     end)
    ++ [(fname ++ lit ".results.tsv",
         drop_column (lit "_merge")
                     (frame (merged_of fname query_df hits_df)))].
Proof.
  intros H. unfold write_report. destruct hits_df; [congruence|].
  now destruct (filter is_left_only _).
Qed.

Lemma cells_of_left_only (r : M.row) :
  is_left_only r = true ->
  cells_of r = firstn 16 (cells_of r) ++ [Some (lit "left_only")].
Proof.
  unfold is_left_only, cells_of. simpl.
  destruct (M._merge r); [reflexivity | discriminate].
Qed.

Lemma results_columns (df : list M.row) :
  columns (drop_column (lit "_merge") (frame df)) = firstn 16 merged_columns.
Proof. reflexivity. Qed.

Lemma results_rows (df : list M.row) :
  rows (drop_column (lit "_merge") (frame df))
  = map (fun r => firstn 16 (cells_of r)) df.
Proof.
  change (rows (drop_column (lit "_merge") (frame df)))
    with (map (remove_nth 16) (map cells_of df)).
  rewrite map_map. reflexivity.
Qed.

Lemma filter_nonempty (A : Type) (f : A -> bool) (l : list A) :
  filter f l <> [] <-> exists x, In x l /\ f x = true.
Proof.
  split.
  - destruct (filter f l) as [|x xs] eqn:E; [congruence|]. intros _.
    exists x. apply filter_In. rewrite E. now left.
  - intros (x & Hx) E. apply filter_In in Hx. rewrite E in Hx. destruct Hx.
Qed.

(** **** Cardinality of the left join *)

Lemma merge_left_length (region : str) (hits_df : list H.row)
      (right : list Q.row) :
  length (merge_left region hits_df right)
  = list_sum (map (fun h => Nat.max 1 (length (matches_of right h))) hits_df).
Proof.
  unfold merge_left. rewrite length_flat_map. f_equal.
  apply map_ext. intros h. fold (matches_of right h).
  destruct (matches_of right h) as [|q qs]; [reflexivity|].
  rewrite length_map. cbn [length]. lia.
Qed.

(** Every hit row appears at least once. *)
Lemma merge_left_length_ge (region : str) (hits_df : list H.row)
      (right : list Q.row) :
  length hits_df <= length (merge_left region hits_df right).
Proof.
  rewrite merge_left_length.
  unfold list_sum.
  induction hits_df as [|h t IH]; cbn [map fold_right length]; lia.
Qed.

Lemma matches_of_nodup (right : list Q.row) (h : H.row) :
  NoDup (map Q.query_gene right) -> length (matches_of right h) <= 1.
Proof.
  unfold matches_of. induction right as [|q t IH]; simpl; intros N; [lia|].
  inversion N as [|? ? Hnotin N']; subst.
  destruct (str_eqb (Q.query_gene q) (H.query_gene h)) eqn:E; [|auto].
  apply str_eqb_eq in E. simpl.
  assert (filter (fun q0 => str_eqb (Q.query_gene q0) (H.query_gene h)) t = [])
    as ->; [|simpl; lia].
  destruct (filter _ t) as [|q' qs] eqn:F; [reflexivity|].
  exfalso. apply Hnotin.
  assert (Hin : In q' (filter (fun q0 => str_eqb (Q.query_gene q0)
                                                 (H.query_gene h)) t))
    by (rewrite F; now left).
  apply filter_In in Hin as [Hin Hk]. apply str_eqb_eq in Hk.
  rewrite E, <- Hk. now apply in_map.
Qed.

(** With pairwise distinct keys on the query side, one row per hit. *)
Lemma merge_left_length_nodup (region : str) (hits_df : list H.row)
      (right : list Q.row) :
  NoDup (map Q.query_gene right) ->
  length (merge_left region hits_df right) = length hits_df.
Proof.
  intros N. rewrite merge_left_length.
  unfold list_sum.
  induction hits_df as [|h t IH]; [reflexivity|].
  cbn [map fold_right length]. rewrite IH.
  pose proof (@matches_of_nodup right h N). lia.
Qed.

Lemma drop_duplicates_from_keys (df : list Q.row) :
  forall seen,
    NoDup (map Q.query_gene (drop_duplicates_from seen df))
    /\ forall r, In r (drop_duplicates_from seen df) ->
                 In r df /\ ~ In (Q.query_gene r) seen.
Proof.
  induction df as [|r t IH]; intros seen; simpl.
  - split; [constructor | intros ? []].
  - destruct (existsb (str_eqb (Q.query_gene r)) seen) eqn:E.
    + destruct (IH seen) as [N Hin]. split; [exact N|].
      intros x Hx. destruct (Hin x Hx). auto.
    + destruct (IH (Q.query_gene r :: seen)) as [N Hin]. split.
      * simpl. constructor; [|exact N].
        intros Hk. apply in_map_iff in Hk as (x & Ek & Hx).
        destruct (Hin x Hx) as [_ Hn]. apply Hn. left. now symmetry.
      * intros x [<- | Hx].
        -- split; [now left|]. intros Hs.
           assert (existsb (str_eqb (Q.query_gene r)) seen = true).
           { apply existsb_exists. exists (Q.query_gene r).
             split; [exact Hs | apply str_eqb_refl]. }
           congruence.
        -- destruct (Hin x Hx) as [Hi Hn]. split; [now right|].
           intros Hs. apply Hn. now right.
Qed.

Lemma query_sub_nodup (query_df : list Q.row) :
  NoDup (map Q.query_gene (query_sub query_df)).
Proof.
  unfold query_sub. destruct query_df; [constructor|].
  apply (drop_duplicates_from_keys _ []).
Qed.

Lemma query_sub_In (query_df : list Q.row) (r : Q.row) :
  In r (query_sub query_df) -> In r query_df.
Proof.
  unfold query_sub. destruct query_df as [|q t]; [intros []|].
  intros H. now apply (drop_duplicates_from_keys (q :: t) []) in H.
Qed.

(** Where the normalization applied after [drop_duplicates] changes no
    key of the query table, the merged table has one row per hit. *)
Lemma merged_length_stable_keys (fname : str) (query_df : list Q.row)
      (hits_df : list H.row) :
  (forall q, In q query_df ->
             normalize_gene_id (Q.query_gene q) = Q.query_gene q) ->
  length (merged_of fname query_df hits_df) = length hits_df.
Proof.
  intros Hs. unfold merged_of.
  rewrite merge_left_length_nodup.
  - unfold normalize_hits_col. apply length_map.
  - unfold normalize_query_col. rewrite map_map. simpl.
    rewrite (map_ext_in _ Q.query_gene).
    + apply query_sub_nodup.
    + intros q Hq. apply Hs. now apply query_sub_In.
Qed.

End MergeFacts.

(** C9, the claim as stated fails: the unmatched-rows table is written from
    the merged frame before the [_merge] indicator is dropped, so it has
    one column more than the results table.  On the sample report, whose
    second hit names a gene absent from the query table, the two files have
    17 and 16 columns. *)
Lemma C9_counterexample_extra_column :
  map (fun f => (fst f, columns (snd f)))
      (process_report (lit "contig_1_c1.txt") sample_report)
  = [(lit "contig_1_c1.txt.unmatched_rows.csv", merged_columns);
     (lit "contig_1_c1.txt.results.tsv", firstn 16 merged_columns)]
  /\ merged_columns <> firstn 16 merged_columns.
Proof. split; [vm_compute; reflexivity | vm_compute; discriminate]. Qed.

(** C9, amended: the unmatched-rows file of a report is written if and
    only if at least one merged row has no query-side match; its rows are
    exactly the merged rows without a match, in order, and its columns are
    the columns of the results table followed by one more column,
    [_merge], whose value is [left_only] in every row. *)
Theorem C9_unmatched_rows_file :
  forall (fname : str) (query_df : list Q.row) (hits_df : list H.row),
    let merged := merged_of fname query_df hits_df in
    let results := drop_column (lit "_merge") (frame merged) in
    let out := write_report fname query_df hits_df in
    ((exists t, In (fname ++ lit ".unmatched_rows.csv", t) out)
     <-> (exists r, In r merged /\ M._merge r = M.left_only))
    /\ (forall t,
           In (fname ++ lit ".unmatched_rows.csv", t) out ->
           columns t = columns results ++ [lit "_merge"]
           /\ rows t
              = map (fun r => firstn 16 (cells_of r) ++ [Some (lit "left_only")])
                    (filter is_left_only merged))
    /\ (hits_df <> [] -> In (fname ++ lit ".results.tsv", results) out)
    /\ columns results = firstn 16 merged_columns
    /\ rows results = map (fun r => firstn 16 (cells_of r)) merged.
Proof.
  intros fname query_df hits_df merged results out.
  assert (Hout :
            out = (match filter is_left_only merged with
                   | [] => []
                   | u => [(fname ++ lit ".unmatched_rows.csv", frame u)]
                   end)
                  ++ (match hits_df with
                      | [] => []
                      | _ => [(fname ++ lit ".results.tsv", results)]
                      end)).
  { subst out results merged. destruct hits_df as [|h t]; [reflexivity|].
    now rewrite MergeFacts.write_report_eq. }
  assert (Hu : forall t,
             In (fname ++ lit ".unmatched_rows.csv", t) out
             -> filter is_left_only merged <> []
                /\ t = frame (filter is_left_only merged)).
  { intros t Hin. rewrite Hout in Hin. apply in_app_or in Hin as [Hin | Hin].
    - destruct (filter is_left_only merged) as [|u us] eqn:E; [destruct Hin|].
      destruct Hin as [Hin | []]. injection Hin as <-. split; congruence.
    - destruct hits_df; [destruct Hin|]. destruct Hin as [Hin | []].
      injection Hin as Hn _. symmetry in Hn.
      now apply MergeFacts.unmatched_name_differs in Hn. }
  split; [|split; [|split; [|split]]].
  - split.
    + intros [t Hin]. apply Hu in Hin as [Hn _].
      apply MergeFacts.filter_nonempty in Hn as (r & Hr & Hl).
      exists r. split; [exact Hr|].
      unfold is_left_only in Hl. now destruct (M._merge r).
    + intros (r & Hr & Hl).
      assert (Hn : filter is_left_only merged <> []).
      { apply MergeFacts.filter_nonempty. exists r. split; [exact Hr|].
        unfold is_left_only. now rewrite Hl. }
      exists (frame (filter is_left_only merged)).
      rewrite Hout. apply in_or_app. left.
      destruct (filter is_left_only merged); [congruence | now left].
  - intros t Hin. apply Hu in Hin as [_ ->]. split; [reflexivity|].
    simpl. apply map_ext_in. intros r Hr. apply filter_In in Hr as [_ Hl].
    now apply MergeFacts.cells_of_left_only.
  - intros Hne. rewrite Hout. apply in_or_app. right.
    destruct hits_df; [congruence | now left].
  - apply MergeFacts.results_columns.
  - apply MergeFacts.results_rows.
Qed.

Lemma C9_unmatched_rows_file_witness :
  parse_file sample_report = (sample_query_df, sample_hits_df)
  /\ sample_hits_df <> []
  /\ In (lit "contig_1_c1.txt" ++ lit ".results.tsv",
         drop_column (lit "_merge")
           (frame (merged_of (lit "contig_1_c1.txt") sample_query_df
                             sample_hits_df)))
        (write_report (lit "contig_1_c1.txt") sample_query_df sample_hits_df)
  /\ ((exists t, In (lit "contig_1_c1.txt" ++ lit ".unmatched_rows.csv", t)
                    (write_report (lit "contig_1_c1.txt") sample_query_df
                                  sample_hits_df))
      <-> (exists r,
              In r (merged_of (lit "contig_1_c1.txt") sample_query_df
                              sample_hits_df)
              /\ M._merge r = M.left_only)).
Proof.
  split; [vm_compute; reflexivity|].
  split; [discriminate|].
  split.
  - apply (proj1 (proj2 (proj2 (C9_unmatched_rows_file
             (lit "contig_1_c1.txt") sample_query_df sample_hits_df)))).
    discriminate.
  - exact (proj1 (C9_unmatched_rows_file (lit "contig_1_c1.txt")
                    sample_query_df sample_hits_df)).
Defined.

(** C1, on the report with the layered gene id: the query table has two
    rows whose keys still differ when [drop_duplicates] runs and are both
    [a] after the normalization that follows it, so the single hit row of
    the report appears twice in the merged table. *)
Theorem C1_merge_repeats_hit_row :
  splitlines sample_text_layered = sample_report_layered
  /\ map Q.query_gene (fst (parse_text sample_text_layered))
     = [lit "a"; lit "a" ++ [US]]
  /\ map Q.query_gene
         (normalize_query_col
            (query_sub (fst (parse_text sample_text_layered))))
     = [lit "a"; lit "a"]
  /\ length (snd (parse_text sample_text_layered)) = 1
  /\ length (merged_of (lit "contig_1_c1.txt")
                       (fst (parse_text sample_text_layered))
                       (snd (parse_text sample_text_layered))) = 2
  /\ map (fun f => (fst f, length (rows (snd f))))
         (process_report (lit "contig_1_c1.txt") sample_report_layered)
     = [(lit "contig_1_c1.txt.results.tsv", 2)].
Proof. repeat split; vm_compute; reflexivity. Qed.

(* ------------------------------------------------------------------ *)
(** *** The scenarios of the sample report *)

Example sample_report_parsed :
  parse_file sample_report = (sample_query_df, sample_hits_df).
Proof. vm_compute. reflexivity. Qed.

Example sample_report_merged :
  map (fun r => (H.query_gene (M.hit r), M.region r, M.start r,
                 M.annotation r, M._merge r))
      (merged_of (lit "contig_1_c1.txt") sample_query_df sample_hits_df)
  = [(lit "geneA", lit "c1", Some (lit "100"), Some (lit "kinase"), M.both);
     (lit "geneX", lit "c1", None, None, M.left_only)].
Proof. vm_compute. reflexivity. Qed.

Example region_of_tagged_names :
  region_clean (lit "contig_1_c10.txt") = lit "c10"
  /\ region_clean (lit "contig_1_C10_c3.txt") = lit "C10"
  /\ region_clean (lit "contig_1_cab10x.txt") = lit "cab10".
Proof. repeat split; vm_compute; reflexivity. Qed.

(* ================================================================== *)
(** ** Further properties: the two tables of a report *)

Module TableFacts.
Import PyStrFacts.

Lemma hit_rows_unfold (id : option str) (m : Meta) (ln : str)
      (rest : list str) :
  hit_rows id m (ln :: rest)
  = if ends_hits_table ln then []
    else match hit_row_of_line id m ln with
         | Some r => r :: hit_rows id m rest
         | None => hit_rows id m rest
         end.
Proof. reflexivity. Qed.

Lemma query_rows_unfold (ln0 : str) (rest : list str) :
  query_rows (ln0 :: rest)
  = if ends_query_table (rstrip_chars [LF] ln0) then []
    else match query_row_of_line (rstrip_chars [LF] ln0) with
         | Some r => r :: query_rows rest
         | None => query_rows rest
         end.
Proof. reflexivity. Qed.

Lemma hit_rows_cut (id : option str) (m : Meta) (t : str)
      (post : list str) :
  ends_hits_table t = true ->
  forall pre, hit_rows id m (pre ++ t :: post) = hit_rows id m pre.
Proof.
  intros Ht. induction pre as [|l pre IH].
  - simpl app. now rewrite hit_rows_unfold, Ht.
  - change ((l :: pre) ++ t :: post) with (l :: (pre ++ t :: post)).
    rewrite !hit_rows_unfold, IH. reflexivity.
Qed.

Lemma query_rows_cut (t : str) (post : list str) :
  ends_query_table (rstrip_chars [LF] t) = true ->
  forall pre, query_rows (pre ++ t :: post) = query_rows pre.
Proof.
  intros Ht. induction pre as [|l pre IH].
  - simpl app. now rewrite query_rows_unfold, Ht.
  - change ((l :: pre) ++ t :: post) with (l :: (pre ++ t :: post)).
    rewrite !query_rows_unfold, IH. reflexivity.
Qed.

Lemma short_list (A : Type) (n : nat) (l : list A) :
  length l < n -> nth_error l (n - 1) = None.
Proof. intros H. apply nth_error_None. lia. Qed.

Lemma hit_row_of_line_none (id : option str) (m : Meta) (ln : str) :
  length (split_on TAB ln) < 6 -> length (split_ws ln) < 6 ->
  hit_row_of_line id m ln = None.
Proof.
  intros Ht Hw. unfold hit_row_of_line.
  destruct (split_on TAB ln) as [|p0 [|p1 [|p2 [|p3 [|p4 [|p5 rest]]]]]];
    simpl in Ht; try lia;
    destruct (split_ws ln) as [|w0 [|w1 [|w2 [|w3 [|w4 [|w5 more]]]]]];
    simpl in Hw; try lia; reflexivity.
Qed.

Lemma query_row_of_line_none (ln : str) :
  length (split_on TAB ln) < 5 -> length (split_ws ln) < 5 ->
  query_row_of_line ln = None.
Proof.
  intros Ht Hw. unfold query_row_of_line.
  destruct (split_on TAB ln) as [|p0 [|p1 [|p2 [|p3 [|p4 rest]]]]];
    simpl in Ht; try lia;
    destruct (split_ws ln) as [|w0 [|w1 [|w2 [|w3 [|w4 more]]]]];
    simpl in Hw; try lia; reflexivity.
Qed.

Lemma after_hits_header_none (block : list str) :
  (forall l, In l block ->
             startswith (strip l) (lit "Table of Blast hits") = false) ->
  after_hits_header block = None.
Proof.
  induction block as [|l b IH]; intros H; [reflexivity|].
  cbn [after_hits_header]. rewrite (H l (or_introl eq_refl)).
  apply IH. intros x Hx. apply H. now right.
Qed.

Lemma after_hits_header_first (pre tbl : list str) (hdr : str) :
  (forall l, In l pre ->
             startswith (strip l) (lit "Table of Blast hits") = false) ->
  startswith (strip hdr) (lit "Table of Blast hits") = true ->
  after_hits_header (pre ++ hdr :: tbl) = Some tbl.
Proof.
  intros Hpre Hh. induction pre as [|l pre IH].
  - simpl app. cbn [after_hits_header]. now rewrite Hh.
  - change ((l :: pre) ++ hdr :: tbl) with (l :: (pre ++ hdr :: tbl)).
    cbn [after_hits_header]. rewrite (Hpre l (or_introl eq_refl)).
    apply IH. intros x Hx. apply Hpre. now right.
Qed.

Lemma find_query_block_none (lines : list str) :
  (forall l, In l lines -> startswith (strip l) query_header = false) ->
  find_query_block lines = [].
Proof.
  induction lines as [|l b IH]; intros H; [reflexivity|].
  cbn [find_query_block]. rewrite (H l (or_introl eq_refl)).
  apply IH. intros x Hx. apply H. now right.
Qed.

Lemma find_query_block_first (pre tail : list str) (hdr : str) :
  (forall l, In l pre -> startswith (strip l) query_header = false) ->
  startswith (strip hdr) query_header = true ->
  find_query_block (pre ++ hdr :: tail) = parse_query_cluster_block tail.
Proof.
  intros Hpre Hh. induction pre as [|l pre IH].
  - simpl app. cbn [find_query_block]. now rewrite Hh.
  - change ((l :: pre) ++ hdr :: tail) with (l :: (pre ++ hdr :: tail)).
    cbn [find_query_block]. rewrite (Hpre l (or_introl eq_refl)).
    apply IH. intros x Hx. apply Hpre. now right.
Qed.

(** [strip] of a string of whitespace is the empty string. *)
Lemma strip_blank (s : str) : blank s = true -> strip s = [].
Proof.
  intros H. unfold strip, rstrip, lstrip.
  rewrite <- (app_nil_r s), dropWhile_all by exact H. reflexivity.
Qed.

End TableFacts.

(** X1: in the table of hits of a block, nothing from the first line that
    ends the table on is read: whatever follows an empty line, a line
    starting with [>>] or a numbered BGC line adds no hit row, even when it
    has the shape of a hit line; likewise the query table ends at its first
    empty, [Significant hits:] or [Details:] line. *)
Theorem X1_tables_end_at_first_terminator :
  (forall (id : option str) (m : Meta) (pre post : list str) (t : str),
      ends_hits_table t = true ->
      hit_rows id m (pre ++ t :: post) = hit_rows id m pre)
  /\ (forall (pre post : list str) (t : str),
         ends_query_table (rstrip_chars [LF] t) = true ->
         query_rows (pre ++ t :: post) = query_rows pre).
Proof.
  split.
  - intros id m pre post t H. now apply TableFacts.hit_rows_cut.
  - intros pre post t H. now apply TableFacts.query_rows_cut.
Qed.

Lemma X1_tables_end_at_first_terminator_witness :
  hit_rows None no_meta
           (firstn 1 (skipn 4 sample_block_two_tables)
            ++ [] :: skipn 6 sample_block_two_tables)
  = hit_rows None no_meta (firstn 1 (skipn 4 sample_block_two_tables))
  /\ query_rows (sample_query_table ++ lit "Details:" :: sample_query_table)
     = query_rows sample_query_table.
Proof.
  split.
  - apply (proj1 X1_tables_end_at_first_terminator). vm_compute. reflexivity.
  - apply (proj2 X1_tables_end_at_first_terminator). vm_compute. reflexivity.
Defined.

(** X2: a line that does not end the table and has neither enough
    tab-separated fields nor enough whitespace-separated tokens (six for a
    hit, five for a query gene) is passed over: it adds no row and the
    lines after it are still read. *)
Theorem X2_malformed_lines_are_skipped :
  (forall (id : option str) (m : Meta) (ln : str) (rest : list str),
      ends_hits_table ln = false ->
      length (split_on TAB ln) < 6 -> length (split_ws ln) < 6 ->
      hit_rows id m (ln :: rest) = hit_rows id m rest)
  /\ (forall (ln : str) (rest : list str),
         ends_query_table (rstrip_chars [LF] ln) = false ->
         length (split_on TAB (rstrip_chars [LF] ln)) < 5 ->
         length (split_ws (rstrip_chars [LF] ln)) < 5 ->
         query_rows (ln :: rest) = query_rows rest).
Proof.
  split.
  - intros id m ln rest He Ht Hw.
    now rewrite TableFacts.hit_rows_unfold, He,
      TableFacts.hit_row_of_line_none.
  - intros ln rest He Ht Hw.
    now rewrite TableFacts.query_rows_unfold, He,
      TableFacts.query_row_of_line_none.
Qed.

Lemma X2_malformed_lines_are_skipped_witness :
  hit_rows None no_meta (sample_noise_line :: [sample_hit_line_blanks])
  = hit_rows None no_meta [sample_hit_line_blanks]
  /\ query_rows (sample_noise_line :: [sample_query_line_blanks])
     = query_rows [sample_query_line_blanks].
Proof.
  split.
  - apply (proj1 X2_malformed_lines_are_skipped);
      vm_compute; first [reflexivity | lia].
  - apply (proj2 X2_malformed_lines_are_skipped);
      vm_compute; first [reflexivity | lia].
Defined.

(** X3: a block in which no line starts with [Table of Blast hits]
    contributes no hit row; otherwise the rows of the block are read from
    the lines that follow the first such line, each with the metadata of
    the whole block. *)
Theorem X3_block_hits_follow_first_header :
  (forall block : list str,
      (forall l, In l block ->
                 startswith (strip l) (lit "Table of Blast hits") = false) ->
      parse_block block = [])
  /\ (forall (pre tbl : list str) (hdr : str),
         (forall l, In l pre ->
                    startswith (strip l) (lit "Table of Blast hits") = false) ->
         startswith (strip hdr) (lit "Table of Blast hits") = true ->
         let m := block_metadata (pre ++ hdr :: tbl) in
         parse_block (pre ++ hdr :: tbl) = hit_rows (bgc_id_clean m) m tbl).
Proof.
  split.
  - intros block H. unfold parse_block.
    now rewrite TableFacts.after_hits_header_none.
  - intros pre tbl hdr Hpre Hh m. subst m. unfold parse_block.
    now rewrite TableFacts.after_hits_header_first.
Qed.

Lemma X3_block_hits_follow_first_header_witness :
  parse_block sample_block_dashed = []
  /\ parse_block (firstn 3 sample_block_two_tables
                  ++ hits_header :: skipn 4 sample_block_two_tables)
     = hit_rows (Some (lit "BGC0001089"))
                (mkMeta (Some (lit "BGC0001089.5")) (Some (lit "bacillaene"))
                        None None None)
                (skipn 4 sample_block_two_tables).
Proof.
  split.
  - apply (proj1 X3_block_hits_follow_first_header).
    apply (PyStrFacts.none_lines_check
             (fun l => startswith (strip l) (lit "Table of Blast hits"))).
    vm_compute. reflexivity.
  - rewrite (proj2 X3_block_hits_follow_first_header).
    + f_equal; vm_compute; reflexivity.
    + apply (PyStrFacts.none_lines_check
               (fun l => startswith (strip l) (lit "Table of Blast hits"))).
      vm_compute. reflexivity.
    + vm_compute. reflexivity.
Defined.

(** X4: on a query line with at least five tab-separated fields the row is
    made of the normalized first field and the stripped fields 1 to 3, any
    field after the fifth being ignored; the annotation is missing exactly
    when the fifth field is the empty string, and a fifth field made of
    whitespace only gives the empty string as annotation, not a missing
    value. *)
Theorem X4_query_annotation_field :
  forall (ln p0 p1 p2 p3 p4 : str) (rest : list str),
    split_on TAB ln = p0 :: p1 :: p2 :: p3 :: p4 :: rest ->
    exists ann,
      query_row_of_line ln
      = Some (Q.mk (normalize_gene_id p0) (strip p1) (strip p2) (strip p3) ann)
      /\ (ann = None <-> p4 = [])
      /\ (p4 <> [] -> ann = Some (strip p4))
      /\ (p4 <> [] -> blank p4 = true -> ann = Some []).
Proof.
  intros ln p0 p1 p2 p3 p4 rest E.
  exists (if is_empty p4 then None else Some (strip p4)).
  unfold query_row_of_line. rewrite E.
  split; [reflexivity|].
  destruct p4 as [|c p4]; simpl.
  - repeat split; congruence.
  - repeat split; try congruence.
    intros _ B. now rewrite (TableFacts.strip_blank (c :: p4) B).
Qed.

Lemma X4_query_annotation_field_witness :
  query_row_of_line sample_query_line_blank_annotation
  = Some (Q.mk (lit "geneA") (lit "100") (lit "200") (lit "+") (Some []))
  /\ query_row_of_line sample_query_line_no_annotation
     = Some (Q.mk (lit "geneA") (lit "100") (lit "200") (lit "+") None).
Proof.
  split.
  - destruct (X4_query_annotation_field
                sample_query_line_blank_annotation
                (p0 := lit "geneA") (p1 := lit "100") (p2 := lit "200")
                (p3 := lit "+") (p4 := lit "  ") (rest := [lit "extra"])
                ltac:(vm_compute; reflexivity))
      as (ann & E & _ & _ & B).
    rewrite E, B; [vm_compute; reflexivity | discriminate | reflexivity].
  - destruct (X4_query_annotation_field
                sample_query_line_no_annotation
                (p0 := lit "geneA") (p1 := lit "100") (p2 := lit "200")
                (p3 := lit "+") (p4 := []) (rest := [lit "extra"])
                ltac:(vm_compute; reflexivity))
      as (ann & E & N & _).
    rewrite E, (proj2 N eq_refl). vm_compute. reflexivity.
Defined.

(** X5: the query table of a report is the one that follows the first line
    starting with the header [Table of genes, locations, strands and
    annotations of query cluster:]; a later header line does not start
    another table, and a report without the header has an empty query
    table. *)
Theorem X5_query_table_follows_first_header :
  (forall lines : list str,
      (forall l, In l lines -> startswith (strip l) query_header = false) ->
      fst (parse_file lines) = [])
  /\ (forall (pre tail : list str) (hdr : str),
         (forall l, In l pre -> startswith (strip l) query_header = false) ->
         startswith (strip hdr) query_header = true ->
         fst (parse_file (pre ++ hdr :: tail))
         = normalize_query_col (parse_query_cluster_block tail)).
Proof.
  split.
  - intros lines H. unfold parse_file. cbn [fst].
    now rewrite TableFacts.find_query_block_none.
  - intros pre tail hdr Hpre Hh. unfold parse_file. cbn [fst].
    now rewrite TableFacts.find_query_block_first.
Qed.

Lemma X5_query_table_follows_first_header_witness :
  fst (parse_file sample_report_numbered) = []
  /\ fst (parse_file ([lit "ClusterBlast scores"]
                      ++ query_header :: sample_query_table
                      ++ [] :: query_header :: sample_query_table))
     = normalize_query_col
         (parse_query_cluster_block
            (sample_query_table ++ [] :: query_header :: sample_query_table)).
Proof.
  split.
  - apply (proj1 X5_query_table_follows_first_header).
    apply (PyStrFacts.none_lines_check
             (fun l => startswith (strip l) query_header)).
    vm_compute. reflexivity.
  - apply (proj2 X5_query_table_follows_first_header).
    + apply (PyStrFacts.none_lines_check
               (fun l => startswith (strip l) query_header)).
      vm_compute. reflexivity.
    + vm_compute. reflexivity.
Defined.

(* ================================================================== *)
(** ** Further properties: block metadata *)

Module AbsentFacts.
Import PyStrFacts.

Section Field.
Variable field : Meta -> option str.
Variable test : str -> bool.
Variable value : str -> option str.
Hypothesis step :
  forall m ln,
    field (header_step m ln) = if test ln then value ln else field m.
Hypothesis value_some : forall ln, test ln = true -> value ln <> None.

(** A field is still missing after the scan exactly when it was missing
    before and no line matched. *)
Lemma scan_none_iff (window : list str) :
  forall m,
    field (scan_header m window) = None
    <-> field m = None /\ forall l, In l window -> test l = false.
Proof.
  induction window as [|l w IH]; intros m.
  - simpl. split; [intros H; split; [exact H | intros ? []] | now intros [H _]].
  - change (scan_header m (l :: w)) with (scan_header (header_step m l) w).
    rewrite IH, step. split.
    + intros [H Hw]. destruct (test l) eqn:T.
      * now apply value_some in T.
      * split; [exact H|]. intros x [<- | Hx]; auto.
    + intros [H Hw]. rewrite (Hw l (or_introl eq_refl)).
      split; [exact H|]. intros x Hx. apply Hw. now right.
Qed.
End Field.

Lemma value_after_source_some (ln : str) :
  startswith (strip ln) lbl_source = true ->
  value_after lbl_source (strip ln) <> None.
Proof. intros H. now rewrite MetaFacts.value_after_source. Qed.

Lemma value_after_type_some (ln : str) :
  startswith (strip ln) lbl_type = true ->
  value_after lbl_type (strip ln) <> None.
Proof. intros H. now rewrite MetaFacts.value_after_type. Qed.

Lemma value_after_proteins_some (ln : str) :
  startswith (strip ln) lbl_proteins = true ->
  value_after (lit ":") (strip ln) <> None.
Proof. intros H. now rewrite MetaFacts.value_after_proteins. Qed.

Lemma value_after_cum_some (ln : str) :
  startswith (strip ln) lbl_cum = true ->
  value_after (lit ":") (strip ln) <> None.
Proof. intros H. now rewrite MetaFacts.value_after_cum. Qed.

Lemma header_step_bgc_id_none (m : Meta) (ln : str) :
  bgc_id (header_step m ln) = None
  <-> bgc_id m = None
      /\ re_match re_m_bgc (strip ln) = None
      /\ re_match re_m2 (strip ln) = None.
Proof.
  rewrite MetaFacts.header_step_bgc_id. cbv zeta.
  destruct (re_match re_m_bgc (strip ln)) as [mo|];
    destruct (re_match re_m2 (strip ln)) as [mo2|];
    destruct (bgc_id m) as [[|c i]|]; simpl;
    try destruct (group1 mo); simpl;
    intuition (try discriminate; try congruence).
Qed.

Lemma scan_bgc_id_none (window : list str) :
  forall m,
    bgc_id (scan_header m window) = None
    <-> bgc_id m = None
        /\ forall l, In l window ->
                     re_match re_m_bgc (strip l) = None
                     /\ re_match re_m2 (strip l) = None.
Proof.
  induction window as [|l w IH]; intros m.
  - simpl. split; [intros H; split; [exact H | intros ? []] | now intros [H _]].
  - change (scan_header m (l :: w)) with (scan_header (header_step m l) w).
    rewrite IH, header_step_bgc_id_none. split.
    + intros [(H & H1 & H2) Hw]. split; [exact H|].
      intros x [<- | Hx]; auto.
    + intros [H Hw]. destruct (Hw l (or_introl eq_refl)) as [H1 H2].
      split; [now repeat split|]. intros x Hx. apply Hw. now right.
Qed.

End AbsentFacts.

(** X6: a metadata field of a block is missing exactly when no line of the
    15-line window matches it: the name, type, protein-hit count and
    cumulative score when no line starts with their label, the identifier
    when no line matches either identifier pattern.  A label with nothing
    after it gives an empty string, not a missing value. *)
Theorem X6_metadata_missing_iff_no_match :
  forall block : list str,
    let m := block_metadata block in
    let window := firstn 15 block in
    (bgc_id m = None
     <-> forall l, In l window ->
                   re_match re_m_bgc (strip l) = None
                   /\ re_match re_m2 (strip l) = None)
    /\ (source_name m = None
        <-> forall l, In l window -> startswith (strip l) lbl_source = false)
    /\ (bgc_type m = None
        <-> forall l, In l window -> startswith (strip l) lbl_type = false)
    /\ (proteins_with_hits m = None
        <-> forall l, In l window -> startswith (strip l) lbl_proteins = false)
    /\ (cum_score m = None
        <-> forall l, In l window -> startswith (strip l) lbl_cum = false).
Proof.
  intros block m window. subst m window. unfold block_metadata.
  assert (T : forall P : Prop, (True /\ P) <-> P) by tauto.
  split; [|split; [|split; [|split]]].
  - rewrite AbsentFacts.scan_bgc_id_none. simpl. split.
    + now intros [_ H]. 
    + intros H. now split.
  - rewrite (AbsentFacts.scan_none_iff source_name
               (fun l => startswith (strip l) lbl_source)
               (fun l => value_after lbl_source (strip l))
               MetaFacts.header_step_source
               AbsentFacts.value_after_source_some).
    simpl. split; [now intros [_ H] | intros H; now split].
  - rewrite (AbsentFacts.scan_none_iff bgc_type
               (fun l => startswith (strip l) lbl_type)
               (fun l => value_after lbl_type (strip l))
               MetaFacts.header_step_type
               AbsentFacts.value_after_type_some).
    simpl. split; [now intros [_ H] | intros H; now split].
  - rewrite (AbsentFacts.scan_none_iff proteins_with_hits
               (fun l => startswith (strip l) lbl_proteins)
               (fun l => value_after (lit ":") (strip l))
               MetaFacts.header_step_proteins
               AbsentFacts.value_after_proteins_some).
    simpl. split; [now intros [_ H] | intros H; now split].
  - rewrite (AbsentFacts.scan_none_iff cum_score
               (fun l => startswith (strip l) lbl_cum)
               (fun l => value_after (lit ":") (strip l))
               MetaFacts.header_step_cum
               AbsentFacts.value_after_cum_some).
    simpl. split; [now intros [_ H] | intros H; now split].
Qed.

Lemma X6_metadata_missing_iff_no_match_witness :
  source_name (block_metadata sample_block_dashed) = None
  /\ block_metadata [lit "Source:"]
     = mkMeta None (Some []) None None None.
Proof.
  split.
  - apply (proj1 (proj2 (X6_metadata_missing_iff_no_match
                           sample_block_dashed))).
    apply (PyStrFacts.none_lines_check
             (fun l => startswith (strip l) lbl_source)).
    vm_compute. reflexivity.
  - vm_compute. reflexivity.
Defined.

(** X7: when no line of the window matches the first identifier pattern,
    the identifier is group 1 of the first line that matches the second
    pattern, [^\d+\.\s+(BGC[0-9\.\-]+)]: for this pattern a later matching
    line does not replace the value. *)
Theorem X7_second_pattern_first_match :
  forall (block pre post : list str) (ln : str) (m2 : str * option str),
    firstn 15 block = pre ++ ln :: post ->
    (forall l, In l (firstn 15 block) ->
               re_match re_m_bgc (strip l) = None) ->
    (forall l, In l pre -> re_match re_m2 (strip l) = None) ->
    re_match re_m2 (strip ln) = Some m2 ->
    bgc_id (block_metadata block) = Some (group1 m2).
Proof.
  intros block pre post ln m2 W Hno Hpre Hln.
  unfold block_metadata. rewrite W in *.
  unfold scan_header. rewrite fold_left_app. cbn [fold_left].
  fold (scan_header no_meta pre).
  fold (scan_header (header_step (scan_header no_meta pre) ln) post).
  assert (Hp : bgc_id (scan_header no_meta pre) = None).
  { apply AbsentFacts.scan_bgc_id_none. split; [reflexivity|].
    intros l Hl. split; [|now apply Hpre].
    apply Hno. apply in_or_app. now left. }
  assert (Hs : bgc_id (header_step (scan_header no_meta pre) ln)
               = Some (group1 m2)).
  { rewrite MetaFacts.header_step_bgc_id, Hln, Hp.
    rewrite (Hno ln) by (apply in_or_app; right; now left).
    reflexivity. }
  rewrite MetaFacts.scan_bgc_id_kept; [exact Hs | |].
  - rewrite Hs. destruct (MetaFacts.m2_group _ Hln) as [N _].
    destruct (group1 m2); [congruence | reflexivity].
  - intros l Hl. apply Hno. apply in_or_app. right. now right.
Qed.

Lemma X7_second_pattern_first_match_witness :
  bgc_id (block_metadata sample_block_dashed) = Some (lit "BGC-77.2").
Proof.
  apply (@X7_second_pattern_first_match sample_block_dashed
           (firstn 2 sample_block_dashed) (skipn 3 sample_block_dashed)
           (lit "1. BGC-77.2") ([], Some (lit "BGC-77.2"))).
  - vm_compute. reflexivity.
  - intros l H.
    apply (PyStrFacts.all_lines_check
             (fun l => match re_match re_m_bgc (strip l) with
                       | None => true | Some _ => false end)) in H.
    + now destruct (re_match re_m_bgc (strip l)).
    + vm_compute. reflexivity.
  - intros l H.
    apply (PyStrFacts.all_lines_check
             (fun l => match re_match re_m2 (strip l) with
                       | None => true | Some _ => false end)) in H.
    + now destruct (re_match re_m2 (strip l)).
    + vm_compute. reflexivity.
  - vm_compute. reflexivity.
Defined.

(* ================================================================== *)
(** ** Further properties: the left join *)

Module JoinFacts.
Import PyStrFacts.

Lemma merge_left_In (region : str) (hits_df : list H.row)
      (right : list Q.row) (r : M.row) :
  In r (merge_left region hits_df right)
  <-> exists h,
      In h hits_df
      /\ ((matches_of right h = [] /\ r = unmatched_row region h)
          \/ exists q, In q (matches_of right h) /\ r = merge_row region h q).
Proof.
  unfold merge_left. rewrite in_flat_map. split.
  - intros (h & Hh & Hr). exists h. split; [exact Hh|].
    fold (matches_of right h) in Hr.
    destruct (matches_of right h) as [|q qs] eqn:E.
    + left. destruct Hr as [<- | []]. now split.
    + right. apply in_map_iff in Hr as (q' & <- & Hq). now exists q'.
  - intros (h & Hh & [[E ->] | (q & Hq & ->)]); exists h;
      (split; [exact Hh|]); fold (matches_of right h).
    + rewrite E. now left.
    + destruct (matches_of right h) as [|q0 qs]; [destruct Hq|].
      now apply in_map.
Qed.

Lemma matches_of_In (right : list Q.row) (h : H.row) (q : Q.row) :
  In q (matches_of right h)
  <-> In q right /\ Q.query_gene q = H.query_gene h.
Proof.
  unfold matches_of. rewrite filter_In. now rewrite str_eqb_eq.
Qed.

Lemma matches_of_nil (right : list Q.row) (h : H.row) :
  matches_of right h = []
  <-> forall q, In q right -> Q.query_gene q <> H.query_gene h.
Proof.
  split.
  - intros E q Hq Hk.
    assert (In q (matches_of right h)) by now apply matches_of_In.
    rewrite E in H. destruct H.
  - intros H. destruct (matches_of right h) as [|q qs] eqn:E; [reflexivity|].
    assert (Hq : In q (matches_of right h)) by (rewrite E; now left).
    apply matches_of_In in Hq as [Hq Hk]. now destruct (H q Hq).
Qed.

Lemma map_hit_merge_row (region : str) (h : H.row) (qs : list Q.row) :
  map M.hit (map (merge_row region h) qs) = repeat h (length qs).
Proof. induction qs as [|q qs IH]; simpl; [reflexivity | now rewrite IH]. Qed.

(** Each hit row appears, in its place, once per query row of its key and
    once when there is none. *)
Lemma merge_left_hits (region : str) (hits_df : list H.row)
      (right : list Q.row) :
  map M.hit (merge_left region hits_df right)
  = flat_map (fun h => repeat h (Nat.max 1 (length (matches_of right h))))
             hits_df.
Proof.
  unfold merge_left. induction hits_df as [|h t IH]; [reflexivity|].
  cbn [flat_map]. rewrite map_app, IH. f_equal.
  fold (matches_of right h).
  destruct (matches_of right h) as [|q qs]; [reflexivity|].
  rewrite map_hit_merge_row. reflexivity.
Qed.

Lemma flat_map_repeat_one (A : Type) (f : A -> nat) (l : list A) :
  (forall x, In x l -> f x = 1) -> flat_map (fun x => repeat x (f x)) l = l.
Proof.
  induction l as [|a l IH]; intros H; [reflexivity|].
  cbn [flat_map]. rewrite (H a (or_introl eq_refl)), IH; [reflexivity|].
  intros x Hx. apply H. now right.
Qed.

Lemma merge_left_hits_nodup (region : str) (hits_df : list H.row)
      (right : list Q.row) :
  NoDup (map Q.query_gene right) ->
  map M.hit (merge_left region hits_df right) = hits_df.
Proof.
  intros N. rewrite merge_left_hits. apply flat_map_repeat_one.
  intros h _. pose proof (@MergeFacts.matches_of_nodup right h N). lia.
Qed.

Lemma normalize_query_col_keys (df : list Q.row) :
  map Q.query_gene (normalize_query_col df)
  = map (fun q => normalize_gene_id (Q.query_gene q)) df.
Proof. unfold normalize_query_col. now rewrite map_map. Qed.

(** [drop_duplicates] with the keys already seen. *)
Lemma drop_duplicates_from_first (df : list Q.row) :
  forall seen r,
    In r (drop_duplicates_from seen df) ->
    find (fun x => str_eqb (Q.query_gene x) (Q.query_gene r)) df = Some r
    /\ ~ In (Q.query_gene r) seen.
Proof.
  induction df as [|x rest IH]; intros seen r Hr; [destruct Hr|].
  cbn [drop_duplicates_from] in Hr. cbn [find].
  destruct (existsb (str_eqb (Q.query_gene x)) seen) eqn:E.
  - destruct (IH seen r Hr) as [Hf Hn]. split; [|exact Hn].
    destruct (str_eqb (Q.query_gene x) (Q.query_gene r)) eqn:K; [|exact Hf].
    apply str_eqb_eq in K. exfalso. apply Hn.
    apply existsb_exists in E as (k & Hk & Ek).
    apply str_eqb_eq in Ek. congruence.
  - assert (Hx : ~ In (Q.query_gene x) seen).
    { intros Hs.
      assert (existsb (str_eqb (Q.query_gene x)) seen = true).
      { apply existsb_exists. exists (Q.query_gene x).
        split; [exact Hs | apply str_eqb_refl]. }
      congruence. }
    destruct Hr as [<- | Hr].
    + rewrite str_eqb_refl. now split.
    + destruct (IH (Q.query_gene x :: seen) r Hr) as [Hf Hn].
      split; [|intros Hs; apply Hn; now right].
      destruct (str_eqb (Q.query_gene x) (Q.query_gene r)) eqn:K; [|exact Hf].
      apply str_eqb_eq in K. exfalso. apply Hn. now left.
Qed.

Lemma drop_duplicates_from_keys_iff (df : list Q.row) :
  forall seen k,
    In k (map Q.query_gene (drop_duplicates_from seen df))
    <-> In k (map Q.query_gene df) /\ ~ In k seen.
Proof.
  induction df as [|x rest IH]; intros seen k.
  - simpl. tauto.
  - cbn [drop_duplicates_from].
    destruct (existsb (str_eqb (Q.query_gene x)) seen) eqn:E.
    + rewrite IH. cbn [map In]. split.
      * intros [H Hn]. split; [now right | exact Hn].
      * intros [[<- | H] Hn]; [|now split].
        exfalso. apply Hn.
        apply existsb_exists in E as (k' & Hk & Ek).
        apply str_eqb_eq in Ek. congruence.
    + cbn [map In]. rewrite IH. cbn [In]. split.
      * intros [<- | [H Hn]].
        -- split; [now left|]. intros Hs.
           assert (existsb (str_eqb (Q.query_gene x)) seen = true).
           { apply existsb_exists. exists (Q.query_gene x).
             split; [exact Hs | apply str_eqb_refl]. }
           congruence.
        -- split; [now right | tauto].
      * intros [[<- | H] Hn]; [now left|].
        destruct (list_eq_dec ascii_dec (Q.query_gene x) k) as [<- | D];
          [now left | right]. split; [exact H|]. intros [Hk | Hk]; tauto.
Qed.

Lemma process_report_eq (fname : str) (lines : list str) :
  process_report fname lines
  = write_report fname (fst (parse_file lines)) (snd (parse_file lines)).
Proof. unfold process_report. now destruct (parse_file lines). Qed.

End JoinFacts.

(** X8: whenever the keys of the de-duplicated query table are still
    pairwise distinct after the normalization that follows
    [drop_duplicates] - in particular whenever that normalization changes
    no key of the query table - the merged table has exactly the hit rows,
    each once and in their order. *)
Theorem X8_merge_one_row_per_hit :
  forall (fname : str) (query_df : list Q.row) (hits_df : list H.row),
    (NoDup (map (fun q => normalize_gene_id (Q.query_gene q))
                (query_sub query_df))
     \/ (forall q, In q query_df ->
                   normalize_gene_id (Q.query_gene q) = Q.query_gene q)) ->
    map M.hit (merged_of fname query_df hits_df) = normalize_hits_col hits_df
    /\ length (merged_of fname query_df hits_df) = length hits_df.
Proof.
  intros fname query_df hits_df H.
  assert (N : NoDup (map Q.query_gene
                         (normalize_query_col (query_sub query_df)))).
  { rewrite JoinFacts.normalize_query_col_keys. destruct H as [H | H].
    - exact H.
    - rewrite (map_ext_in _ Q.query_gene).
      + apply MergeFacts.query_sub_nodup.
      + intros q Hq. apply H. now apply MergeFacts.query_sub_In. }
  assert (E : map M.hit (merged_of fname query_df hits_df)
              = normalize_hits_col hits_df)
    by now apply JoinFacts.merge_left_hits_nodup.
  split; [exact E|].
  rewrite <- (length_map M.hit), E. unfold normalize_hits_col.
  apply length_map.
Qed.

Lemma X8_merge_one_row_per_hit_witness :
  length (merged_of (lit "contig_1_c1.txt") sample_query_dups sample_hits_df)
  = length sample_hits_df.
Proof.
  apply (X8_merge_one_row_per_hit (lit "contig_1_c1.txt") sample_query_dups
           sample_hits_df).
  right. intros q Hq. apply PyStrFacts.str_eqb_eq.
  apply (PyStrFacts.all_lines_check
           (fun k => str_eqb (normalize_gene_id k) k)
           (map Q.query_gene sample_query_dups)); [vm_compute; reflexivity|].
  now apply in_map.
Defined.

(** X9: the merge loses no hit row and keeps their order: the hit rows
    read off the merged table are the normalized hit rows in their order,
    each repeated once per query row having its key after the final
    normalization, and once when no query row has it; so the merged table
    is never shorter than the hit table. *)
Theorem X9_merge_keeps_every_hit :
  forall (fname : str) (query_df : list Q.row) (hits_df : list H.row),
    let right := normalize_query_col (query_sub query_df) in
    let merged := merged_of fname query_df hits_df in
    map M.hit merged
    = flat_map (fun h => repeat h (Nat.max 1 (length (matches_of right h))))
               (normalize_hits_col hits_df)
    /\ length hits_df <= length merged
    /\ (forall h, In h (normalize_hits_col hits_df) <->
                  exists r, In r merged /\ M.hit r = h).
Proof.
  intros fname query_df hits_df right merged. subst right merged.
  split; [apply JoinFacts.merge_left_hits|]. split.
  - unfold merged_of.
    pose proof (MergeFacts.merge_left_length_ge (region_clean fname)
                  (normalize_hits_col hits_df)
                  (normalize_query_col (query_sub query_df))) as L.
    unfold normalize_hits_col in L at 1. now rewrite length_map in L.
  - intros h. unfold merged_of. split.
    + intros Hh.
      destruct (matches_of (normalize_query_col (query_sub query_df)) h)
        as [|q qs] eqn:E.
      * exists (unmatched_row (region_clean fname) h). split; [|reflexivity].
        apply JoinFacts.merge_left_In. exists h. split; [exact Hh|]. now left.
      * exists (merge_row (region_clean fname) h q). split; [|reflexivity].
        apply JoinFacts.merge_left_In. exists h. split; [exact Hh|].
        right. exists q. split; [rewrite E; now left | reflexivity].
    + intros (r & Hr & <-).
      apply JoinFacts.merge_left_In in Hr
        as (h & Hh & [[_ ->] | (q & _ & ->)]); exact Hh.
Qed.

Lemma X9_merge_keeps_every_hit_witness :
  (exists r,
      In r (merged_of (lit "contig_1_c1.txt") sample_query_df sample_hits_df)
      /\ H.query_gene (M.hit r) = lit "geneX")
  /\ length sample_hits_df
     <= length (merged_of (lit "contig_1_c1.txt") sample_query_df
                          sample_hits_df).
Proof.
  pose proof (X9_merge_keeps_every_hit (lit "contig_1_c1.txt")
                sample_query_df sample_hits_df) as (_ & Hlen & Hin).
  split; [|exact Hlen].
  destruct (proj1 (Hin (nth 1 (normalize_hits_col sample_hits_df)
                            (H.mk None None None None None [] [] [] [] [] [])))
              ltac:(apply (nth_error_In _ 1); vm_compute; reflexivity))
    as (r & Hr & E).
  exists r. split; [exact Hr|]. rewrite E. vm_compute. reflexivity.
Defined.

(** X10: a merged row marked [both] carries the start, stop, strand and
    annotation of a row of the de-duplicated, normalized query table whose
    gene id equals the row's own; a merged row marked [left_only] has four
    missing query columns and no query row has its gene id.  Every merged
    row carries one of the normalized hit rows and the region of the
    file. *)
Theorem X10_join_rows :
  forall (fname : str) (query_df : list Q.row) (hits_df : list H.row)
         (r : M.row),
    In r (merged_of fname query_df hits_df) ->
    let right := normalize_query_col (query_sub query_df) in
    In (M.hit r) (normalize_hits_col hits_df)
    /\ M.region r = region_clean fname
    /\ match M._merge r with
       | M.both =>
           exists q,
             In q right
             /\ Q.query_gene q = H.query_gene (M.hit r)
             /\ M.start r = Some (Q.start q)
             /\ M.stop r = Some (Q.stop q)
             /\ M.strand r = Some (Q.strand q)
             /\ M.annotation r = Q.annotation q
       | M.left_only =>
           (forall q, In q right ->
                      Q.query_gene q <> H.query_gene (M.hit r))
           /\ M.start r = None /\ M.stop r = None
           /\ M.strand r = None /\ M.annotation r = None
       end.
Proof.
  intros fname query_df hits_df r Hr right. subst right.
  unfold merged_of in Hr.
  apply JoinFacts.merge_left_In in Hr as (h & Hh & [[E ->] | (q & Hq & ->)]).
  - split; [exact Hh|]. split; [reflexivity|]. cbn.
    split; [|now repeat split].
    now apply JoinFacts.matches_of_nil.
  - split; [exact Hh|]. split; [reflexivity|]. cbn.
    apply JoinFacts.matches_of_In in Hq as [Hq Hk].
    exists q. now repeat split.
Qed.

Lemma X10_join_rows_witness :
  In sample_unmatched_row
     (merged_of (lit "contig_1_c1.txt") sample_query_df sample_hits_df)
  /\ (forall q,
         In q (normalize_query_col (query_sub sample_query_df)) ->
         Q.query_gene q <> lit "geneX").
Proof.
  assert (Hin : In sample_unmatched_row
                   (merged_of (lit "contig_1_c1.txt") sample_query_df
                              sample_hits_df))
    by (apply (nth_error_In _ 1); vm_compute; reflexivity).
  split; [exact Hin|].
  exact (proj1 (proj2 (proj2 (X10_join_rows _ _ _ _ Hin)))).
Defined.

(** X11: [drop_duplicates] on the gene id keeps, for every gene id of the
    query table, its first row and no other: the keys of the result are
    pairwise distinct, they are the keys of the table, and each row kept
    is the first row of the table having its key. *)
Theorem X11_drop_duplicates_keeps_first :
  forall df : list Q.row,
    NoDup (map Q.query_gene (drop_duplicates df))
    /\ (forall k, In k (map Q.query_gene (drop_duplicates df))
                  <-> In k (map Q.query_gene df))
    /\ (forall r, In r (drop_duplicates df) ->
                  find (fun x => str_eqb (Q.query_gene x) (Q.query_gene r)) df
                  = Some r).
Proof.
  intros df. unfold drop_duplicates. split; [|split].
  - apply (MergeFacts.drop_duplicates_from_keys df []).
  - intros k. rewrite JoinFacts.drop_duplicates_from_keys_iff. simpl. tauto.
  - intros r Hr. now apply JoinFacts.drop_duplicates_from_first in Hr.
Qed.

Lemma X11_drop_duplicates_keeps_first_witness :
  drop_duplicates sample_query_dups = firstn 2 sample_query_dups
  /\ find (fun x => str_eqb (Q.query_gene x) (lit "geneA")) sample_query_dups
     = Some (Q.mk (lit "geneA") (lit "100") (lit "200") (lit "+")
                  (Some (lit "kinase"))).
Proof.
  split; [vm_compute; reflexivity|].
  apply (proj2 (proj2 (X11_drop_duplicates_keeps_first sample_query_dups))
           (Q.mk (lit "geneA") (lit "100") (lit "200") (lit "+")
                 (Some (lit "kinase")))).
  apply (nth_error_In _ 0). vm_compute. reflexivity.
Defined.

(** X12: for a report without the query-table header every merged row is
    marked [left_only], the merged table has one row per hit, and as soon
    as the report has a hit the unmatched-rows file is written and holds
    every merged row. *)
Theorem X12_no_query_table_all_unmatched :
  forall (fname : str) (lines : list str),
    (forall l, In l lines -> startswith (strip l) query_header = false) ->
    let hits_df := snd (parse_file lines) in
    let merged := merged_of fname (fst (parse_file lines)) hits_df in
    (forall r, In r merged -> M._merge r = M.left_only)
    /\ length merged = length hits_df
    /\ (hits_df <> [] ->
        In (fname ++ lit ".unmatched_rows.csv", frame merged)
           (process_report fname lines)).
Proof.
  intros fname lines H hits_df merged. subst hits_df merged.
  assert (Eq : fst (parse_file lines) = []).
  { unfold parse_file. cbn [fst].
    now rewrite TableFacts.find_query_block_none. }
  rewrite JoinFacts.process_report_eq, Eq.
  set (hits_df := snd (parse_file lines)).
  assert (Hall : forall r, In r (merged_of fname [] hits_df) ->
                           M._merge r = M.left_only).
  { intros r Hr. unfold merged_of in Hr.
    apply JoinFacts.merge_left_In in Hr as (h & _ & [[_ ->] | (q & Hq & _)]);
      [reflexivity | destruct Hq]. }
  assert (Hlen : length (merged_of fname [] hits_df) = length hits_df).
  { apply MergeFacts.merged_length_stable_keys. intros q []. }
  split; [exact Hall|]. split; [exact Hlen|].
  intros Hne. rewrite MergeFacts.write_report_eq by exact Hne.
  assert (Ef : filter is_left_only (merged_of fname [] hits_df)
               = merged_of fname [] hits_df).
  { apply PyStrFacts.filter_id. intros r Hr. unfold is_left_only.
    now rewrite (Hall r Hr). }
  rewrite Ef. apply in_or_app. left.
  destruct (merged_of fname [] hits_df) as [|r rs] eqn:E; [|now left].
  simpl in Hlen. destruct hits_df; [congruence | discriminate].
Qed.

Lemma X12_no_query_table_all_unmatched_witness :
  length (merged_of (lit "contig_1_c3.txt")
                    (fst (parse_file sample_report_numbered))
                    (snd (parse_file sample_report_numbered)))
  = length (snd (parse_file sample_report_numbered)).
Proof.
  assert (H : forall l, In l sample_report_numbered ->
                        startswith (strip l) query_header = false)
    by (apply (PyStrFacts.none_lines_check
                 (fun l => startswith (strip l) query_header));
        vm_compute; reflexivity).
  pose proof (X12_no_query_table_all_unmatched
                (lit "contig_1_c3.txt") sample_report_numbered H) as W.
  cbv zeta in W. exact (proj1 (proj2 W)).
Defined.

(* ================================================================== *)
(** ** Further properties: the hit rows of a report *)

Module HitFacts.
Import PyStrFacts.

Lemma hit_row_of_line_carries (id : option str) (m : Meta) (ln : str)
      (r : H.row) :
  hit_row_of_line id m ln = Some r -> carries id m r.
Proof.
  unfold hit_row_of_line.
  destruct (split_on TAB ln) as [|p0 [|p1 [|p2 [|p3 [|p4 [|p5 rest]]]]]];
    try (destruct (split_ws ln) as [|w0 [|w1 [|w2 [|w3 [|w4 [|w5 more]]]]]];
         try discriminate);
    intros [= <-]; now repeat split.
Qed.

Lemma hit_rows_carry (id : option str) (m : Meta) (lines : list str)
      (r : H.row) :
  In r (hit_rows id m lines) -> carries id m r.
Proof.
  induction lines as [|ln rest IH]; [intros []|].
  rewrite TableFacts.hit_rows_unfold.
  destruct (ends_hits_table ln); [intros []|].
  destruct (hit_row_of_line id m ln) as [x|] eqn:E; [|exact IH].
  intros [<- | Hr]; [now apply hit_row_of_line_carries in E | now apply IH].
Qed.

(** Every row of a table was built, with the table's metadata, from one
    of its lines that does not end the table. *)
Lemma hit_rows_origin (id : option str) (m : Meta) (lines : list str)
      (r : H.row) :
  In r (hit_rows id m lines) ->
  exists ln,
    In ln lines /\ ends_hits_table ln = false
    /\ hit_row_of_line id m ln = Some r.
Proof.
  induction lines as [|ln rest IH]; [intros []|].
  rewrite TableFacts.hit_rows_unfold.
  destruct (ends_hits_table ln) eqn:T; [intros []|].
  destruct (hit_row_of_line id m ln) as [x|] eqn:E.
  - intros [<- | Hr]; [exists ln; repeat split; [now left | exact T | exact E]|].
    destruct (IH Hr) as (l & Hl & Tl & El).
    exists l. repeat split; [now right | exact Tl | exact El].
  - intros Hr. destruct (IH Hr) as (l & Hl & Tl & El).
    exists l. repeat split; [now right | exact Tl | exact El].
Qed.

Lemma parse_block_carries (block : list str) (r : H.row) :
  In r (parse_block block) ->
  carries (bgc_id_clean (block_metadata block)) (block_metadata block) r.
Proof.
  unfold parse_block. destruct (after_hits_header block); [|intros []].
  apply hit_rows_carry.
Qed.

Lemma normalize_hits_col_In (df : list H.row) (r : H.row) :
  In r (normalize_hits_col df) ->
  exists r0,
    In r0 df
    /\ H.query_gene r = normalize_gene_id (H.query_gene r0)
    /\ forall id m, carries id m r0 -> carries id m r.
Proof.
  unfold normalize_hits_col. intros H.
  apply in_map_iff in H as (r0 & <- & H0). exists r0.
  split; [exact H0|]. split; [reflexivity|]. intros id m C. exact C.
Qed.

(** A cleaned identifier has no dot left. *)
Lemma clean_id_no_dot (id : str) :
  forallb cls_id_tail id = true -> free_of (cls_is ".") (clean_bgc_id id).
Proof.
  intros Hs. unfold clean_bgc_id, re_sub.
  rewrite CleanFacts.sub_dot_suffix.
  - intros c Hc.
    pose proof (takeWhile_all not_dot id) as A.
    rewrite forallb_forall in A. specialize (A c Hc).
    unfold not_dot in A. now apply negb_true_iff in A.
  - apply forallb_forall. intros c Hc. rewrite forallb_forall in Hs.
    now apply MetaFacts.id_tail_not_LF, Hs.
Qed.

End HitFacts.

(** X13: every hit row [parse_file] returns was read in one cluster block
    of the report and carries the metadata of that same block: there is a
    block of the report and, among the lines that follow its hits header,
    a line that does not end the table, such that the row is the row built
    from this line with the cleaned identifier, name, type, protein count
    and cumulative score extracted from this block, its gene id normalized
    once more. *)
Theorem X13_hit_rows_carry_block_metadata :
  forall (lines : list str) (r : H.row),
    In r (snd (parse_file lines)) ->
    exists (block tbl : list str) (ln : str) (r0 : H.row),
      In block (blocks lines)
      /\ after_hits_header block = Some tbl
      /\ In ln tbl
      /\ ends_hits_table ln = false
      /\ hit_row_of_line (bgc_id_clean (block_metadata block))
                         (block_metadata block) ln = Some r0
      /\ normalize_hits_col [r0] = [r]
      /\ carries (bgc_id_clean (block_metadata block))
                 (block_metadata block) r.
Proof.
  intros lines r Hr. unfold parse_file in Hr. cbn [snd] in Hr.
  unfold normalize_hits_col in Hr.
  apply in_map_iff in Hr as (r0 & Er & H0).
  apply in_flat_map in H0 as (block & Hb & H0).
  pose proof (HitFacts.parse_block_carries block r0 H0) as C.
  unfold parse_block in H0.
  destruct (after_hits_header block) as [tbl|] eqn:Eh; [|destruct H0].
  apply HitFacts.hit_rows_origin in H0 as (ln & Hln & T & E).
  exists block, tbl, ln, r0.
  split; [exact Hb|]. split; [exact Eh|]. split; [exact Hln|].
  split; [exact T|]. split; [exact E|].
  split; [unfold normalize_hits_col; cbn [map]; now rewrite Er|].
  subst r. exact C.
Qed.

Lemma X13_hit_rows_carry_block_metadata_witness :
  exists (block tbl : list str) (ln : str) (r0 : H.row),
    In block (blocks sample_report_numbered)
    /\ after_hits_header block = Some tbl
    /\ In ln tbl
    /\ ends_hits_table ln = false
    /\ hit_row_of_line (bgc_id_clean (block_metadata block))
                       (block_metadata block) ln = Some r0
    /\ normalize_hits_col [r0] = [sample_hit_row_second]
    /\ carries (bgc_id_clean (block_metadata block))
               (block_metadata block) sample_hit_row_second.
Proof.
  apply (X13_hit_rows_carry_block_metadata sample_report_numbered
                                           sample_hit_row_second).
  apply (nth_error_In _ 1). vm_compute. reflexivity.
Defined.

(* ================================================================== *)
(** ** Further properties: the identifier column *)

Module IdFacts.
Import PyStrFacts ReFacts.

(** The identifier captured by the first pattern begins with a capital
    letter. *)
Lemma m_bgc_head (ls : str) (mo : str * option str) :
  re_match re_m_bgc ls = Some mo ->
  exists u t, group1 mo = u :: t /\ cls_upper u = true.
Proof.
  destruct mo as [s' g']. unfold re_match, re_m_bgc. intros M.
  apply match_at_sound in M.
  apply matches_Cat_inv in M as (s1 & g1 & M1 & M).
  apply matches_Bol_inv in M1 as (-> & -> & _).
  apply matches_Cat_inv in M as (s2 & g2 & M2 & M).
  apply matches_Plus in M2 as (c0 & w0 & -> & _ & _ & ->).
  apply matches_Cat_inv in M as (s3 & g3 & M3 & M).
  apply matches_Chr_inv in M3 as (c1 & -> & _ & ->).
  apply matches_Cat_inv in M as (s4 & g4 & M4 & M).
  apply matches_Plus in M4 as (c2 & w2 & -> & _ & _ & ->).
  apply matches_Group_inv in M as (w & gi & E & M & ->).
  apply matches_Cat_inv in M as (t1 & h1 & N1 & M).
  apply matches_Chr_inv in N1 as (u1 & E1 & U1 & ->).
  destruct w as [|a w].
  - apply matches_suffix in M as [v Ev]. simpl in E. subst s4 t1.
    apply (f_equal (@length ascii)) in E1.
    cbn [length] in E1. rewrite length_app in E1. lia.
  - rewrite E in E1. injection E1 as -> _.
    exists u1, w. split; [reflexivity | exact U1].
Qed.

Lemma m2_head (ls : str) (mo : str * option str) :
  re_match re_m2 ls = Some mo ->
  exists u t, group1 mo = u :: t /\ cls_upper u = true.
Proof.
  destruct mo as [s' g']. unfold re_match, re_m2. intros M.
  apply match_at_sound in M.
  apply matches_Cat_inv in M as (s1 & g1 & M1 & M).
  apply matches_Bol_inv in M1 as (-> & -> & _).
  apply matches_Cat_inv in M as (s2 & g2 & M2 & M).
  apply matches_Plus in M2 as (c0 & w0 & -> & _ & _ & ->).
  apply matches_Cat_inv in M as (s3 & g3 & M3 & M).
  apply matches_Chr_inv in M3 as (c1 & -> & _ & ->).
  apply matches_Cat_inv in M as (s4 & g4 & M4 & M).
  apply matches_Plus in M4 as (c2 & w2 & -> & _ & _ & ->).
  apply matches_Group_inv in M as (w & gi & E & M & ->).
  apply matches_Cat_inv in M as (t1 & h1 & N1 & M).
  apply matches_Str in N1 as [E1 ->].
  apply matches_suffix in M as [v ->].
  rewrite E in E1.
  replace (lit "BGC" ++ v ++ s') with ((lit "BGC" ++ v) ++ s') in E1
    by (simpl; reflexivity).
  apply app_inv_tail in E1. subst w.
  exists "B"%char, (lit "GC" ++ v). split; reflexivity.
Qed.

(** A property of every captured identifier is a property of the
    identifier the scan of the header window ends with. *)
Section Invariant.
Variable P : str -> Prop.
Hypothesis P1 :
  forall ls mo, re_match re_m_bgc ls = Some mo -> P (group1 mo).
Hypothesis P2 :
  forall ls mo, re_match re_m2 ls = Some mo -> P (group1 mo).

Lemma header_step_inv (m : Meta) (ln : str) :
  (forall id, bgc_id m = Some id -> P id) ->
  forall id, bgc_id (header_step m ln) = Some id -> P id.
Proof.
  intros H. rewrite MetaFacts.header_step_bgc_id. cbv zeta.
  destruct (re_match re_m_bgc (strip ln)) as [mo|] eqn:E1;
    destruct (re_match re_m2 (strip ln)) as [mo2|] eqn:E2;
    repeat match goal with
           | |- context [if ?b then _ else _] => destruct b
           end;
    try exact H; intros id [= <-];
    (now apply P1 in E1) || (now apply P2 in E2).
Qed.

Lemma scan_header_inv (window : list str) :
  forall m,
    (forall id, bgc_id m = Some id -> P id) ->
    forall id, bgc_id (scan_header m window) = Some id -> P id.
Proof.
  induction window as [|l w IH]; intros m H; [exact H|].
  apply IH, header_step_inv, H.
Qed.

Lemma block_metadata_inv (block : list str) (id : str) :
  bgc_id (block_metadata block) = Some id -> P id.
Proof. apply scan_header_inv. intros ? [=]. Qed.
End Invariant.

Lemma block_metadata_head (block : list str) (id : str) :
  bgc_id (block_metadata block) = Some id ->
  exists u t, id = u :: t /\ cls_upper u = true.
Proof.
  apply (@block_metadata_inv
           (fun id => exists u t, id = u :: t /\ cls_upper u = true)).
  - exact m_bgc_head.
  - exact m2_head.
Qed.

Lemma takeWhile_In (p : ascii -> bool) (s : str) (c : ascii) :
  In c (takeWhile p s) -> In c s /\ p c = true.
Proof.
  induction s as [|a s IH]; simpl; [intros []|].
  destruct (p a) eqn:E; [|intros []].
  intros [<- | H]; [now split; [left|] |].
  destruct (IH H). split; [now right | assumption].
Qed.

(** The row of a report comes from one of its blocks. *)
Lemma hit_row_in_block (lines : list str) (r : H.row) :
  In r (snd (parse_file lines)) ->
  exists block,
    In block (blocks lines)
    /\ carries (bgc_id_clean (block_metadata block))
               (block_metadata block) r.
Proof.
  intros Hr. unfold parse_file in Hr. cbn [snd] in Hr.
  apply HitFacts.normalize_hits_col_In in Hr as (r0 & H0 & _ & C).
  apply in_flat_map in H0 as (block & Hb & H0).
  exists block. split; [exact Hb|].
  apply C. now apply HitFacts.parse_block_carries.
Qed.

(** The cleaned identifier of a block. *)
Lemma bgc_id_clean_shape (block : list str) (id : str) :
  bgc_id_clean (block_metadata block) = Some id ->
  (exists u t, id = u :: t /\ cls_upper u = true)
  /\ free_of (cls_is ".") id
  /\ forallb cls_id_tail id = true.
Proof.
  unfold bgc_id_clean.
  destruct (bgc_id (block_metadata block)) as [id0|] eqn:E;
    [|discriminate].
  destruct (truthy (Some id0)); [|discriminate].
  intros [= <-].
  destruct (MetaFacts.block_metadata_id_shape block E) as [_ Hall].
  destruct (@block_metadata_head block id0 E) as (u & t & -> & U).
  assert (Hany : forallb cls_any (u :: t) = true).
  { apply forallb_forall. intros c Hc. rewrite forallb_forall in Hall.
    now apply MetaFacts.id_tail_not_LF, Hall. }
  unfold clean_bgc_id, re_sub. rewrite CleanFacts.sub_dot_suffix by exact Hany.
  assert (Nd : not_dot u = true).
  { unfold not_dot, cls_is, chr_eqb.
    destruct (Ascii.eqb u ".") eqn:D; [|reflexivity].
    apply Ascii.eqb_eq in D. subst u. discriminate. }
  split; [|split].
  - exists u, (takeWhile not_dot t). split; [|exact U].
    simpl. now rewrite Nd.
  - intros c Hc. apply takeWhile_In in Hc as [_ Hc].
    unfold not_dot in Hc. now apply negb_true_iff in Hc.
  - apply forallb_forall. intros c Hc. apply takeWhile_In in Hc as [Hc _].
    rewrite forallb_forall in Hall. now apply Hall.
Qed.

End IdFacts.

(** X14: the [BCG_identifier] column of a hit row of a report is either
    missing or a non-empty string that begins with a capital letter,
    contains no dot and is made of letters, digits and dashes only. *)
Theorem X14_identifier_column_shape :
  forall (lines : list str) (r : H.row) (id : str),
    In r (snd (parse_file lines)) ->
    H.BCG_identifier r = Some id ->
    (exists u t, id = u :: t /\ cls_upper u = true)
    /\ free_of (cls_is ".") id
    /\ forallb cls_id_tail id = true.
Proof.
  intros lines r id Hr Hid.
  apply IdFacts.hit_row_in_block in Hr as (block & _ & C).
  destruct C as (E & _). rewrite Hid in E. symmetry in E.
  exact (@IdFacts.bgc_id_clean_shape block id E).
Qed.

Lemma X14_identifier_column_shape_witness :
  (exists u t, lit "BGC0001089" = u :: t /\ cls_upper u = true)
  /\ free_of (cls_is ".") (lit "BGC0001089")
  /\ forallb cls_id_tail (lit "BGC0001089") = true.
Proof.
  apply (X14_identifier_column_shape sample_report sample_hit_row).
  - apply (nth_error_In _ 0). vm_compute. reflexivity.
  - reflexivity.
Defined.

(* ================================================================== *)
(** ** Further properties: the key column and the sample-level file *)

Module SampleFacts.
Import PyStrFacts.

Lemma normalize_key_shape (s : str) : key_shape (normalize_gene_id s).
Proof.
  split; [|split].
  - intros c Hc. now apply NormalizeFacts.normalize_In in Hc.
  - intros c Hc. now apply NormalizeFacts.normalize_In in Hc.
  - apply NormalizeFacts.normalize_no_trailing_punct.
Qed.

Lemma normalize_query_col_shape (df : list Q.row) (q : Q.row) :
  In q (normalize_query_col df) -> key_shape (Q.query_gene q).
Proof.
  unfold normalize_query_col. intros H.
  apply in_map_iff in H as (q0 & <- & _). apply normalize_key_shape.
Qed.

Lemma normalize_hits_col_shape (df : list H.row) (h : H.row) :
  In h (normalize_hits_col df) -> key_shape (H.query_gene h).
Proof.
  unfold normalize_hits_col. intros H.
  apply in_map_iff in H as (h0 & <- & _). apply normalize_key_shape.
Qed.

Lemma sample_loop_unfold (fname : str) (lines : list str)
      (rest : list (str * list str)) :
  sample_loop ((fname, lines) :: rest)
  = match snd (parse_file lines) with
    | [] => sample_loop rest
    | _ :: _ =>
        (write_report fname (fst (parse_file lines))
                      (snd (parse_file lines))
         ++ fst (sample_loop rest),
         results_frame (fname, lines) :: snd (sample_loop rest))
    end.
Proof.
  cbn [sample_loop]. unfold results_frame. cbn [fst snd].
  destruct (parse_file lines) as [q h]. cbn [fst snd].
  destruct (sample_loop rest) as [w m]. now destruct h.
Qed.

(** The loop writes the files of each report in turn and keeps the
    results table of every report that has a hit. *)
Lemma sample_loop_eq (txt_files : list (str * list str)) :
  sample_loop txt_files
  = (flat_map (fun f => process_report (fst f) (snd f)) txt_files,
     map results_frame (filter has_hits txt_files)).
Proof.
  induction txt_files as [|[fname lines] rest IH]; [reflexivity|].
  rewrite sample_loop_unfold, IH.
  cbn [flat_map filter fst snd].
  rewrite JoinFacts.process_report_eq.
  replace (has_hits (fname, lines))
    with (match snd (parse_file lines) with [] => false | _ :: _ => true end)
    by reflexivity.
  destruct (snd (parse_file lines)) eqn:E; reflexivity.
Qed.

Lemma result_rows_no_hits (f : str * list str) :
  has_hits f = false -> result_rows f = [].
Proof.
  unfold has_hits, result_rows.
  destruct (snd (parse_file (snd f))); [reflexivity | discriminate].
Qed.

Lemma results_frame_rows (f : str * list str) :
  rows (results_frame f) = result_rows f.
Proof. unfold results_frame. apply MergeFacts.results_rows. Qed.

Lemma concat_results_rows (txt_files : list (str * list str)) :
  flat_map rows (map results_frame (filter has_hits txt_files))
  = flat_map result_rows txt_files.
Proof.
  induction txt_files as [|f rest IH]; [reflexivity|].
  cbn [filter flat_map]. destruct (has_hits f) eqn:E.
  - cbn [map flat_map]. now rewrite IH, results_frame_rows.
  - now rewrite IH, result_rows_no_hits.
Qed.

Lemma filter_nil_existsb (A : Type) (f : A -> bool) (l : list A) :
  existsb f l = false -> filter f l = [].
Proof.
  induction l as [|x l IH]; [reflexivity|]. simpl.
  destruct (f x); [discriminate | exact IH].
Qed.

Lemma filter_cons_existsb (A : Type) (f : A -> bool) (l : list A) :
  existsb f l = true -> exists x xs, filter f l = x :: xs.
Proof.
  induction l as [|x l IH]; [discriminate|]. simpl.
  destruct (f x); [intros _; eauto | exact IH].
Qed.

Lemma no_hits_no_files (f : str * list str) :
  has_hits f = false -> process_report (fst f) (snd f) = [].
Proof.
  unfold has_hits. rewrite JoinFacts.process_report_eq.
  destruct (snd (parse_file (snd f))); [reflexivity | discriminate].
Qed.

Lemma no_hits_nothing_written (txt_files : list (str * list str)) :
  existsb has_hits txt_files = false ->
  flat_map (fun f => process_report (fst f) (snd f)) txt_files = [].
Proof.
  induction txt_files as [|f rest IH]; [reflexivity|].
  cbn [existsb flat_map]. intros H. apply orb_false_iff in H as [Hf Hr].
  now rewrite (no_hits_no_files f Hf), IH.
Qed.

End SampleFacts.

(** X15: the gene id of every row of the two tables [parse_file] returns,
    and of every row of the merged table, contains no CR, LF, TAB and no
    quote character, and does not end in a space, comma, semicolon or
    colon. *)
Theorem X15_gene_ids_normalized :
  (forall (lines : list str),
      (forall q, In q (fst (parse_file lines)) ->
                 key_shape (Q.query_gene q))
      /\ (forall h, In h (snd (parse_file lines)) ->
                    key_shape (H.query_gene h)))
  /\ (forall (fname : str) (query_df : list Q.row) (hits_df : list H.row)
             (r : M.row),
         In r (merged_of fname query_df hits_df) ->
         key_shape (H.query_gene (M.hit r))).
Proof.
  split.
  - intros lines. unfold parse_file. cbn [fst snd]. split.
    + apply SampleFacts.normalize_query_col_shape.
    + apply SampleFacts.normalize_hits_col_shape.
  - intros fname query_df hits_df r Hr. unfold merged_of in Hr.
    apply JoinFacts.merge_left_In in Hr as (h & Hh & Hr).
    apply SampleFacts.normalize_hits_col_shape in Hh.
    destruct Hr as [[_ ->] | (q & _ & ->)]; exact Hh.
Qed.

Lemma X15_gene_ids_normalized_witness :
  key_shape (H.query_gene (M.hit sample_unmatched_row)).
Proof.
  apply (proj2 X15_gene_ids_normalized (lit "contig_1_c1.txt")
               sample_query_df sample_hits_df sample_unmatched_row).
  apply (nth_error_In _ 1). vm_compute. reflexivity.
Defined.

(** X16: [process_sample] writes, for each report in turn, the files of
    that report, and then, when at least one report has a hit, the
    sample-level file [<sample>.merged_results.tsv] in the output
    directory: its sixteen columns are those of a results table and its
    rows are the rows of the results tables of the reports, in the order
    of the reports.  When no report has a hit, nothing is written. *)
Theorem X16_sample_merged_file :
  forall (sample_name : str) (txt_files : list (str * list str)),
    process_sample sample_name txt_files
    = map (fun f => (InSampleDir (fst f), snd f))
          (flat_map (fun f => process_report (fst f) (snd f)) txt_files)
      ++ (if existsb has_hits txt_files
          then [(InOutDir (sample_name ++ lit ".merged_results.tsv"),
                 mkTable (firstn 16 merged_columns)
                         (flat_map result_rows txt_files))]
          else [])
    /\ (existsb has_hits txt_files = false ->
        process_sample sample_name txt_files = []).
Proof.
  intros sample_name txt_files.
  assert (E : process_sample sample_name txt_files
              = map (fun f => (InSampleDir (fst f), snd f))
                    (flat_map (fun f => process_report (fst f) (snd f))
                              txt_files)
                ++ (if existsb has_hits txt_files
                    then [(InOutDir (sample_name ++ lit ".merged_results.tsv"),
                           mkTable (firstn 16 merged_columns)
                                   (flat_map result_rows txt_files))]
                    else [])).
  { unfold process_sample.
    destruct txt_files as [|f rest]; [reflexivity|].
    rewrite SampleFacts.sample_loop_eq.
    f_equal.
    destruct (existsb has_hits (f :: rest)) eqn:Ex.
    - pose proof (SampleFacts.concat_results_rows (f :: rest)) as R.
      apply SampleFacts.filter_cons_existsb in Ex as (x & xs & Ef).
      rewrite Ef in *. cbn [map]. unfold concat_frames.
      cbn [map] in R. rewrite R. reflexivity.
    - now rewrite (SampleFacts.filter_nil_existsb _ _ Ex). }
  split; [exact E|].
  intros Hn. rewrite E, Hn, SampleFacts.no_hits_nothing_written by exact Hn.
  reflexivity.
Qed.

Lemma X16_sample_merged_file_witness :
  process_sample (lit "barcode01")
                 [(lit "contig_1_c1.txt", sample_report_unmarked)]
  = [].
Proof.
  apply (proj2 (X16_sample_merged_file
                  (lit "barcode01")
                  [(lit "contig_1_c1.txt", sample_report_unmarked)])).
  vm_compute. reflexivity.
Defined.

(* ================================================================== *)
(** ** Further properties: the region of a file name that has a tag *)

Module FirstTagFacts.
Import PyStrFacts ReFacts.

Section Engine.
Variable R : Type.

Lemma star_lazy_head (p : ascii -> bool) (s : str) (k : str -> option R)
      (x : R) :
  k s = Some x -> star_lazy p s k = Some x.
Proof. intros H. destruct s; simpl; now rewrite H. Qed.

Lemma star_lazy_skip (p : ascii -> bool) (k : str -> option R)
      (pre rest : str) :
  forallb p pre = true ->
  (forall t, In t (suffixes pre) -> k (t ++ rest) = None) ->
  star_lazy p (pre ++ rest) k = star_lazy p rest k.
Proof.
  induction pre as [|c pre IH]; intros Hp Hk; [reflexivity|].
  simpl in Hp. apply andb_true_iff in Hp as [Hc Hp].
  pose proof (Hk (c :: pre) (or_introl eq_refl)) as H0.
  simpl in H0. simpl. rewrite H0, Hc.
  apply IH; [exact Hp | intros t Ht; apply Hk; now right].
Qed.

Lemma star_greedy_run (p : ascii -> bool) (k : str -> option R) (x : R)
      (ds post : str) :
  forallb p ds = true -> stops p post -> k post = Some x ->
  star_greedy p (ds ++ post) k = Some x.
Proof.
  intros Hd Hs Hk. induction ds as [|c ds IH].
  - simpl. destruct post as [|c t]; simpl; [exact Hk|].
    simpl in Hs. now rewrite Hs.
  - simpl in Hd. apply andb_true_iff in Hd as [Hc Hd].
    simpl. now rewrite Hc, (IH Hd).
Qed.

Variable n : nat.

Lemma run_Alt (r1 r2 : regex) (s : str) (g : option str)
      (k : str -> option str -> option R) :
  run n (Alt r1 r2) s g k
  = match run n r1 s g k with
    | Some x => Some x
    | None => run n r2 s g k
    end.
Proof. reflexivity. Qed.

(** The two literal prefixes of the alternatives, on a string that
    begins with [_c] and on one that begins with [_C]. *)
Lemma run_lit_c_c (r : regex) (t : str) (g : option str)
      (k : str -> option str -> option R) :
  run n (Cat (Str (lit "_c")) r) ("_"%char :: "c"%char :: t) g k
  = run n r t g k.
Proof. reflexivity. Qed.

Lemma run_lit_C_C (r : regex) (t : str) (g : option str)
      (k : str -> option str -> option R) :
  run n (Cat (Str (lit "_C")) r) ("_"%char :: "C"%char :: t) g k
  = run n r t g k.
Proof. reflexivity. Qed.

Lemma run_lit_c_C (r : regex) (t : str) (g : option str)
      (k : str -> option str -> option R) :
  run n (Cat (Str (lit "_c")) r) ("_"%char :: "C"%char :: t) g k = None.
Proof. reflexivity. Qed.

Lemma run_lit_C_c (r : regex) (t : str) (g : option str)
      (k : str -> option str -> option R) :
  run n (Cat (Str (lit "_C")) r) ("_"%char :: "c"%char :: t) g k = None.
Proof. reflexivity. Qed.

Lemma run_digits (d : ascii) (ds post : str) (g : option str)
      (k : str -> option str -> option R) (x : R) :
  cls_digit d = true -> forallb cls_digit ds = true ->
  stops cls_digit post -> k post g = Some x ->
  run n (Plus cls_digit) (d :: ds ++ post) g k = Some x.
Proof.
  intros Hd Hds Hs Hk. simpl. rewrite Hd. now apply star_greedy_run.
Qed.

(** At the head of a tag that its digits end, the group consumes the
    tag. *)
Lemma run_tag (w post : str) (g : option str)
      (k : str -> option str -> option R) (x : R) :
  tag_c_digits w \/ tag_C_digits w \/ tag_c_nondigits_digits w ->
  stops cls_digit post -> k post g = Some x ->
  run n re_region_tag (w ++ post) g k = Some x.
Proof.
  intros T Hs Hk.
  assert (C1 : forall d ds,
             cls_digit d = true -> forallb cls_digit ds = true ->
             run n re_region_tag ("_"%char :: "c"%char :: d :: ds ++ post)
                 g k = Some x).
  { intros d ds Hd Hds. unfold re_region_tag.
    rewrite run_Alt, run_lit_c_c.
    now rewrite (@run_digits d ds post g k x Hd Hds Hs Hk). }
  destruct T as [(ds & [N D] & ->) | [(ds & [N D] & ->)
                                     | (nd & ds & Nd & [N D] & ->)]];
    destruct ds as [|d ds]; try congruence;
    simpl in D; apply andb_true_iff in D as [Dd D].
  - now apply C1.
  - change ((lit "_C" ++ d :: ds) ++ post)
      with ("_"%char :: "C"%char :: d :: ds ++ post).
    unfold re_region_tag.
    rewrite run_Alt, run_lit_c_C, run_Alt, run_lit_C_C.
    now rewrite (@run_digits d ds post g k x Dd D Hs Hk).
  - destruct nd as [|c0 nd]; [now apply C1|].
    replace ((lit "_c" ++ (c0 :: nd) ++ d :: ds) ++ post)
      with ("_"%char :: "c"%char :: c0 :: nd ++ (d :: ds ++ post))
      by (simpl; now rewrite <- app_assoc).
    simpl in Nd. apply andb_true_iff in Nd as [N0 Nd].
    assert (D0 : cls_digit c0 = false).
    { unfold cls_nondigit in N0. now apply negb_true_iff in N0. }
    unfold re_region_tag.
    rewrite run_Alt, run_lit_c_c.
    replace (run n (Plus cls_digit) (c0 :: nd ++ d :: ds ++ post) g k)
      with (@None R) by (simpl; now rewrite D0).
    rewrite run_Alt, run_lit_C_c, run_lit_c_c.
    change (run n (Cat (Star cls_nondigit) (Plus cls_digit))
                (c0 :: nd ++ d :: ds ++ post) g k)
      with (star_greedy cls_nondigit ((c0 :: nd) ++ (d :: ds ++ post))
              (fun s' => run n (Plus cls_digit) s' g k)).
    apply star_greedy_run.
    + simpl. now rewrite N0.
    + simpl. unfold cls_nondigit. now rewrite Dd.
    + now apply run_digits.
Qed.
End Engine.

(** What is tried at each position of the file name: the group and the
    rest of the pattern. *)
Lemma match_at_region (n : nat) (s : str) :
  match_at n re_region s
  = star_lazy cls_any s
      (fun s1 => run n (Cat (Group re_region_tag) (Star cls_any)) s1 None
                     (fun s' g => Some (s', g))).
Proof. reflexivity. Qed.

Lemma group_tag_at (n : nat) (w post : str) :
  tag_c_digits w \/ tag_C_digits w \/ tag_c_nondigits_digits w ->
  stops cls_digit post -> forallb cls_any post = true ->
  run n (Cat (Group re_region_tag) (Star cls_any)) (w ++ post) None
      (fun s' g => Some (s', g))
  = Some ([], Some w).
Proof.
  intros T Hs Ha.
  change (run n (Cat (Group re_region_tag) (Star cls_any)) (w ++ post) None
              (fun s' g => Some (s', g)))
    with (run n re_region_tag (w ++ post) None
              (fun s' _ =>
                 star_greedy cls_any s'
                   (fun s3 =>
                      Some (s3, Some (firstn (length (w ++ post) - length s')
                                             (w ++ post)))))).
  apply run_tag; [exact T | exact Hs |].
  transitivity
    (Some (@nil ascii,
           Some (firstn (length (w ++ post) - length post) (w ++ post)))).
  - apply star_greedy_to_end; [exact Ha | reflexivity].
  - rewrite length_app, Nat.add_sub, firstn_app, Nat.sub_diag, firstn_all.
    simpl. now rewrite app_nil_r.
Qed.

Lemma group_no_tag (n : nat) (u : str) :
  ~ starts_with_tag u ->
  run n (Cat (Group re_region_tag) (Star cls_any)) u None
      (fun s' g => Some (s', g))
  = None.
Proof.
  intros H.
  destruct (run n (Cat (Group re_region_tag) (Star cls_any)) u None
                (fun s' g => Some (s', g))) as [x|] eqn:E; [|reflexivity].
  exfalso. apply H.
  apply run_sound in E as (s' & g' & M & _).
  apply matches_Cat_inv in M as (s2 & g2 & M2 & M).
  apply matches_Group_inv in M2 as (w & gi & -> & M2 & ->).
  apply RegionFacts.region_tag_shape in M2.
  now exists w, s2.
Qed.

Lemma free_of_LF_any (s : str) :
  free_of (cls_is LF) s -> forallb cls_any s = true.
Proof.
  intros H. apply forallb_forall. intros c Hc.
  unfold cls_any. specialize (H c Hc). unfold cls_is in H. now rewrite H.
Qed.

Lemma match_at_first_tag (n : nat) (pre w post : str) :
  free_of (cls_is LF) (pre ++ w ++ post) ->
  (forall t, In t (suffixes pre) -> ~ starts_with_tag (t ++ w ++ post)) ->
  tag_c_digits w \/ tag_C_digits w \/ tag_c_nondigits_digits w ->
  stops cls_digit post ->
  match_at n re_region (pre ++ w ++ post) = Some ([], Some w).
Proof.
  intros Hlf Hpre T Hs.
  rewrite match_at_region, star_lazy_skip.
  - apply star_lazy_head, group_tag_at; [exact T | exact Hs |].
    apply free_of_LF_any. intros c Hc. apply Hlf.
    apply in_or_app. right. apply in_or_app. now right.
  - apply free_of_LF_any. intros c Hc. apply Hlf.
    apply in_or_app. now left.
  - intros t Ht. now apply group_no_tag, Hpre.
Qed.

Lemma tag_head (w : str) :
  tag_c_digits w \/ tag_C_digits w \/ tag_c_nondigits_digits w ->
  exists c t, w = "_"%char :: c :: t /\ (c = "c"%char \/ c = "C"%char).
Proof.
  intros [(ds & _ & ->) | [(ds & _ & ->) | (nd & ds & _ & _ & ->)]].
  - exists "c"%char, ds. now split; [|left].
  - exists "C"%char, ds. now split; [|right].
  - exists "c"%char, (nd ++ ds). now split; [|left].
Qed.

Lemma region_of_first_tag (pre w post : str) :
  free_of (cls_is LF) (pre ++ w ++ post) ->
  (forall t, In t (suffixes pre) -> ~ starts_with_tag (t ++ w ++ post)) ->
  tag_c_digits w \/ tag_C_digits w \/ tag_c_nondigits_digits w ->
  stops cls_digit post ->
  region_of (pre ++ w ++ post) = w.
Proof.
  intros Hlf Hpre T Hs. unfold region_of, re_sub.
  rewrite sub_from_unfold.
  rewrite (@match_at_first_tag (length (pre ++ w ++ post)) pre w post
             Hlf Hpre T Hs).
  destruct (@tag_head w T) as (c & t & Ew & _).
  destruct (pre ++ w ++ post) as [|a s] eqn:Es.
  - destruct pre; [subst w|]; discriminate.
  - cbn [length]. rewrite Nat.sub_0_r.
    rewrite sub_from_skip, skipn_all by lia.
    rewrite sub_from_unfold.
    replace (match_at (S (length s)) re_region [])
      with (@None (str * option str)) by reflexivity.
    simpl. apply app_nil_r.
Qed.

(** A check, by scanning, that no tag starts inside [pre]. *)
Lemma no_earlier_tag_check (pre rest : str) :
  forallb (fun t => negb (tag_starts_here (t ++ rest))) (suffixes pre)
  = true ->
  forall t, In t (suffixes pre) -> ~ starts_with_tag (t ++ rest).
Proof.
  intros H t Ht (w & post & E & T).
  rewrite forallb_forall in H. specialize (H t Ht).
  rewrite E, (RegionFacts.tag_starts_here_complete post T) in H.
  discriminate.
Qed.

End FirstTagFacts.

(** X17: in a file name without a line feed, the region is the tag at the
    first position where one starts: with the name split as [pre ++ w ++
    post], where no tag starts inside [pre], [w] has one of the three tag
    shapes and [post] does not go on with a digit, the substitution
    returns [w], and the region attached to the hits is [w] without its
    underscore. *)
Theorem X17_region_is_first_tag :
  forall (pre w post : str),
    free_of (cls_is LF) (pre ++ w ++ post) ->
    (forall t, In t (suffixes pre) -> ~ starts_with_tag (t ++ w ++ post)) ->
    tag_c_digits w \/ tag_C_digits w \/ tag_c_nondigits_digits w ->
    stops cls_digit post ->
    region_of (pre ++ w ++ post) = w
    /\ region_clean (pre ++ w ++ post) = tl w.
Proof.
  intros pre w post Hlf Hpre T Hs.
  pose proof (@FirstTagFacts.region_of_first_tag pre w post Hlf Hpre T Hs)
    as E.
  split; [exact E|].
  unfold region_clean. cbv zeta. rewrite E.
  destruct (@FirstTagFacts.tag_head w T) as (c & t & -> & [-> | ->]);
    reflexivity.
Qed.

Lemma X17_region_is_first_tag_witness :
  (region_of (lit "contig_1" ++ lit "_c10" ++ lit ".txt") = lit "_c10"
   /\ region_clean (lit "contig_1" ++ lit "_c10" ++ lit ".txt")
      = tl (lit "_c10"))
  /\ (region_of (lit "sample" ++ lit "_contig_1" ++ lit "_c3.txt")
      = lit "_contig_1"
      /\ region_clean (lit "sample" ++ lit "_contig_1" ++ lit "_c3.txt")
         = tl (lit "_contig_1")).
Proof.
  split.
  - apply (@X17_region_is_first_tag (lit "contig_1") (lit "_c10")
             (lit ".txt")).
    + apply NormalizeFacts.free_of_check. vm_compute. reflexivity.
    + apply FirstTagFacts.no_earlier_tag_check. vm_compute. reflexivity.
    + left. exists (lit "10").
      split; [split; [discriminate | reflexivity] | reflexivity].
    + reflexivity.
  - apply (@X17_region_is_first_tag (lit "sample") (lit "_contig_1")
             (lit "_c3.txt")).
    + apply NormalizeFacts.free_of_check. vm_compute. reflexivity.
    + apply FirstTagFacts.no_earlier_tag_check. vm_compute. reflexivity.
    + right. right. exists (lit "ontig_"), (lit "1").
      split; [reflexivity|].
      split; [split; [discriminate | reflexivity] | reflexivity].
    + reflexivity.
Defined.

(* ================================================================== *)
(** ** Further properties: what precedes the first block, and the lines
    of the text *)

Module PrefixFacts.
Import PyStrFacts.

Section Shift.
Variable p : str -> bool.

Lemma indices_from_shift (lines : list str) (m : nat) :
  forall k,
    indices_from p (m + k) lines = map (Nat.add m) (indices_from p k lines).
Proof.
  induction lines as [|ln rest IH]; intros k; [reflexivity|].
  cbn [indices_from]. replace (S (m + k)) with (m + S k) by lia.
  rewrite IH. now destruct (p ln).
Qed.

Lemma indices_from_app_none (pre rest : list str) :
  (forall l, In l pre -> p l = false) ->
  forall k,
    indices_from p k (pre ++ rest) = indices_from p (length pre + k) rest.
Proof.
  intros H. induction pre as [|ln pre IH]; intros k; [reflexivity|].
  cbn [app indices_from length]. rewrite (H ln (or_introl eq_refl)).
  rewrite IH by (intros l Hl; apply H; now right).
  f_equal. lia.
Qed.

Lemma indices_from_prefix (pre rest : list str) :
  (forall l, In l pre -> p l = false) ->
  indices_from p 0 (pre ++ rest)
  = map (Nat.add (length pre)) (indices_from p 0 rest).
Proof.
  intros H. rewrite indices_from_app_none by exact H.
  apply indices_from_shift.
Qed.
End Shift.

Lemma existsb_none (A : Type) (f : A -> bool) (l : list A) :
  (forall x, In x l -> f x = false) -> existsb f l = false.
Proof.
  intros H. induction l as [|x l IH]; [reflexivity|]. simpl.
  rewrite (H x (or_introl eq_refl)). apply IH. intros y Hy. apply H. now right.
Qed.

Lemma block_starts_prefix (pre rest : list str) :
  (forall l, In l pre -> is_primary l = false) ->
  existsb is_primary rest = true
  \/ (forall l, In l pre -> is_fallback l = false) ->
  block_starts (pre ++ rest)
  = map (Nat.add (length pre)) (block_starts rest).
Proof.
  intros Hp Hf. rewrite !SegmentFacts.block_starts_spec.
  rewrite existsb_app, (existsb_none _ _ Hp). cbn [orb].
  destruct (existsb is_primary rest).
  - now apply indices_from_prefix.
  - destruct Hf as [Hf | Hf]; [discriminate|].
    now apply indices_from_prefix.
Qed.

Lemma spans_shift (m n : nat) (idxs : list nat) :
  spans (map (Nat.add m) idxs) (m + n)
  = map (fun se => (m + fst se, m + snd se)) (spans idxs n).
Proof.
  induction idxs as [|i rest IH]; [reflexivity|].
  cbn [map spans]. rewrite IH. cbn [fst snd]. now destruct rest.
Qed.

Lemma slice_prefix (A : Type) (pre rest : list A) (a b : nat) :
  slice (pre ++ rest) (length pre + a) (length pre + b) = slice rest a b.
Proof.
  unfold slice.
  replace (length pre + b - (length pre + a)) with (b - a) by lia.
  f_equal. rewrite skipn_app.
  replace (length pre + a - length pre) with a by lia.
  now rewrite skipn_all2 by lia.
Qed.

Lemma blocks_prefix (pre rest : list str) :
  (forall l, In l pre -> is_primary l = false) ->
  existsb is_primary rest = true
  \/ (forall l, In l pre -> is_fallback l = false) ->
  blocks (pre ++ rest) = blocks rest.
Proof.
  intros Hp Hf. unfold blocks, segment.
  rewrite (block_starts_prefix _ _ Hp Hf), length_app, spans_shift, map_map.
  apply map_ext. intros [a b]. cbn [fst snd]. apply slice_prefix.
Qed.

End PrefixFacts.

(** X18: the lines in front of the first block marker belong to no block
    and give no hit row.  For [lines = pre ++ rest] where no line of [pre]
    begins with [>>] and, unless [rest] has a [>>] line, no line of [pre]
    is a numbered identifier line either, the blocks and the hits of the
    report are those of [rest]. *)
Theorem X18_lines_before_first_marker :
  forall (pre rest : list str),
    (forall l, In l pre -> is_primary l = false) ->
    existsb is_primary rest = true
    \/ (forall l, In l pre -> is_fallback l = false) ->
    blocks (pre ++ rest) = blocks rest
    /\ snd (parse_file (pre ++ rest)) = snd (parse_file rest).
Proof.
  intros pre rest Hp Hf.
  pose proof (@PrefixFacts.blocks_prefix pre rest Hp Hf) as E.
  split; [exact E|].
  unfold parse_file. cbn [snd]. now rewrite E.
Qed.

Lemma X18_lines_before_first_marker_witness :
  blocks (firstn 8 sample_report ++ skipn 8 sample_report)
  = blocks (skipn 8 sample_report)
  /\ snd (parse_file (firstn 8 sample_report ++ skipn 8 sample_report))
     = snd (parse_file (skipn 8 sample_report)).
Proof.
  apply (@X18_lines_before_first_marker (firstn 8 sample_report)
                                        (skipn 8 sample_report)).
  - apply (PyStrFacts.none_lines_check is_primary). vm_compute. reflexivity.
  - left. vm_compute. reflexivity.
Defined.

Module LinesFacts.
Import PyStrFacts.

(** Reading a line: its characters are pushed on the current line. *)
Lemma splitlines_from_line (l : str) :
  free_of is_linebreak l ->
  forall cur t,
    splitlines_from cur (l ++ t) = splitlines_from (rev l ++ cur) t.
Proof.
  induction l as [|c l IH]; intros H cur t; [reflexivity|].
  cbn [app splitlines_from]. rewrite (H c (or_introl eq_refl)).
  rewrite IH by (intros x Hx; apply H; now right).
  cbn [rev]. now rewrite <- app_assoc.
Qed.

Lemma splitlines_from_LF (cur t : str) :
  splitlines_from cur (LF :: t) = rev cur :: splitlines_from [] t.
Proof. now destruct t. Qed.

Lemma splitlines_from_CRLF (cur t : str) :
  splitlines_from cur (CR :: LF :: t) = rev cur :: splitlines_from [] t.
Proof. reflexivity. Qed.

Lemma splitlines_unix (lines : list str) :
  (forall l, In l lines -> free_of is_linebreak l) ->
  splitlines (unix_text lines) = lines.
Proof.
  unfold splitlines, unix_text.
  induction lines as [|l ls IH]; intros H; [reflexivity|].
  cbn [flat_map]. rewrite <- app_assoc. cbn [app].
  rewrite splitlines_from_line by (apply H; now left).
  rewrite splitlines_from_LF, app_nil_r, rev_involutive.
  f_equal. apply IH. intros x Hx. apply H. now right.
Qed.

Lemma splitlines_dos (lines : list str) :
  (forall l, In l lines -> free_of is_linebreak l) ->
  splitlines (dos_text lines) = lines.
Proof.
  unfold splitlines, dos_text.
  induction lines as [|l ls IH]; intros H; [reflexivity|].
  cbn [flat_map]. rewrite <- app_assoc. cbn [app].
  rewrite splitlines_from_line by (apply H; now left).
  rewrite splitlines_from_CRLF, app_nil_r, rev_involutive.
  f_equal. apply IH. intros x Hx. apply H. now right.
Qed.

(** A last line that no line break ends is a line as well. *)
Lemma splitlines_unix_last (lines : list str) (last : str) :
  (forall l, In l lines -> free_of is_linebreak l) ->
  last <> [] -> free_of is_linebreak last ->
  splitlines (unix_text lines ++ last) = lines ++ [last].
Proof.
  unfold splitlines, unix_text. intros H Hn Hl.
  induction lines as [|l ls IH].
  - cbn [flat_map app].
    rewrite <- (app_nil_r last) at 1.
    rewrite splitlines_from_line by exact Hl.
    rewrite app_nil_r. cbn [splitlines_from].
    destruct (rev last) as [|c r] eqn:E.
    + apply (f_equal (@rev ascii)) in E. rewrite rev_involutive in E.
      simpl in E. congruence.
    + rewrite <- E, rev_involutive. reflexivity.
  - cbn [flat_map]. rewrite <- !app_assoc. cbn [app].
    rewrite splitlines_from_line by (apply H; now left).
    rewrite splitlines_from_LF, app_nil_r, rev_involutive.
    f_equal. apply IH. intros x Hx. apply H. now right.
Qed.

Lemma lines_check (lines : list str) :
  forallb (forallb (fun c => negb (is_linebreak c))) lines = true ->
  forall l, In l lines -> free_of is_linebreak l.
Proof.
  intros H l Hl. rewrite forallb_forall in H.
  apply NormalizeFacts.free_of_check. now apply H.
Qed.

End LinesFacts.

(** X19: a report is parsed as the list of its lines whether its lines
    are ended by LF or by CR LF, and a last line without line end counts
    as a line: for lines that contain no line-break character, the text
    made of the lines each followed by LF, the text made of the lines
    each followed by CR LF, and the list of lines give the same two
    tables. *)
Theorem X19_line_ends_do_not_matter :
  forall (lines : list str),
    (forall l, In l lines -> free_of is_linebreak l) ->
    parse_text (unix_text lines) = parse_file lines
    /\ parse_text (dos_text lines) = parse_file lines
    /\ (forall last,
           last <> [] -> free_of is_linebreak last ->
           parse_text (unix_text lines ++ last)
           = parse_file (lines ++ [last])).
Proof.
  intros lines H. unfold parse_text. split; [|split].
  - now rewrite LinesFacts.splitlines_unix.
  - now rewrite LinesFacts.splitlines_dos.
  - intros last Hn Hl. now rewrite LinesFacts.splitlines_unix_last.
Qed.

Lemma X19_line_ends_do_not_matter_witness :
  parse_text (dos_text sample_report_numbered)
  = parse_file sample_report_numbered.
Proof.
  apply (@X19_line_ends_do_not_matter sample_report_numbered).
  apply LinesFacts.lines_check. vm_compute. reflexivity.
Defined.

(* ================================================================== *)
(** ** Further properties: the cells of the two tables *)

Module CellFacts.
Import PyStrFacts.

(** The fields of [split] contain no separator. *)
Lemma split_on_free (c : ascii) (s : str) :
  forall p, In p (split_on c s) -> free_of (cls_is c) p.
Proof.
  induction s as [|x t IH]; intros p Hp.
  - destruct Hp as [<- | []]. intros y [].
  - cbn [split_on] in Hp. destruct (chr_eqb x c) eqn:E.
    + destruct Hp as [<- | Hp]; [intros y [] | now apply IH].
    + destruct (split_on c t) as [|w ws] eqn:Es.
      * destruct Hp as [<- | []]. intros y [<- | []]. exact E.
      * destruct Hp as [<- | Hp].
        -- intros y [<- | Hy]; [exact E|].
           apply (IH w (or_introl eq_refl)), Hy.
        -- apply IH. now right.
Qed.

(** The tokens of [split()] are non-empty and contain no whitespace. *)
Lemma split_ws_from_tokens (s : str) :
  forall cur t,
    free_of isspace cur -> In t (split_ws_from cur s) ->
    t <> [] /\ free_of isspace t.
Proof.
  assert (Rv : forall cur : str,
             free_of isspace cur -> cur <> [] ->
             rev cur <> [] /\ free_of isspace (rev cur)).
  { intros cur Hc Hn. split.
    - intros E. apply Hn. apply (f_equal (@rev ascii)) in E.
      now rewrite rev_involutive in E.
    - intros y Hy. apply Hc. now apply in_rev. }
  induction s as [|c s IH]; intros cur t Hc Ht.
  - cbn [split_ws_from] in Ht. destruct cur as [|a cur]; [destruct Ht|].
    destruct Ht as [<- | []]. apply Rv; [exact Hc | discriminate].
  - cbn [split_ws_from] in Ht. destruct (isspace c) eqn:E.
    + destruct cur as [|a cur].
      * now apply (IH [] t).
      * destruct Ht as [<- | Ht]; [apply Rv; [exact Hc | discriminate]|].
        apply (IH [] t); [intros y [] | exact Ht].
    + apply (IH (c :: cur) t); [|exact Ht].
      intros y [<- | Hy]; [exact E | now apply Hc].
Qed.

Lemma split_ws_tokens (s t : str) :
  In t (split_ws s) -> free_of isspace t.
Proof.
  intros H. apply (@split_ws_from_tokens s [] t); [intros y [] | exact H].
Qed.

Lemma strip_clean (p : str) :
  free_of (cls_is TAB) p -> clean_cell (strip p).
Proof.
  intros H. split; [|split].
  - apply NormalizeFacts.strip_no_leading.
  - apply NormalizeFacts.strip_no_trailing.
  - intros c Hc. apply H. now apply NormalizeFacts.strip_In.
Qed.

Lemma token_clean (t : str) : free_of isspace t -> clean_cell t.
Proof.
  intros H. split; [|split].
  - intros c w ->. apply H. now left.
  - intros w c ->. apply H. apply in_or_app. right. now left.
  - intros c Hc. unfold cls_is. destruct (chr_eqb c TAB) eqn:E; [|reflexivity].
    apply chr_eqb_eq in E. subst c. specialize (H TAB Hc). discriminate.
Qed.

Lemma hit_row_of_line_clean (id : option str) (m : Meta) (ln : str)
      (r : H.row) :
  hit_row_of_line id m ln = Some r ->
  clean_cell (H.subject_gene r) /\ clean_cell (H.pct_identity r)
  /\ clean_cell (H.blast_score r) /\ clean_cell (H.pct_coverage r)
  /\ clean_cell (H.evalue r).
Proof.
  unfold hit_row_of_line.
  pose proof (split_on_free TAB ln) as Ft.
  pose proof (@split_ws_tokens ln) as Fw.
  destruct (split_on TAB ln) as [|p0 [|p1 [|p2 [|p3 [|p4 [|p5 rest]]]]]];
    try (destruct (split_ws ln) as [|w0 [|w1 [|w2 [|w3 [|w4 [|w5 more]]]]]];
         try discriminate;
         intros [= <-]; cbn [H.subject_gene H.pct_identity H.blast_score
                             H.pct_coverage H.evalue];
         repeat split; apply token_clean, Fw; simpl; tauto).
  intros [= <-]. cbn [H.subject_gene H.pct_identity H.blast_score
                      H.pct_coverage H.evalue].
  repeat split; apply strip_clean, Ft; simpl; tauto.
Qed.

Lemma query_row_of_line_clean (ln : str) (q : Q.row) :
  query_row_of_line ln = Some q ->
  clean_cell (Q.start q) /\ clean_cell (Q.stop q) /\ clean_cell (Q.strand q).
Proof.
  unfold query_row_of_line.
  pose proof (split_on_free TAB ln) as Ft.
  pose proof (@split_ws_tokens ln) as Fw.
  destruct (split_on TAB ln) as [|p0 [|p1 [|p2 [|p3 [|p4 rest]]]]];
    try (destruct (split_ws ln) as [|w0 [|w1 [|w2 [|w3 [|w4 more]]]]];
         try discriminate;
         intros [= <-]; cbn [Q.start Q.stop Q.strand];
         repeat split; apply token_clean, Fw; simpl; tauto).
  intros [= <-]. cbn [Q.start Q.stop Q.strand].
  repeat split; apply strip_clean, Ft; simpl; tauto.
Qed.

(** Every row of a table was built from one of its lines. *)
Lemma hit_rows_In (id : option str) (m : Meta) (lines : list str)
      (r : H.row) :
  In r (hit_rows id m lines) ->
  exists ln, In ln lines /\ hit_row_of_line id m ln = Some r.
Proof.
  induction lines as [|ln rest IH]; [intros []|].
  rewrite TableFacts.hit_rows_unfold.
  destruct (ends_hits_table ln); [intros []|].
  destruct (hit_row_of_line id m ln) as [x|] eqn:E.
  - intros [<- | Hr]; [exists ln; split; [now left | exact E]|].
    destruct (IH Hr) as (l & Hl & El). exists l. split; [now right | exact El].
  - intros Hr. destruct (IH Hr) as (l & Hl & El).
    exists l. split; [now right | exact El].
Qed.

Lemma query_rows_In (lines : list str) (q : Q.row) :
  In q (query_rows lines) ->
  exists ln, query_row_of_line ln = Some q.
Proof.
  induction lines as [|ln rest IH]; [intros []|].
  rewrite TableFacts.query_rows_unfold.
  destruct (ends_query_table (rstrip_chars [LF] ln)); [intros []|].
  destruct (query_row_of_line (rstrip_chars [LF] ln)) as [x|] eqn:E.
  - intros [<- | Hr]; [now exists (rstrip_chars [LF] ln) | now apply IH].
  - exact IH.
Qed.

Lemma find_query_block_In (lines : list str) (q : Q.row) :
  In q (find_query_block lines) ->
  exists q0 ln,
    query_row_of_line ln = Some q0
    /\ Q.start q = Q.start q0 /\ Q.stop q = Q.stop q0
    /\ Q.strand q = Q.strand q0.
Proof.
  induction lines as [|ln tail IH]; [intros []|].
  cbn [find_query_block].
  destruct (startswith (strip ln) query_header); [|exact IH].
  unfold parse_query_cluster_block, normalize_query_col. intros H.
  apply in_map_iff in H as (q0 & <- & H0).
  apply query_rows_In in H0 as (l & El).
  exists q0, l. now repeat split.
Qed.

End CellFacts.

(** X20: in the hits table of a report the subject gene, identity, score,
    coverage and e-value of every row, and in its query table the start,
    stop and strand of every row, have no whitespace at either end and
    contain no tab. *)
Theorem X20_cells_are_trimmed :
  forall (lines : list str),
    (forall r, In r (snd (parse_file lines)) ->
               clean_cell (H.subject_gene r) /\ clean_cell (H.pct_identity r)
               /\ clean_cell (H.blast_score r)
               /\ clean_cell (H.pct_coverage r)
               /\ clean_cell (H.evalue r))
    /\ (forall q, In q (fst (parse_file lines)) ->
                  clean_cell (Q.start q) /\ clean_cell (Q.stop q)
                  /\ clean_cell (Q.strand q)).
Proof.
  intros lines. unfold parse_file. cbn [fst snd]. split.
  - intros r Hr. unfold normalize_hits_col in Hr.
    apply in_map_iff in Hr as (r0 & <- & H0).
    cbn [H.subject_gene H.pct_identity H.blast_score H.pct_coverage
         H.evalue].
    apply in_flat_map in H0 as (block & _ & H0).
    unfold parse_block in H0.
    destruct (after_hits_header block) as [tbl|]; [|destruct H0].
    apply CellFacts.hit_rows_In in H0 as (ln & _ & E).
    exact (CellFacts.hit_row_of_line_clean _ _ _ E).
  - intros q Hq. unfold normalize_query_col in Hq.
    apply in_map_iff in Hq as (q1 & <- & H1).
    cbn [Q.start Q.stop Q.strand].
    apply CellFacts.find_query_block_In in H1
      as (q0 & ln & E & -> & -> & ->).
    exact (CellFacts.query_row_of_line_clean _ E).
Qed.

Lemma X20_cells_are_trimmed_witness :
  clean_cell (H.subject_gene sample_hit_row)
  /\ clean_cell (H.pct_identity sample_hit_row)
  /\ clean_cell (H.blast_score sample_hit_row)
  /\ clean_cell (H.pct_coverage sample_hit_row)
  /\ clean_cell (H.evalue sample_hit_row).
Proof.
  apply (proj1 (X20_cells_are_trimmed sample_report) sample_hit_row).
  apply (nth_error_In _ 0). vm_compute. reflexivity.
Defined.
